(** * lofin365-data-collector: the page crawler and the incomplete-dates ledger

    A shallow embedding of [fetch_local_finance_data.py]: the response
    classifier [is_empty_response], the paginated crawl loop [crawl_data]
    with its unit-level retries, and the part of [main] that expands the
    date range and maintains [data/incomplete_dates.json].

    Conventions.
    - A parsed JSON body is a [json] value.  JSON numbers are integers (the
      only number the crawler computes with is [list_total_count]); the two
      float expressions of the source ([len/total*100] and [total*0.995])
      are evaluated exactly, over [Q].
    - A Python exception is a value of [exn]; an expression that may raise
      has type [res A].
    - A string is a sequence of characters, one [ascii] per character.
    - The HTTP server is an oracle: the answer to the [n]-th request of a
      crawl (counted over all attempts), asked for page [p].
    - [logger], [time.sleep] and [session.post] are effects; the crawl
      records them, in order, in a trace of [event]s.
    - [while True] is run with fuel: [None] means that the loop is still
      running when the fuel is used up. The call stack is not bounded: a
      retry is a call of [crawl_data] by itself, whatever its depth.
    - Of [main], the calls of [crawl_data] and the ledger file are kept; the
      snapshot files, the table and the summaries are left out, and so are
      the interactive prompt and [KeyboardInterrupt]. *)

From Stdlib Require Import List String Ascii Bool Arith ZArith QArith Lia.
Import ListNotations.

#[local] Set Warnings "-register-all".
Close Scope Q_scope.
Local Open Scope string_scope.
Local Open Scope list_scope.

(** ** Python values and the operations the crawler applies to them *)

Inductive json : Type :=
| JNull
| JBool (b : bool)
| JNum (n : Z)
| JStr (s : string)
| JList (items : list json)
| JDict (members : list (string * json)).

Inductive exn : Type :=
| RequestException
| TypeError
| KeyError
| IndexError
| AttributeError
| ZeroDivisionError
| ValueError
| OverflowError
| UnboundLocalError.

Inductive res (A : Type) : Type :=
| Ok (a : A)
| Raise (e : exn).
Arguments Ok {A} a.
Arguments Raise {A} e.

Definition rbind {A B : Type} (r : res A) (k : A -> res B) : res B :=
  match r with
  | Ok a => k a
  | Raise e => Raise e
  end.

Declare Scope res_scope.
Delimit Scope res_scope with res.
Notation "x <- r ;; k" := (rbind r (fun x => k))
  (at level 61, r at next level, right associativity) : res_scope.

(** [bool(v)]: the truth value of a Python object. *)
Definition truthy (v : json) : bool :=
  match v with
  | JNull => false
  | JBool b => b
  | JNum n => negb (n =? 0)%Z
  | JStr s => negb (s =? EmptyString)
  | JList items => match items with [] => false | _ => true end
  | JDict members => match members with [] => false | _ => true end
  end.

Fixpoint lookup (k : string) (members : list (string * json)) : option json :=
  match members with
  | [] => None
  | (k', v) :: rest => if k =? k' then Some v else lookup k rest
  end.

(** [pat in s] on strings: substring test. *)
Fixpoint contains (pat s : string) : bool :=
  prefix pat s ||
  match s with
  | EmptyString => false
  | String _ s' => contains pat s'
  end.

Definition is_str (k : string) (v : json) : bool :=
  match v with
  | JStr s => k =? s
  | _ => false
  end.

(** [k in c], for a string [k]. *)
Definition py_in (k : string) (c : json) : res bool :=
  match c with
  | JDict members => Ok (match lookup k members with Some _ => true | None => false end)
  | JList items => Ok (existsb (is_str k) items)
  | JStr s => Ok (contains k s)
  | JNull | JBool _ | JNum _ => Raise TypeError
  end.

(** [c[k]], for a string [k]. *)
Definition py_getitem (c : json) (k : string) : res json :=
  match c with
  | JDict members =>
      match lookup k members with
      | Some v => Ok v
      | None => Raise KeyError
      end
  | _ => Raise TypeError
  end.

(** [c[0]]. A parsed JSON object has string keys only, so [0] is never one. *)
Definition py_first (c : json) : res json :=
  match c with
  | JList items => match items with x :: _ => Ok x | [] => Raise IndexError end
  | JStr s => match s with String a _ => Ok (JStr (String a EmptyString)) | EmptyString => Raise IndexError end
  | JDict _ => Raise KeyError
  | JNull | JBool _ | JNum _ => Raise TypeError
  end.

(** [c.get(k)]. *)
Definition py_get (c : json) (k : string) : res json :=
  match c with
  | JDict members => Ok (match lookup k members with Some v => v | None => JNull end)
  | _ => Raise AttributeError
  end.

Fixpoint chars (s : string) : list json :=
  match s with
  | EmptyString => []
  | String a s' => JStr (String a EmptyString) :: chars s'
  end.

(** The elements [for x in c] runs over. *)
Definition py_iter (c : json) : res (list json) :=
  match c with
  | JList items => Ok items
  | JDict members => Ok (map (fun kv => JStr (fst kv)) members)
  | JStr s => Ok (chars s)
  | JNull | JBool _ | JNum _ => Raise TypeError
  end.

(** A Python [int] or [bool] used as a number. *)
Definition as_number (v : json) : res Z :=
  match v with
  | JNum n => Ok n
  | JBool b => Ok (if b then 1%Z else 0%Z)
  | _ => Raise TypeError
  end.

(** [str.strip()], on the ASCII white space. *)
Definition is_space (a : ascii) : bool :=
  let n := nat_of_ascii a in
  ((9 <=? n)%nat && (n <=? 13)%nat) || ((28 <=? n)%nat && (n <=? 32)%nat).

Fixpoint lstrip (s : string) : string :=
  match s with
  | EmptyString => EmptyString
  | String a s' => if is_space a then lstrip s' else s
  end.

Fixpoint rstrip (s : string) : string :=
  match s with
  | EmptyString => EmptyString
  | String a s' =>
      match rstrip s' with
      | EmptyString => if is_space a then EmptyString else String a EmptyString
      | r => String a r
      end
  end.

Definition strip (s : string) : string := rstrip (lstrip s).

(** ** The response classifier *)

Section Classifier.
Local Open Scope res_scope.

(** ['row' not in item or not item['row']] *)
Definition no_row (item : json) : res bool :=
  has <- py_in "row" item ;;
  if negb has then Ok true
  else v <- py_getitem item "row" ;; Ok (negb (truthy v)).

(** [all(... for item in items)]; [all] stops at the first false. *)
Fixpoint all_no_row (items : list json) : res bool :=
  match items with
  | [] => Ok true
  | item :: rest =>
      b <- no_row item ;;
      if b then all_no_row rest else Ok false
  end.

Definition is_empty_dict (v : json) : bool :=
  match v with
  | JDict [] => true
  | _ => false
  end.

Definition is_empty_response (response_json : json) : res bool :=
  if negb (truthy response_json) then Ok true
  else if is_empty_dict response_json then Ok true
  else
    has <- py_in "QWGJK" response_json ;;
    if has then
      payload <- py_getitem response_json "QWGJK" ;;
      if negb (truthy payload) then Ok true
      else
        items <- py_iter payload ;;
        none <- all_no_row items ;;
        if none then Ok true else Ok false
    else Ok false.

End Classifier.

(** ** Sequential code with early exits

    A command runs on a state of type [S]; it either falls through with a
    value or leaves with an exit of type [X] ([break], [return], a raised
    exception, ...).  Either way the state it reached is kept: what was
    assigned before an exception is still assigned after it. *)

Definition SM (S X A : Type) : Type := S -> (A + X) * S.

Definition ret {S X A : Type} (a : A) : SM S X A := fun st => (inl a, st).

Definition bind {S X A B : Type} (m : SM S X A) (k : A -> SM S X B) : SM S X B :=
  fun st =>
    match m st with
    | (inl a, st') => k a st'
    | (inr x, st') => (inr x, st')
    end.

Definition leave {S X A : Type} (x : X) : SM S X A := fun st => (inr x, st).

Definition get {S X A : Type} (f : S -> A) : SM S X A := fun st => (inl (f st), st).

Declare Scope prog_scope.
Delimit Scope prog_scope with prog.
Notation "x <- m ;; k" := (bind m (fun x => k))
  (at level 61, m at next level, right associativity) : prog_scope.
Notation "m ;; k" := (bind m (fun _ => k))
  (at level 61, right associativity) : prog_scope.

(** ** Configuration, server and effects *)

Record Config : Type := {
  api_key : option string;
  api_max_records_per_request : Z;
  api_max_retries : Z;
  api_retry_delay : Z;
  data_start_year : Z;
  data_end_year : Z
}.

(** What [session.post] hands back. [json_body] is [response.json()]:
    [None] stands for [json.JSONDecodeError]. *)
Record response : Type := {
  status_code : Z;
  text : string;
  json_body : option json
}.

Inductive fetched : Type :=
| ConnectionFailed
| Responded (r : response).

(** [srv n p]: the outcome of the [n]-th request (from 0), for page [p]. *)
Definition server : Type := nat -> nat -> fetched.

(** The two places where the next page is probed: after the reported total
    has been reached, and after a page shorter than the page size. *)
Inductive site : Type := TotalReached | ShortPage.

(** One constructor per [logger] call of [crawl_data]. *)
Inductive log_msg : Type :=
| CompleteUrl (page : nat)
| RequiredValuesMissing
| ServerInternalError
| BadStatus (code : Z)
| Retrying (attempt : nat)
| EmptyText (page : nat)
| MultipleEmptyResponses
| DecodeFailed
| EmptyJson (page : nat)
| EmptyJsonAfterData
| TotalRecords (total : json)
| Retrieved (page : nat) (records : nat)
| NoDataInResponse (page : nat)
| CollectedSoFar (collected : nat) (total : json)
| Progress
| AllCollected
| NearlyComplete
| MultipleEmptyPages
| PageIsShort (page : nat) (records : nat)
| Probing (s : site) (next_page : nat)
| ProbeEmptyText (s : site) (next_page : nat)
| ProbeEmptyJson (s : site) (next_page : nat)
| ProbeMoreData (s : site) (next_page : nat)
| ProbeInvalidJson (s : site)
| ProbeBadStatus (s : site) (code : Z)
| UnexpectedStructure
| NetworkError
| UnexpectedError (e : exn)
| IncompleteCollection
| WillRetryLater.

Inductive event : Type :=
| Post (page : nat)
| Sleep (secs : Z)
| Log (m : log_msg).

(** The local variables of one call of [crawl_data], its [retry_count]
    argument, and the effects so far (which outlive the call). *)
Record cstate : Type := {
  all_data : list json;
  page : nat;
  total_count : json;
  empty_response_count : nat;
  retry_count : nat;
  requests : nat;
  trace : list event
}.

(** How a piece of the loop body is left other than by falling through:
    [break], [continue], [return crawl_data(.., retry_count + 1)], or an
    exception on its way to the [except] clauses. *)
Inductive signal : Type :=
| Break
| Continue
| Retry
| Throw (e : exn).

Definition M (A : Type) : Type := SM cstate signal A.

Definition lift {A : Type} (r : res A) : M A :=
  fun st =>
    match r with
    | Ok a => (inl a, st)
    | Raise e => (inr (Throw e), st)
    end.

Definition emit (e : event) : M unit :=
  fun st =>
    (inl tt,
     {| all_data := all_data st; page := page st; total_count := total_count st;
        empty_response_count := empty_response_count st;
        retry_count := retry_count st; requests := requests st;
        trace := trace st ++ [e] |}).

Definition log (m : log_msg) : M unit := emit (Log m).

(** [time.sleep(secs)] raises [ValueError] on a negative length. *)
Definition sleep (secs : Z) : M unit :=
  fun st =>
    if (secs <? 0)%Z then (inr (Throw ValueError), st) else emit (Sleep secs) st.

Definition set_all_data (d : list json) : M unit :=
  fun st =>
    (inl tt,
     {| all_data := d; page := page st; total_count := total_count st;
        empty_response_count := empty_response_count st;
        retry_count := retry_count st; requests := requests st;
        trace := trace st |}).

Definition set_page (p : nat) : M unit :=
  fun st =>
    (inl tt,
     {| all_data := all_data st; page := p; total_count := total_count st;
        empty_response_count := empty_response_count st;
        retry_count := retry_count st; requests := requests st;
        trace := trace st |}).

Definition set_total_count (t : json) : M unit :=
  fun st =>
    (inl tt,
     {| all_data := all_data st; page := page st; total_count := t;
        empty_response_count := empty_response_count st;
        retry_count := retry_count st; requests := requests st;
        trace := trace st |}).

Definition set_empty_response_count (n : nat) : M unit :=
  fun st =>
    (inl tt,
     {| all_data := all_data st; page := page st; total_count := total_count st;
        empty_response_count := n;
        retry_count := retry_count st; requests := requests st;
        trace := trace st |}).

Definition nonempty {A : Type} (l : list A) : bool :=
  match l with [] => false | _ => true end.

Definition is_none (v : json) : bool :=
  match v with JNull => true | _ => false end.

(** [t == '{}' or len(t) < 5] *)
Definition is_empty_text (t : string) : bool :=
  (t =? "{}") || (String.length t <? 5)%nat.

Definition Qlt_bool (x y : Q) : bool := negb (Qle_bool y x).

(** [collected / total * 100] *)
Definition percentage (collected : nat) (total : json) : res Q :=
  (t <- as_number total ;;
   if (t =? 0)%Z then Raise ZeroDivisionError
   else Ok (inject_Z (Z.of_nat collected) / inject_Z t * 100)%Q)%res.

(** [collected >= total] *)
Definition reaches (collected : nat) (total : json) : res bool :=
  (t <- as_number total ;; Ok (t <=? Z.of_nat collected)%Z)%res.

(** The rows of a page: [row_data] after the [for item in ...] loop. *)
Fixpoint collect_rows (items : list json) : res (list json) :=
  match items with
  | [] => Ok []
  | item :: rest =>
      (has <- py_in "row" item ;;
       here <- (if has : bool then (v <- py_getitem item "row" ;; py_iter v) else Ok []) ;;
       more <- collect_rows rest ;;
       Ok (here ++ more))%res
  end.

Definition row_data_of (response_json : json) : res (list json) :=
  (payload <- py_getitem response_json "QWGJK" ;;
   items <- py_iter payload ;;
   collect_rows items)%res.

(** [bool(config.api_key)] *)
Definition has_api_key (cfg : Config) : bool :=
  match api_key cfg with
  | Some k => negb (k =? EmptyString)
  | None => false
  end.

(** [config.get_request_params(year, exec_date, page)] raises [ValueError]
    without an API key. The parameters themselves are the unit of the
    crawl, fixed, and the page, which [post] is given. *)
Definition get_request_params (cfg : Config) : res unit :=
  if has_api_key cfg then Ok tt else Raise ValueError.

(** ** The page crawler: [crawl_data] *)

Section Crawler.
Variable cfg : Config.
Variable srv : server.
Local Open Scope prog_scope.

Definition post (p : nat) : M response :=
  fun st =>
    let st' :=
      {| all_data := all_data st; page := page st; total_count := total_count st;
         empty_response_count := empty_response_count st;
         retry_count := retry_count st; requests := S (requests st);
         trace := trace st ++ [Post p] |} in
    match srv (requests st) p with
    | ConnectionFailed => (inr (Throw RequestException), st')
    | Responded r => (inl r, st')
    end.

(** The shared tail of every failure path:
    [if retry_count < config.api_max_retries: ... return crawl_data(...)]
    followed by [break]. *)
Definition retry_or_break : M unit :=
  rc <- get retry_count ;;
  if (Z.of_nat rc <? api_max_retries cfg)%Z then
    log (Retrying (rc + 1)) ;;
    sleep (api_retry_delay cfg) ;;
    leave Retry
  else leave Break.

Definition incr_empty_response_count : M unit :=
  n <- get empty_response_count ;; set_empty_response_count (n + 1).

(** The request for [page + 1] that decides whether the crawl is over. *)
Definition probe_next_page (s : site) : M unit :=
  pg <- get page ;;
  let next_page := (pg + 1)%nat in
  lift (get_request_params cfg) ;;
  log (Probing s next_page) ;;
  next_response <- post next_page ;;
  if (status_code next_response =? 200)%Z then
    let next_text := strip (text next_response) in
    if is_empty_text next_text then
      log (ProbeEmptyText s next_page) ;; leave Break
    else
      match json_body next_response with
      | Some next_json =>
          e <- lift (is_empty_response next_json) ;;
          if e : bool then log (ProbeEmptyJson s next_page) ;; leave Break
          else log (ProbeMoreData s next_page) ;; set_page next_page ;; leave Continue
      | None => log (ProbeInvalidJson s) ;; leave Break
      end
  else log (ProbeBadStatus s (status_code next_response)) ;; leave Break.

Fixpoint scan_metadata (metadata : list json) : M unit :=
  match metadata with
  | [] => ret tt
  | meta_item :: rest =>
      has <- lift (py_in "list_total_count" meta_item) ;;
      (if has : bool then
         v <- lift (py_getitem meta_item "list_total_count") ;;
         set_total_count v ;;
         log (TotalRecords v)
       else ret tt) ;;
      scan_metadata rest
  end.

(** [if page == 1 and response_json['QWGJK'][0].get('head'): ...] *)
Definition read_total (response_json : json) : M unit :=
  pg <- get page ;;
  if (pg =? 1)%nat then
    payload <- lift (py_getitem response_json "QWGJK") ;;
    first <- lift (py_first payload) ;;
    head <- lift (py_get first "head") ;;
    if truthy head then
      metadata <- lift (py_getitem first "head") ;;
      items <- lift (py_iter metadata) ;;
      scan_metadata items
    else ret tt
  else ret tt.

(** The branch [if 'QWGJK' in response_json:] of the loop body. *)
Definition handle_page (response_json : json) : M unit :=
  read_total response_json ;;
  row_data <- lift (row_data_of response_json) ;;
  pg <- get page ;;
  (if nonempty row_data then
     log (Retrieved pg (List.length row_data)) ;;
     data <- get all_data ;;
     set_all_data (data ++ row_data)
   else
     log (NoDataInResponse pg) ;;
     incr_empty_response_count) ;;
  total <- get total_count ;;
  (if is_none total then ret tt
   else
     data <- get all_data ;;
     log (CollectedSoFar (List.length data) total) ;;
     collection_percentage <- lift (percentage (List.length data) total) ;;
     log Progress ;;
     reached <- lift (reaches (List.length data) total) ;;
     (if reached : bool then log AllCollected ;; probe_next_page TotalReached
      else ret tt) ;;
     if Qlt_bool (995 # 10) collection_percentage && negb (nonempty row_data) then
       log NearlyComplete ;; leave Break
     else ret tt) ;;
  (if negb (nonempty row_data) then
     incr_empty_response_count ;;
     n <- get empty_response_count ;;
     if (2 <=? n)%nat then log MultipleEmptyPages ;; leave Break else ret tt
   else if (Z.of_nat (List.length row_data) <? api_max_records_per_request cfg)%Z then
     log (PageIsShort pg (List.length row_data)) ;;
     probe_next_page ShortPage
   else ret tt) ;;
  pg' <- get page ;;
  set_page (pg' + 1) ;;
  sleep 1.

(** The body of [while True:], inside the [try]. *)
Definition loop_body : M unit :=
  pg <- get page ;;
  lift (get_request_params cfg) ;;
  log (CompleteUrl pg) ;;
  response <- post pg ;;
  let code := status_code response in
  (if (code =? 300)%Z then log RequiredValuesMissing ;; leave Break
   else if (code =? 500)%Z then log ServerInternalError ;; retry_or_break
   else if negb (code =? 200)%Z then log (BadStatus code) ;; retry_or_break
   else ret tt) ;;
  let response_text := strip (text response) in
  if is_empty_text response_text then
    log (EmptyText pg) ;;
    incr_empty_response_count ;;
    n <- get empty_response_count ;;
    (if (2 <=? n)%nat then log MultipleEmptyResponses ;; leave Break else ret tt) ;;
    set_page (pg + 1) ;;
    sleep 1 ;;
    leave Continue
  else
    set_empty_response_count 0 ;;
    match json_body response with
    | None => log DecodeFailed ;; retry_or_break
    | Some response_json =>
        e <- lift (is_empty_response response_json) ;;
        if e : bool then
          log (EmptyJson pg) ;;
          incr_empty_response_count ;;
          data <- get all_data ;;
          n <- get empty_response_count ;;
          (if nonempty data && (1 <=? n)%nat then log EmptyJsonAfterData ;; leave Break
           else ret tt) ;;
          set_page (pg + 1) ;;
          sleep 1 ;;
          leave Continue
        else
          has <- lift (py_in "QWGJK" response_json) ;;
          if has : bool then handle_page response_json
          else log UnexpectedStructure ;; leave Break
    end.

(** The body with its two [except] clauses. What is raised inside a
    clause leaves [crawl_data]. *)
Definition guarded_body : M unit :=
  fun st =>
    match loop_body st with
    | (inr (Throw e), st') =>
        (log (match e with
              | RequestException => NetworkError
              | _ => UnexpectedError e
              end) ;;
         retry_or_break) st'
    | r => r
    end.

(** What [crawl_data] hands to its caller. *)
Inductive outcome : Type :=
| Returned (data : list json) (total : json) (is_complete : bool)
| Raised (e : exn).

(** [True if not total_count or len(all_data) >= total_count * 0.995 else False] *)
Definition final_flag (collected : nat) (total : json) : res bool :=
  if negb (truthy total) then Ok true
  else
    (t <- as_number total ;;
     Ok (Qle_bool (inject_Z t * (995 # 1000)) (inject_Z (Z.of_nat collected))))%res.

(** The code after the loop. *)
Definition after_loop : M (list json * json * bool) :=
  data <- get all_data ;;
  total <- get total_count ;;
  rc <- get retry_count ;;
  below <- (if is_none total then ret false
            else t <- lift (as_number total) ;; ret (Z.of_nat (List.length data) <? t)%Z) ;;
  if below : bool then
    completion_rate <- lift (percentage (List.length data) total) ;;
    log IncompleteCollection ;;
    if Qlt_bool completion_rate (995 # 10) && (Z.of_nat rc <? api_max_retries cfg)%Z then
      log WillRetryLater ;;
      ret (data, total, false)
    else
      flag <- lift (final_flag (List.length data) total) ;;
      ret (data, total, flag)
  else
    flag <- lift (final_flag (List.length data) total) ;;
    ret (data, total, flag).

Definition finish (st : cstate) : outcome * cstate :=
  match after_loop st with
  | (inl (data, total, flag), st') => (Returned data total flag, st')
  | (inr (Throw e), st') => (Raised e, st')
  | (inr _, st') => (Raised ValueError, st')
  end.

(** The state in which a call of [crawl_data] enters its loop. *)
Definition enter (rc : nat) (n : nat) (tr : list event) : cstate :=
  {| all_data := []; page := 1; total_count := JNull;
     empty_response_count := 0; retry_count := rc;
     requests := n; trace := tr |}.

(** [fuel] bounds the number of loop iterations, over all attempts. *)
Fixpoint crawl_loop (fuel : nat) (st : cstate) : option (outcome * cstate) :=
  match fuel with
  | O => None
  | S fuel' =>
      match guarded_body st with
      | (inl _, st') => crawl_loop fuel' st'
      | (inr Continue, st') => crawl_loop fuel' st'
      | (inr Break, st') => Some (finish st')
      | (inr Retry, st') =>
          crawl_loop fuel' (enter (S (retry_count st')) (requests st') (trace st'))
      | (inr (Throw e), st') => Some (Raised e, st')
      end
  end.

Definition crawl_data (fuel : nat) : option (outcome * cstate) :=
  crawl_loop fuel (enter 0 0 []).

End Crawler.

(** ** The calendar ([calendar.monthrange], [datetime], [timedelta(days=1)]) *)

Record date : Type := { year_of : Z; month_of : Z; day_of : Z }.

Definition isleap (year : Z) : bool :=
  ((year mod 4 =? 0) && (negb (year mod 100 =? 0) || (year mod 400 =? 0)))%Z.

Definition mdays : list Z := [0; 31; 28; 31; 30; 31; 30; 31; 31; 30; 31; 30; 31]%Z.

(** [calendar.monthrange(year, month)[1]] *)
Definition monthrange_days (year month : Z) : res Z :=
  if ((1 <=? month) && (month <=? 12))%Z then
    Ok (nth (Z.to_nat month) mdays 0 + (if (month =? 2) && isleap year then 1 else 0))%Z
  else Raise ValueError.

(** [datetime(year, month, day)] *)
Definition datetime (year month day : Z) : res date :=
  if ((1 <=? year) && (year <=? 9999))%Z then
    (dim <- monthrange_days year month ;;
     if ((1 <=? day) && (day <=? dim))%Z then
       Ok {| year_of := year; month_of := month; day_of := day |}
     else Raise ValueError)%res
  else Raise ValueError.

Definition get_last_day_of_month (year month : Z) : res date :=
  (last_day <- monthrange_days year month ;;
   datetime year month last_day)%res.

(** [d + timedelta(days=1)] *)
Definition next_day (d : date) : res date :=
  (dim <- monthrange_days (year_of d) (month_of d) ;;
   if (day_of d <? dim)%Z then
     Ok {| year_of := year_of d; month_of := month_of d; day_of := day_of d + 1 |}
   else if (month_of d <? 12)%Z then
     Ok {| year_of := year_of d; month_of := month_of d + 1; day_of := 1 |}
   else if (year_of d <? 9999)%Z then
     Ok {| year_of := year_of d + 1; month_of := 1; day_of := 1 |}
   else Raise OverflowError)%res.

(** [d1 <= d2] *)
Definition date_leb (d1 d2 : date) : bool :=
  ((year_of d1 <? year_of d2) ||
   ((year_of d1 =? year_of d2) &&
    ((month_of d1 <? month_of d2) ||
     ((month_of d1 =? month_of d2) && (day_of d1 <=? day_of d2)))))%Z.

(** [range(start, stop)] *)
Definition py_range (start stop : Z) : list Z :=
  map (fun i => start + Z.of_nat i)%Z (seq 0 (Z.to_nat (stop - start))).

(** ** The orchestrator: [main] and the ledger [data/incomplete_dates.json]

    The date string of a record is kept as the [date] it prints. What
    [main] writes beside the ledger (snapshot files, the table, the
    summaries) is left out. *)

Record IncompleteRecord : Type := {
  r_date : date;
  r_year : Z;
  r_expected : json;
  r_collected : nat;
  r_last_attempt : string;
  r_previous_attempts : option nat
}.

(** The parsed command line. [arg_date] is a [--date] that [strptime]
    accepts. *)
Record Args : Type := {
  arg_start_year : option Z;
  arg_end_year : option Z;
  arg_start_month : option Z;
  arg_end_month : option Z;
  arg_date : option date;
  arg_retry_incomplete : bool;
  arg_all_days : bool
}.

(** [ledger_file] is [None] while the file does not exist; [calls] lists
    the units handed to [crawl_data], in order. *)
Record mstate : Type := {
  new_incomplete_dates : list IncompleteRecord;
  ledger_file : option (list IncompleteRecord);
  calls : list (Z * date)
}.

(** How [main] stops other than by reaching its end: [sys.exit], an
    exception nobody catches, or a crawl that never returns. *)
Inductive halt : Type :=
| Exit (code : Z)
| Uncaught (e : exn)
| Hang.

Definition R (A : Type) : Type := SM mstate halt A.

Definition raising {A : Type} (r : res A) : R A :=
  fun st =>
    match r with
    | Ok a => (inl a, st)
    | Raise e => (inr (Uncaught e), st)
    end.

Fixpoint for_each {S X A : Type} (l : list A) (body : A -> SM S X unit) : SM S X unit :=
  match l with
  | [] => ret tt
  | a :: rest => bind (body a) (fun _ => for_each rest body)
  end.

Definition load_incomplete_dates : R (list IncompleteRecord) :=
  get (fun st => match ledger_file st with Some l => l | None => [] end).

Definition save_incomplete_dates (incomplete_dates : list IncompleteRecord) : R unit :=
  fun st =>
    (inl tt,
     {| new_incomplete_dates := new_incomplete_dates st;
        ledger_file := Some incomplete_dates;
        calls := calls st |}).

Definition append_incomplete (r : IncompleteRecord) : R unit :=
  fun st =>
    (inl tt,
     {| new_incomplete_dates := new_incomplete_dates st ++ [r];
        ledger_file := ledger_file st;
        calls := calls st |}).

(** [args.x if args.x else default] *)
Definition or_default (o : option Z) (default : Z) : Z :=
  match o with
  | Some v => if (v =? 0)%Z then default else v
  | None => default
  end.

(** [f"{(len(data) / total_count * 100):.2f}%" if total_count else "N/A"] *)
Definition success_rate (collected : nat) (total : json) : res (option Q) :=
  if truthy total then (p <- percentage collected total ;; Ok (Some p))%res
  else Ok None.

Section Orchestrator.
Variable cfg : Config.
(** [crawl year d] is what [crawl_data(year, d, logger)] does: [None] when
    it never returns. *)
Variable crawl : Z -> date -> option outcome.
(** [now k]: the wall clock, read after [k] crawls. *)
Variable now : nat -> string.
Local Open Scope prog_scope.

Definition call_crawl (year : Z) (d : date) : R (list json * json * bool) :=
  fun st =>
    let st' :=
      {| new_incomplete_dates := new_incomplete_dates st;
         ledger_file := ledger_file st;
         calls := calls st ++ [(year, d)] |} in
    match crawl year d with
    | None => (inr Hang, st')
    | Some (Raised e) => (inr (Uncaught e), st')
    | Some (Returned data total is_complete) => (inl (data, total, is_complete), st')
    end.

Definition timestamp : R string :=
  get (fun st => now (List.length (calls st))).

(** One unit of the range scan, in either of its two loops. *)
Definition scan_unit (year : Z) (current_date : date) : R unit :=
  r <- call_crawl year current_date ;;
  let '(data, total_count, is_complete) := r in
  raising (success_rate (List.length data) total_count) ;;
  if negb is_complete && negb (is_none total_count) && (0 <? List.length data)%nat then
    t <- timestamp ;;
    append_incomplete
      {| r_date := current_date; r_year := year; r_expected := total_count;
         r_collected := List.length data; r_last_attempt := t;
         r_previous_attempts := None |}
  else ret tt.

(** [if args.date: try: ... finally: sys.exit(0)] *)
Definition specific_date_mode (specific_date : date) : R unit :=
  fun st =>
    let body :=
      (let year := year_of specific_date in
       r <- call_crawl year specific_date ;;
       let '(data, total_count, is_complete) := r in
       raising (success_rate (List.length data) total_count) ;;
       if negb is_complete then
         t <- timestamp ;;
         append_incomplete
           {| r_date := specific_date; r_year := year; r_expected := total_count;
              r_collected := List.length data; r_last_attempt := t;
              r_previous_attempts := None |}
       else ret tt) in
    match body st with
    | (inr Hang, st') => (inr Hang, st')
    | (_, st') => (inr (Exit 0), st')
    end.

Definition retry_item (item : IncompleteRecord) : R unit :=
  let specific_date := r_date item in
  let year := r_year item in
  r <- call_crawl year specific_date ;;
  let '(data, total_count, is_complete) := r in
  raising (success_rate (List.length data) total_count) ;;
  if negb is_complete then
    t <- timestamp ;;
    append_incomplete
      {| r_date := specific_date; r_year := year; r_expected := total_count;
         r_collected := List.length data; r_last_attempt := t;
         r_previous_attempts :=
           Some (match r_previous_attempts item with Some k => k | None => 0 end + 1)%nat |}
  else ret tt.

(** [if args.retry_incomplete: ...]; with an empty ledger the code falls
    through to the range scan. *)
Definition retry_mode (incomplete_dates : list IncompleteRecord) : R unit :=
  if nonempty incomplete_dates then
    for_each incomplete_dates retry_item ;;
    nid <- get new_incomplete_dates ;;
    save_incomplete_dates nid ;;
    leave (Exit 0)
  else ret tt.

(** [while current_date <= end_date:]; both dates lie in one year, and the
    fuel given by [scan_year] is never used up. *)
Fixpoint walk_days (fuel : nat) (year : Z) (current_date end_date : date) : R unit :=
  match fuel with
  | O => leave Hang
  | S fuel' =>
      if date_leb current_date end_date then
        scan_unit year current_date ;;
        next <- raising (next_day current_date) ;;
        walk_days fuel' year next end_date
      else ret tt
  end.

Definition scan_year (all_days : bool) (start_year end_year start_month end_month year : Z)
  : R unit :=
  let month_start := if (year =? start_year)%Z then start_month else 1%Z in
  let month_end := if (year =? end_year)%Z then end_month else 12%Z in
  if all_days then
    start_date <- raising (datetime year month_start 1) ;;
    last_day <- raising (monthrange_days year month_end) ;;
    end_date <- raising (datetime year month_end last_day) ;;
    walk_days 416 year start_date end_date
  else
    for_each (py_range month_start (month_end + 1))
      (fun month =>
         current_date <- raising (get_last_day_of_month year month) ;;
         scan_unit year current_date).

(** After the loop over the years the code reads [month_start], which is
    assigned in the loop only: with no year to scan this is an
    [UnboundLocalError]. *)
Definition main (args : Args) : R unit :=
  let start_year := or_default (arg_start_year args) (data_start_year cfg) in
  let end_year := or_default (arg_end_year args) (data_end_year cfg) in
  let start_month := or_default (arg_start_month args) 1 in
  let end_month := or_default (arg_end_month args) 12 in
  incomplete_dates <- load_incomplete_dates ;;
  (if has_api_key cfg then ret tt else leave (Uncaught ValueError)) ;;
  (match arg_date args with
   | Some specific_date => specific_date_mode specific_date
   | None => ret tt
   end) ;;
  (if arg_retry_incomplete args then retry_mode incomplete_dates else ret tt) ;;
  for_each (py_range start_year (end_year + 1))
    (scan_year (arg_all_days args) start_year end_year start_month end_month) ;;
  (if nonempty (py_range start_year (end_year + 1)) then ret tt
   else leave (Uncaught UnboundLocalError)) ;;
  nid <- get new_incomplete_dates ;;
  if nonempty nid then save_incomplete_dates nid else ret tt.

(** A run of the program on a given ledger file. *)
Definition run (args : Args) (ledger : option (list IncompleteRecord))
  : (unit + halt) * mstate :=
  main args {| new_incomplete_dates := []; ledger_file := ledger; calls := [] |}.

End Orchestrator.

(** The crawler as [main] sees it: [world year d] is the server's
    behaviour for the unit [(year, d)]. *)
Definition crawler (cfg : Config) (world : Z -> date -> server) (fuel : nat)
  : Z -> date -> option outcome :=
  fun year d =>
    match crawl_data cfg (world year d) fuel with
    | Some (o, _) => Some o
    | None => None
    end.

(** ** Vocabulary of the statements *)

(** The requests and the sleeps of a trace, in order. *)
Definition posts (tr : list event) : list nat :=
  flat_map (fun e => match e with Post p => [p] | _ => [] end) tr.

Definition sleeps (tr : list event) : list Z :=
  flat_map (fun e => match e with Sleep s => [s] | _ => [] end) tr.

(** [ceil(expected * 0.995)] *)
Definition threshold (expected : Z) : Z := ((995 * expected + 999) / 1000)%Z.

(** The expected total is unknown, or the collected count reaches the
    completion threshold. *)
Definition meets_threshold (collected : nat) (total : json) : Prop :=
  total = JNull \/
  exists expected, as_number total = Ok expected /\
                   (threshold expected <= Z.of_nat collected)%Z.

(** A value [total_count] can hold while the loop runs on: [None], or a
    number. *)
Definition count_ok (total : json) : Prop :=
  total = JNull \/ exists expected, as_number total = Ok expected.

(** The states in which the [while] loop starts an iteration. *)
Inductive at_loop_head (cfg : Config) (srv : server) : cstate -> Prop :=
| head_enter : forall rc n tr, at_loop_head cfg srv (enter rc n tr)
| head_next : forall st st',
    at_loop_head cfg srv st ->
    guarded_body cfg srv st = (inl tt, st') ->
    at_loop_head cfg srv st'
| head_continue : forall st st',
    at_loop_head cfg srv st ->
    guarded_body cfg srv st = (inr Continue, st') ->
    at_loop_head cfg srv st'.

(** [st] after some more log lines. *)
Definition logged (msgs : list log_msg) (st : cstate) : cstate :=
  {| all_data := all_data st; page := page st; total_count := total_count st;
     empty_response_count := empty_response_count st;
     retry_count := retry_count st; requests := requests st;
     trace := trace st ++ map Log msgs |}.

(** [st] after [posted] more requests and the events [evs]. *)
Definition advanced (posted : nat) (evs : list event) (st : cstate) : cstate :=
  {| all_data := all_data st; page := page st; total_count := total_count st;
     empty_response_count := empty_response_count st;
     retry_count := retry_count st; requests := posted + requests st;
     trace := trace st ++ evs |}.

(** The failures of the request for the current page that the loop answers
    with a retry: the request raises, the status is 500, the status is
    another one than 200 and 300, or the body does not parse. *)
Inductive retryable : fetched -> Prop :=
| transport_exception : retryable ConnectionFailed
| http_500 : forall r, status_code r = 500%Z -> retryable (Responded r)
| other_status : forall r,
    status_code r <> 200%Z -> status_code r <> 300%Z -> retryable (Responded r)
| parse_error : forall r,
    status_code r = 200%Z ->
    is_empty_text (strip (text r)) = false ->
    json_body r = None ->
    retryable (Responded r).

(** [total_count] after the page-1 scan of the [head] list: what
    [read_total] assigns, as a function. *)
Fixpoint scan_total (metadata : list json) (total : json) : res json :=
  match metadata with
  | [] => Ok total
  | meta_item :: rest =>
      (has <- py_in "list_total_count" meta_item ;;
       total' <- (if has : bool then py_getitem meta_item "list_total_count" else Ok total) ;;
       scan_total rest total')%res
  end.

Definition total_after (pg : nat) (response_json : json) (total : json) : res json :=
  if (pg =? 1)%nat then
    (payload <- py_getitem response_json "QWGJK" ;;
     first <- py_first payload ;;
     head <- py_get first "head" ;;
     if truthy head then
       (metadata <- py_getitem first "head" ;;
        items <- py_iter metadata ;;
        scan_total items total)
     else Ok total)%res
  else Ok total.

(** The log lines of the crawler branches that handle a page without
    rows. *)
Definition rowless_branch (m : log_msg) : bool :=
  match m with
  | NoDataInResponse _ | NearlyComplete | MultipleEmptyPages => true
  | _ => false
  end.

Definition never_rowless (tr : list event) : Prop :=
  forall m, In (Log m) tr -> rowless_branch m = false.

(** A Hoare triple for code with early exits: from a state in [P], the
    command falls through into [Q], or leaves with [x] into [E x]. *)
Definition triple {S X A : Type} (P : S -> Prop) (m : SM S X A)
  (Q : A -> S -> Prop) (E : X -> S -> Prop) : Prop :=
  forall st, P st ->
    match m st with
    | (inl a, st') => Q a st'
    | (inr x, st') => E x st'
    end.

(** ** Sample inputs *)

(** The defaults of [config.py], with an API key. *)
Definition default_config : Config :=
  {| api_key := Some "key";
     api_max_records_per_request := 1000;
     api_max_retries := 3;
     api_retry_delay := 5;
     data_start_year := 2016;
     data_end_year := 2024 |}.

(** A page size of two rows, to keep sample pages short. *)
Definition small_pages : Config :=
  {| api_key := Some "key";
     api_max_records_per_request := 2;
     api_max_retries := 3;
     api_retry_delay := 5;
     data_start_year := 2016;
     data_end_year := 2024 |}.

Definition quote : string := String "034"%char EmptyString.

Definition ok_response (body : string) (parsed : option json) : fetched :=
  Responded {| status_code := 200; text := body; json_body := parsed |}.

Definition status_only (code : Z) : fetched :=
  Responded {| status_code := code; text := EmptyString; json_body := None |}.

(** A body with rows, with its [head] element,
    [{QWGJK: [{head: [{list_total_count: total}]}, {row: rows}]}], or
    without it. Of the text of such a body the crawler only tests that it
    is not ["{}"] and has five characters at least: the sample texts are
    abridged. *)
Definition page_with_total (total : json) (rows : json) : fetched :=
  ok_response "{...rows...}"
    (Some (JDict [("QWGJK",
                   JList [JDict [("head", JList [JDict [("list_total_count", total)]])];
                          JDict [("row", rows)]])])).

Definition page_of (rows : list json) : fetched :=
  ok_response "{...rows...}" (Some (JDict [("QWGJK", JList [JDict [("row", JList rows)]])])).

Definition row (n : Z) : json := JDict [("cpl_amt", JNum n)].

(** The server cannot be reached. *)
Definition unreachable : server := fun _ _ => ConnectionFailed.

(** Every page is [{"QWGJK": []}]: the payload key without any row. *)
Definition only_empty_structure : server :=
  fun _ _ =>
    ok_response ("{" ++ quote ++ "QWGJK" ++ quote ++ ": []}")
      (Some (JDict [("QWGJK", JList [])])).

(** Three rows announced; two on page 1, one on page 2, then [{}]. *)
Definition three_rows : server :=
  fun _ p =>
    match p with
    | 1 => page_with_total (JNum 3) (JList [row 1; row 2])
    | 2 => page_of [row 3]
    | _ => ok_response "{}" (Some (JDict []))
    end.

(** Two rows announced, but a third page turns up after them. *)
Definition more_than_announced : server :=
  fun _ p =>
    match p with
    | 1 => page_with_total (JNum 2) (JList [row 1; row 2])
    | 2 => page_of [row 3]
    | _ => ok_response "{}" (Some (JDict []))
    end.

(** Page 1 announces a total of zero next to one row. *)
Definition zero_total : server :=
  fun _ p =>
    match p with
    | 1 => page_with_total (JNum 0) (JList [row 1])
    | _ => ok_response "{}" (Some (JDict []))
    end.

(** Page 1 announces 100 rows and carries one; the next page is [{}]. *)
Definition one_of_hundred : server :=
  fun _ p =>
    match p with
    | 1 => page_with_total (JNum 100) (JList [row 1])
    | _ => ok_response "{}" (Some (JDict []))
    end.

(** Page 1 announces 100 rows, and its ['row'] is the number 5. *)
Definition rows_not_a_list : server :=
  fun _ _ => page_with_total (JNum 100) (JNum 5).

(** Two full pages, then the connection fails for good. *)
Definition fails_on_page_2 : server :=
  fun _ p =>
    match p with
    | 1 => page_of [row 1; row 2]
    | _ => ConnectionFailed
    end.

(** Two full pages, then status 300. *)
Definition status_300_on_page_2 : server :=
  fun _ p =>
    match p with
    | 1 => page_of [row 1; row 2]
    | _ => status_only 300
    end.

(** The loop head reached after the first page of a sample server. *)
Definition after_first_page (srv : server) : cstate :=
  snd (guarded_body small_pages srv (enter 0 0 [])).

(** [st] with another [total_count]. *)
Definition with_total (t : json) (st : cstate) : cstate :=
  {| all_data := all_data st; page := page st; total_count := t;
     empty_response_count := empty_response_count st;
     retry_count := retry_count st; requests := requests st;
     trace := trace st |}.

(** The answer [r] to the request for the current page of [st] is a page
    with rows: it parses to [j], which is not empty and has the payload
    key; [total] is the total known after it and [rows] are its rows. *)
Definition valid_page (st : cstate) (r : response) (j : json)
  (total : json) (rows : list json) : Prop :=
  status_code r = 200%Z /\
  is_empty_text (strip (text r)) = false /\
  json_body r = Some j /\
  is_empty_response j = Ok false /\
  py_in "QWGJK" j = Ok true /\
  total_after (page st) j (total_count st) = Ok total /\
  row_data_of j = Ok rows.

(** What the request for the next page says about the end of the data. *)
Definition answers_empty (f : fetched) : Prop :=
  exists r,
    f = Responded r /\ status_code r = 200%Z /\
    (is_empty_text (strip (text r)) = true \/
     (is_empty_text (strip (text r)) = false /\
      exists j, json_body r = Some j /\ is_empty_response j = Ok true)).

Definition answers_more (f : fetched) : Prop :=
  exists r j,
    f = Responded r /\ status_code r = 200%Z /\
    is_empty_text (strip (text r)) = false /\
    json_body r = Some j /\ is_empty_response j = Ok false.

(** ** Vocabulary for the ledger *)

(** A crawl that always returns, with a total that is [None] or a number
    (as [crawl_data] does whenever it returns). *)
Definition returns_always (crawl : Z -> date -> option outcome) : Prop :=
  forall year d, exists data total is_complete,
    crawl year d = Some (Returned data total is_complete) /\ count_ok total.

(** [r] is what the range scan records for a unit: the crawl of its date
    was incomplete, with a known total and at least one row. *)
Definition recorded_by_scan (crawl : Z -> date -> option outcome)
  (r : IncompleteRecord) : Prop :=
  exists data total,
    crawl (r_year r) (r_date r) = Some (Returned data total false) /\
    total <> JNull /\ r_expected r = total /\
    r_collected r = List.length data /\ (0 < r_collected r)%nat /\
    r_previous_attempts r = None.

(** The ledger the retry mode writes for the records [items], the first
    of which is retried after [k] crawls: one record per item whose crawl
    is still incomplete. *)
Fixpoint retry_ledger (crawl : Z -> date -> option outcome) (now : nat -> string)
  (k : nat) (items : list IncompleteRecord) : list IncompleteRecord :=
  match items with
  | [] => []
  | item :: rest =>
      match crawl (r_year item) (r_date item) with
      | Some (Returned data total false) =>
          [{| r_date := r_date item; r_year := r_year item; r_expected := total;
              r_collected := List.length data; r_last_attempt := now (S k);
              r_previous_attempts :=
                Some (match r_previous_attempts item with Some n => n | None => 0 end + 1)%nat
           |}]
      | _ => []
      end ++ retry_ledger crawl now (S k) rest
  end.

Definition month_end (year month day : Z) : Z * date :=
  (year, {| year_of := year; month_of := month; day_of := day |}).

(** The month ends of 2023. *)
Definition month_ends_2023 : list (Z * date) :=
  [month_end 2023 1 31; month_end 2023 2 28; month_end 2023 3 31;
   month_end 2023 4 30; month_end 2023 5 31; month_end 2023 6 30;
   month_end 2023 7 31; month_end 2023 8 31; month_end 2023 9 30;
   month_end 2023 10 31; month_end 2023 11 30; month_end 2023 12 31]%Z.

(** [--start-year 2023 --end-year 2023], nothing else. *)
Definition year_2023 : Args :=
  {| arg_start_year := Some 2023%Z; arg_end_year := Some 2023%Z;
     arg_start_month := None; arg_end_month := None;
     arg_date := None; arg_retry_incomplete := false; arg_all_days := false |}.

(** [--retry-incomplete], nothing else. *)
Definition retry_only : Args :=
  {| arg_start_year := None; arg_end_year := None;
     arg_start_month := None; arg_end_month := None;
     arg_date := None; arg_retry_incomplete := true; arg_all_days := false |}.

(** A ledger with one record, for the end of January 2023. *)
Definition january_2023 : IncompleteRecord :=
  {| r_date := {| year_of := 2023; month_of := 1; day_of := 31 |};
     r_year := 2023; r_expected := JNum 100; r_collected := 40;
     r_last_attempt := "2023-02-01 03:00:00"; r_previous_attempts := None |}.

(** A crawl that collects every unit in full: no total announced. *)
Definition collects_all : Z -> date -> option outcome :=
  fun _ _ => Some (Returned [row 1] JNull true).

Definition clock : nat -> string := fun _ => "2023-03-01 03:00:00".

(** ** Invariants of the proofs *)

(** The rank of a date in its year, with room for 32 days a month. *)
Definition rank (d : date) : Z := (32 * month_of d + day_of d)%Z.

(** Enough fuel to walk from [c] to [e]. *)
Definition fuel_for (fuel : nat) (c e : date) : Prop :=
  (year_of e <= year_of c)%Z /\ (1 <= day_of c <= 31)%Z /\ (1 <= Z.of_nat fuel)%Z /\
  (year_of c = year_of e -> rank e - rank c + 2 <= Z.of_nat fuel)%Z.


(** A command that never logs one of the rowless branches. *)
Definition quiet {A : Type} (m : M A) : Prop :=
  triple (fun st => never_rowless (trace st)) m
    (fun _ st => never_rowless (trace st)) (fun _ st => never_rowless (trace st)).


(** [holds I E m]: [m] keeps the invariant [I] when it falls through, and
    leaves into [E]. *)
Definition holds {A : Type} (I : cstate -> Prop) (E : signal -> cstate -> Prop)
  (m : M A) : Prop :=
  triple I m (fun _ => I) E.


(** The exits that lead to another iteration must find a settled total. *)
Definition settled_on_continue (x : signal) (st : cstate) : Prop :=
  x = Continue -> count_ok (total_count st).


(** Code that does not assign [total_count]. *)
Definition frames {A : Type} (m : M A) : Prop :=
  forall t, count_ok t -> holds (fun st => total_count st = t) settled_on_continue m.


(** Commands that keep an invariant, however they end. *)
Definition keeps {S X A : Type} (I : S -> Prop) (m : SM S X A) : Prop :=
  triple I m (fun _ => I) (fun _ => I).


(** The invariant of the range scan: the ledger file is untouched and
    every record appended so far passed the guard of the scan. *)
Definition scan_inv (crawl : Z -> date -> option outcome)
  (ledger : option (list IncompleteRecord)) (st : mstate) : Prop :=
  ledger_file st = ledger /\
  Forall (recorded_by_scan crawl) (new_incomplete_dates st).


(** The run is a range scan: no [--date], and [--retry-incomplete] absent
    or given with an empty ledger. *)
Definition range_run (args : Args) (ledger : option (list IncompleteRecord)) : Prop :=
  arg_date args = None /\
  (arg_retry_incomplete args = false \/ ledger = None \/ ledger = Some []).

From Stdlib Require Import DecimalString.

(** ** Vocabulary of the further properties of the crawler *)

(** The answer is a 200 whose text, stripped, is ["{}"] or shorter than
    five characters. *)
Definition answers_empty_text (f : fetched) : Prop :=
  exists r,
    f = Responded r /\ status_code r = 200%Z /\
    is_empty_text (strip (text r)) = true.

(** The answer is a 200 with a text that is not empty and a body that
    parses to a value [is_empty_response] calls empty. *)
Definition answers_empty_structure (f : fetched) : Prop :=
  exists r j,
    f = Responded r /\ status_code r = 200%Z /\
    is_empty_text (strip (text r)) = false /\
    json_body r = Some j /\ is_empty_response j = Ok true.

(** The answer is a 200 that parses to a JSON object with at least one
    member and without the payload key: an error message of the API, for
    one. *)
Definition answers_other_object (f : fetched) : Prop :=
  exists r k v members,
    f = Responded r /\ status_code r = 200%Z /\
    is_empty_text (strip (text r)) = false /\
    json_body r = Some (JDict ((k, v) :: members)) /\
    lookup "QWGJK" ((k, v) :: members) = None.

Definition is_retrying (e : event) : bool :=
  match e with
  | Log (Retrying _) => true
  | _ => false
  end.

(** The restarts of the unit that a trace records: one line
    "Retrying in ... seconds" each. *)
Definition restarts (tr : list event) : nat := List.length (filter is_retrying tr).

(** The events of an iteration that does not restart the unit: no
    "Retrying" line, and no sleep but the one second between two pages. *)
Definition calm (e : event) : Prop :=
  match e with
  | Log (Retrying _) => False
  | Sleep s => s = 1%Z
  | _ => True
  end.

(** [st'] is [st] after events that are all calm; [retry_count] is the
    same. *)
Definition calmly (st st' : cstate) : Prop :=
  retry_count st' = retry_count st /\
  exists evs, trace st' = trace st ++ evs /\ Forall calm evs.

(** [st'] is [st] after calm events and then the two events of a restart:
    the "Retrying" line and the sleep of [api_retry_delay]. *)
Definition restarting (cfg : Config) (st st' : cstate) : Prop :=
  retry_count st' = retry_count st /\
  (Z.of_nat (retry_count st) < api_max_retries cfg)%Z /\
  exists evs,
    trace st' =
    trace st ++ evs ++ [Log (Retrying (retry_count st + 1)); Sleep (api_retry_delay cfg)] /\
    Forall calm evs.

(** A command whose effects are calm, unless it leaves with [Retry]. *)
Definition shaped {A : Type} (cfg : Config) (m : M A) : Prop :=
  forall st,
    match m st with
    | (inr Retry, st') => restarting cfg st st'
    | (_, st') => calmly st st'
    end.

(** A trace in which every "Retrying" line is followed at once by the
    sleep of [api_retry_delay], and every other sleep lasts one second. *)
Inductive paced (cfg : Config) : list event -> Prop :=
| paced_nil : paced cfg []
| paced_calm : forall e tr, calm e -> paced cfg tr -> paced cfg (e :: tr)
| paced_restart : forall k tr,
    paced cfg tr ->
    paced cfg (Log (Retrying k) :: Sleep (api_retry_delay cfg) :: tr).

(** What holds of the trace and of [retry_count] at every head of the
    loop of a crawl. *)
Definition restart_inv (cfg : Config) (st : cstate) : Prop :=
  paced cfg (trace st) /\
  restarts (trace st) = retry_count st /\
  (Z.of_nat (retry_count st) <= Z.max 0 (api_max_retries cfg))%Z.

(** ** A server that holds a list of rows *)

(** The rows of page [p] (from 1) when [rows] are served [size] a page. *)
Definition page_rows (size : nat) (rows : list json) (p : nat) : list json :=
  firstn size (skipn ((p - 1) * size) rows).

(** The server answers the request for a page with the rows of that page,
    next to a total when it announces one, and with ["{}"] for a page
    after the last row. *)
Definition paged (announced : option Z) (size : nat) (rows : list json) : server :=
  fun _ p =>
    match page_rows size rows p with
    | [] => ok_response "{}" (Some (JDict []))
    | chunk =>
        match announced with
        | Some total => page_with_total (JNum total) (JList chunk)
        | None => page_of chunk
        end
    end.

(** The total that a crawl of such a server knows before page [q + 1]. *)
Definition known_total (announced : option Z) (q : nat) : json :=
  match announced, q with
  | Some total, S _ => JNum total
  | _, _ => JNull
  end.

(** The rows collected fall short of the total, or no total is known. *)
Definition not_reached (total : json) (collected : nat) : Prop :=
  total = JNull \/
  exists expected, as_number total = Ok expected /\ (Z.of_nat collected < expected)%Z.

(** The state at the head of the loop when the first [q] pages have been
    collected from a server that holds [rows], and page [q + 1] is next. *)
Definition collected_to (size : nat) (rows : list json) (total : json) (q : nat)
  (st : cstate) : Prop :=
  page st = S q /\
  all_data st = firstn (q * size) rows /\
  total_count st = total /\
  empty_response_count st = 0%nat.

(** ** Further sample inputs *)

(** Every page is ["{}"]. *)
Definition always_empty_text : server := fun _ _ => ok_response "{}" (Some (JDict [])).

(** A full page, then the payload key without a row. *)
Definition rows_then_empty_structure : server :=
  fun _ p =>
    match p with
    | 1 => page_of [row 1; row 2]
    | _ => ok_response ("{" ++ quote ++ "QWGJK" ++ quote ++ ": []}")
             (Some (JDict [("QWGJK", JList [])]))
    end.

(** A full page, then an error message of the API in place of a page:
    [{RESULT: {CODE: INFO-200}}]. *)
Definition rows_then_message : server :=
  fun _ p =>
    match p with
    | 1 => page_of [row 1; row 2]
    | _ => ok_response "{...message...}"
             (Some (JDict [("RESULT", JDict [("CODE", JStr "INFO-200")])]))
    end.

(** Page 1 announces two rows and carries them; the next page answers
    with status 500. *)
Definition total_then_500 : server :=
  fun _ p =>
    match p with
    | 1 => page_with_total (JNum 2) (JList [row 1; row 2])
    | _ => status_only 500
    end.

(** The configuration of [config.py] when [APIKEY] is not set. *)
Definition no_key_config : Config :=
  {| api_key := None;
     api_max_records_per_request := 1000;
     api_max_retries := 3;
     api_retry_delay := 5;
     data_start_year := 2016;
     data_end_year := 2024 |}.

(** Page 1 announces its total as a string, ["2"], next to two rows. *)
Definition total_as_string : server :=
  fun _ _ => page_with_total (JStr "2") (JList [row 1; row 2]).

(** Three rows announced; page 1 carries one row of a page size of two,
    the next page is ["{}"]. *)
Definition short_first_page : server :=
  fun _ p =>
    match p with
    | 1 => page_with_total (JNum 3) (JList [row 1])
    | _ => ok_response "{}" (Some (JDict []))
    end.

(** ** Vocabulary of the further properties of the orchestrator *)

Definition is_dict (v : json) : bool :=
  match v with
  | JDict _ => true
  | _ => false
  end.

(** An element of the payload that brings no row: an object without the
    member ['row'], or with a falsy one. *)
Definition rowless (item : json) : bool :=
  match item with
  | JDict members =>
      match lookup "row" members with
      | Some v => negb (truthy v)
      | None => true
      end
  | _ => true
  end.

(** The days of a month, in order; none for a month that does not exist. *)
Definition days_of_month (year month : Z) : list date :=
  match monthrange_days year month with
  | Ok dim =>
      map (fun d => {| year_of := year; month_of := month; day_of := d |})
        (py_range 1 (dim + 1))
  | Raise _ => []
  end.

(** The last day of a month. *)
Definition end_of_month (year month : Z) : list date :=
  match monthrange_days year month with
  | Ok dim => [{| year_of := year; month_of := month; day_of := dim |}]
  | Raise _ => []
  end.

(** The units of one year of a range scan from [start_month] of
    [start_year] to [end_month] of [end_year]: every day, or the last day,
    of each month of the year that lies in the range. *)
Definition year_units (all_days : bool) (start_year end_year start_month end_month year : Z)
  : list (Z * date) :=
  let month_start := if (year =? start_year)%Z then start_month else 1%Z in
  let month_end := if (year =? end_year)%Z then end_month else 12%Z in
  flat_map
    (fun month =>
       map (pair year)
         (if all_days then days_of_month year month else end_of_month year month))
    (py_range month_start (month_end + 1)).

(** The arguments of a range scan. *)
Definition range_args (all_days : bool) (start_year end_year start_month end_month : Z)
  : Args :=
  {| arg_start_year := Some start_year; arg_end_year := Some end_year;
     arg_start_month := Some start_month; arg_end_month := Some end_month;
     arg_date := None; arg_retry_incomplete := false; arg_all_days := all_days |}.

(** The record says that a known total was missed: its expected total is
    a number and the rows collected are fewer than 99.5% of it. *)
Definition unmet (r : IncompleteRecord) : Prop :=
  exists expected,
    as_number (r_expected r) = Ok expected /\
    (1000 * Z.of_nat (r_collected r) < 995 * expected)%Z.

(** The last column of a line of the count log:
    ["SUCCESS" if is_complete else "INCOMPLETE" if total_count else "NO DATA"]. *)
Definition status_of (is_complete : bool) (total_count : json) : string :=
  if is_complete then "SUCCESS"
  else if truthy total_count then "INCOMPLETE"
  else "NO DATA".

(** [args] with a start year after its end year. *)
Definition backwards : Args :=
  {| arg_start_year := Some 2024%Z; arg_end_year := Some 2023%Z;
     arg_start_month := None; arg_end_month := None;
     arg_date := None; arg_retry_incomplete := false; arg_all_days := false |}.

(** [--date 2023-01-31], next to arguments of the other modes. *)
Definition one_date : Args :=
  {| arg_start_year := Some 2020%Z; arg_end_year := Some 2021%Z;
     arg_start_month := None; arg_end_month := None;
     arg_date := Some {| year_of := 2023; month_of := 1; day_of := 31 |};
     arg_retry_incomplete := true; arg_all_days := true |}.

(** [args] without [--retry-incomplete]. *)
Definition without_retry (args : Args) : Args :=
  {| arg_start_year := arg_start_year args; arg_end_year := arg_end_year args;
     arg_start_month := arg_start_month args; arg_end_month := arg_end_month args;
     arg_date := arg_date args; arg_retry_incomplete := false;
     arg_all_days := arg_all_days args |}.

(** A crawl that raises. *)
Definition always_raises : Z -> date -> option outcome :=
  fun _ _ => Some (Raised TypeError).

(** ** The names of the files of a range scan *)

(** [str(n)] for an [int]. *)
Definition str (n : Z) : string := NilZero.string_of_int (Z.to_int n).

(** [f"{n:02d}"] *)
Definition two_digits (n : Z) : string :=
  if ((0 <=? n) && (n <? 10))%Z then ("0" ++ str n)%string else str n.

(** [month_start] and [month_end] in the iteration of the loop over the
    years for [year]. *)
Definition month_start_of (year start_year start_month : Z) : Z :=
  if (year =? start_year)%Z then start_month else 1%Z.

Definition month_end_of (year end_year end_month : Z) : Z :=
  if (year =? end_year)%Z then end_month else 12%Z.

(** The name handed to [save_to_pickle] for the rows of a year; [None]
    when none of the branches assigns [yearly_filename]. *)
Definition yearly_name (year start_year end_year start_month end_month : Z)
  : option string :=
  let month_start := month_start_of year start_year start_month in
  let month_end := month_end_of year end_year end_month in
  if ((year =? start_year) && (1 <? month_start) ||
      (year =? end_year) && (month_end <? 12))%Z
  then
    if ((year =? start_year) && (year =? end_year) &&
        (1 <? month_start) && (month_end <? 12))%Z
    then Some ("yearly_" ++ str year ++ "_" ++ two_digits month_start ++ "-" ++
               two_digits month_end)%string
    else if ((year =? start_year) && (1 <? month_start))%Z
    then Some ("yearly_" ++ str year ++ "_" ++ two_digits month_start ++ "-12")%string
    else if ((year =? end_year) && (month_end <? 12))%Z
    then Some ("yearly_" ++ str year ++ "_01-" ++ two_digits month_end)%string
    else None
  else Some ("yearly_" ++ str year)%string.

(** [summary_filename] of a year. *)
Definition summary_name (year start_year end_year start_month end_month : Z) : string :=
  let month_start := month_start_of year start_year start_month in
  let month_end := month_end_of year end_year end_month in
  if ((year =? start_year) && (year =? end_year) &&
      ((1 <? month_start) || (month_end <? 12)))%Z
  then ("data/collection_summary_" ++ str year ++ "_" ++ two_digits month_start ++ "-" ++
        two_digits month_end ++ ".json")%string
  else if ((year =? start_year) && (1 <? month_start))%Z
  then ("data/collection_summary_" ++ str year ++ "_" ++ two_digits month_start ++
        "-12.json")%string
  else if ((year =? end_year) && (month_end <? 12))%Z
  then ("data/collection_summary_" ++ str year ++ "_01-" ++ two_digits month_end ++
        ".json")%string
  else ("data/collection_summary_" ++ str year ++ ".json")%string.

(** [collection_range], from the variables as they are after the loop. *)
Definition collection_range (start_year end_year month_start month_end : Z) : string :=
  if (start_year =? end_year)%Z then
    if ((month_start =? 1) && (month_end =? 12))%Z then str start_year
    else (str start_year ++ "_" ++ two_digits month_start ++ "-" ++
          two_digits month_end)%string
  else
    if ((month_start =? 1) && (month_end =? 12))%Z
    then (str start_year ++ "-" ++ str end_year)%string
    else (str start_year ++ "_" ++ two_digits month_start ++ "-" ++ str end_year ++ "_" ++
          two_digits month_end)%string.

(** The name of the overall summary. After the loop [month_start] and
    [month_end] are those of the last year scanned, [end_year]; without a
    year scanned they are not bound. *)
Definition overall_summary_name (start_year end_year start_month end_month : Z)
  : res string :=
  if (start_year <=? end_year)%Z then
    Ok ("data/collection_summary_" ++
        collection_range start_year end_year
          (month_start_of end_year start_year start_month)
          (month_end_of end_year end_year end_month) ++
        ".json")%string
  else Raise UnboundLocalError.

(** The part of a name that tells the months scanned in a year: nothing
    for a whole year. *)
Definition months_suffix (month_start month_end : Z) : string :=
  if ((month_start =? 1) && (month_end =? 12))%Z then EmptyString
  else ("_" ++ two_digits month_start ++ "-" ++ two_digits month_end)%string.

(** ** Arithmetic of the completion test *)

Lemma Qle_bool_995 (t c : Z) :
  Qle_bool (inject_Z t * (995 # 1000)) (inject_Z c) = (995 * t <=? 1000 * c)%Z.
Proof.
  unfold Qle_bool, inject_Z, Qmult; cbn [Qnum Qden].
  apply eq_true_iff_eq. rewrite !Z.leb_le. lia.
Qed.

Lemma Qlt_bool_percent (c t : Z) :
  (0 < t)%Z ->
  Qlt_bool (inject_Z c / inject_Z t * 100) (995 # 10) = (1000 * c <? 995 * t)%Z.
Proof.
  intros Ht. destruct t as [|p|p]; try lia.
  unfold Qlt_bool, Qle_bool, inject_Z, Qdiv, Qmult, Qinv; cbn [Qnum Qden].
  apply eq_true_iff_eq. rewrite negb_true_iff, Z.leb_gt, Z.ltb_lt. lia.
Qed.

Lemma threshold_le (t c : Z) :
  (threshold t <= c)%Z <-> (995 * t <= 1000 * c)%Z.
Proof.
  unfold threshold.
  pose proof (Z.div_mod (995 * t + 999) 1000 ltac:(lia)) as Hd.
  pose proof (Z.mod_pos_bound (995 * t + 999) 1000 ltac:(lia)) as Hm.
  lia.
Qed.

(** ** The code after the loop *)

Lemma final_flag_number (n : nat) (total : json) (z : Z) :
  as_number total = Ok z ->
  final_flag n total = Ok (995 * z <=? 1000 * Z.of_nat n)%Z.
Proof.
  intros Hz. unfold final_flag.
  destruct (truthy total) eqn:Ht; cbn [negb].
  - rewrite Hz. cbn [rbind]. now rewrite Qle_bool_995.
  - assert (z = 0%Z) as ->.
    { destruct total as [|b|k| | |]; try discriminate; cbn in Hz, Ht; inversion Hz.
      - now destruct b.
      - apply negb_false_iff, Z.eqb_eq in Ht. congruence. }
    f_equal. symmetry. apply Z.leb_le. lia.
Qed.

Lemma percentage_number (n : nat) (total : json) (z : Z) :
  as_number total = Ok z -> z <> 0%Z ->
  percentage n total = Ok (inject_Z (Z.of_nat n) / inject_Z z * 100)%Q.
Proof.
  intros Hz Hnz. unfold percentage. rewrite Hz. cbn [rbind].
  apply Z.eqb_neq in Hnz. now rewrite Hnz.
Qed.

Lemma is_none_number (total : json) (z : Z) :
  as_number total = Ok z -> is_none total = false.
Proof. destruct total; cbn; congruence. Qed.

Lemma logged_nil (st : cstate) : logged [] st = st.
Proof. destruct st; unfold logged; cbn. now rewrite app_nil_r. Qed.

Section Finish.
Variable cfg : Config.

Lemma finish_none (st : cstate) :
  total_count st = JNull ->
  finish cfg st = (Returned (all_data st) JNull true, st).
Proof.
  intros H. unfold finish, after_loop, bind, get, ret, lift.
  rewrite H. reflexivity.
Qed.

Lemma finish_number (st : cstate) (z : Z) :
  as_number (total_count st) = Ok z ->
  exists msgs,
    finish cfg st =
    (Returned (all_data st) (total_count st)
       (995 * z <=? 1000 * Z.of_nat (List.length (all_data st)))%Z,
     logged msgs st).
Proof.
  intros Hz. unfold finish, after_loop, bind, get, ret, lift.
  rewrite (is_none_number _ _ Hz), Hz.
  rewrite (final_flag_number _ _ _ Hz).
  destruct (Z.of_nat (List.length (all_data st)) <? z)%Z eqn:Hb.
  - apply Z.ltb_lt in Hb.
    rewrite (percentage_number _ _ _ Hz) by lia.
    rewrite Qlt_bool_percent by lia.
    unfold log, emit.
    destruct (1000 * Z.of_nat (List.length (all_data st)) <? 995 * z)%Z eqn:Hc;
      cbn [andb].
    + destruct (Z.of_nat (retry_count st) <? api_max_retries cfg)%Z.
      * exists [IncompleteCollection; WillRetryLater].
        apply Z.ltb_lt in Hc.
        replace (995 * z <=? 1000 * Z.of_nat (List.length (all_data st)))%Z with false
          by (symmetry; apply Z.leb_gt; lia).
        unfold logged; cbn. now rewrite <- app_assoc.
      * exists [IncompleteCollection]. reflexivity.
    + exists [IncompleteCollection]. reflexivity.
  - exists []. now rewrite logged_nil.
Qed.

Lemma finish_raises (st : cstate) (e : exn) :
  total_count st <> JNull ->
  as_number (total_count st) = Raise e ->
  finish cfg st = (Raised e, st).
Proof.
  intros Hn Hz. unfold finish, after_loop, bind, get, ret, lift.
  destruct (total_count st) eqn:Ht; try congruence; cbn in *; try discriminate;
    inversion Hz; reflexivity.
Qed.

(** Leaving the loop with a total that is [None] or a number returns the
    accumulated rows; only log lines are added. *)
Lemma finish_returns (st : cstate) :
  count_ok (total_count st) ->
  exists flag msgs,
    finish cfg st = (Returned (all_data st) (total_count st) flag, logged msgs st).
Proof.
  intros [Hn | [z Hz]].
  - exists true, []. rewrite logged_nil, (finish_none st Hn). now rewrite Hn.
  - destruct (finish_number st z Hz) as [msgs H]. eauto.
Qed.

End Finish.

(** ** Traces *)

Lemma posts_app (a b : list event) : posts (a ++ b) = posts a ++ posts b.
Proof. apply flat_map_app. Qed.

Lemma sleeps_app (a b : list event) : sleeps (a ++ b) = sleeps a ++ sleeps b.
Proof. apply flat_map_app. Qed.

Lemma posts_logs (msgs : list log_msg) : posts (map Log msgs) = [].
Proof. induction msgs; cbn; auto. Qed.

Lemma sleeps_logs (msgs : list log_msg) : sleeps (map Log msgs) = [].
Proof. induction msgs; cbn; auto. Qed.

Lemma posts_logged (msgs : list log_msg) (st : cstate) :
  posts (trace (logged msgs st)) = posts (trace st).
Proof. cbn. now rewrite posts_app, posts_logs, app_nil_r. Qed.

Lemma sleeps_logged (msgs : list log_msg) (st : cstate) :
  sleeps (trace (logged msgs st)) = sleeps (trace st).
Proof. cbn. now rewrite sleeps_app, sleeps_logs, app_nil_r. Qed.

(** ** One iteration of the loop, case by case *)

Ltac with_key :=
  unfold get_request_params;
  match goal with
  | H : has_api_key _ = true |- _ => rewrite ?H
  end.

Ltac run_body :=
  unfold guarded_body, loop_body, retry_or_break, incr_empty_response_count;
  with_key;
  unfold sleep;
  repeat match goal with
         | H : (?d <? 0)%Z = false |- context [(?d <? 0)%Z] => rewrite H
         end;
  unfold bind, get, log, emit, post, leave, ret, lift,
    set_page, set_empty_response_count, set_all_data; cbn.

Section Body.
Variable cfg : Config.
Variable srv : server.
Hypothesis Hkey : has_api_key cfg = true.

(** Status 300: [break], at once. *)
Lemma body_status_300 (st : cstate) (r : response) :
  srv (requests st) (page st) = Responded r ->
  status_code r = 300%Z ->
  guarded_body cfg srv st =
  (inr Break,
   advanced 1 [Log (CompleteUrl (page st)); Post (page st); Log RequiredValuesMissing] st).
Proof.
  intros Hsrv Hcode. run_body. rewrite Hsrv. cbn. rewrite Hcode. cbn.
  unfold advanced. now rewrite <- !app_assoc.
Qed.

(** A retryable failure: [return crawl_data(.., retry_count + 1)] after a
    sleep while retries remain, [break] otherwise. *)
Lemma body_retryable (st : cstate) :
  (0 <= api_retry_delay cfg)%Z ->
  retryable (srv (requests st) (page st)) ->
  exists st',
    guarded_body cfg srv st =
    (inr (if (Z.of_nat (retry_count st) <? api_max_retries cfg)%Z then Retry else Break),
     st') /\
    all_data st' = all_data st /\ page st' = page st /\
    total_count st' = total_count st /\ retry_count st' = retry_count st /\
    requests st' = S (requests st) /\
    posts (trace st') = posts (trace st) ++ [page st] /\
    sleeps (trace st') =
    sleeps (trace st) ++
    (if (Z.of_nat (retry_count st) <? api_max_retries cfg)%Z
     then [api_retry_delay cfg] else []).
Proof.
  intros Hdelay Hf. apply Z.ltb_ge in Hdelay.
  inversion Hf as [Hs | r Hc Hs | r Hc2 Hc3 Hs | r Hc Ht Hj Hs];
    symmetry in Hs; run_body; rewrite Hs; cbn.
  - destruct (Z.of_nat (retry_count st) <? api_max_retries cfg)%Z; cbn;
      eexists; (split; [reflexivity |]); cbn;
      rewrite ?posts_app, ?sleeps_app; cbn; rewrite ?app_nil_r; auto 10.
  - rewrite Hc. cbn.
    destruct (Z.of_nat (retry_count st) <? api_max_retries cfg)%Z; cbn;
      eexists; (split; [reflexivity |]); cbn;
      rewrite ?posts_app, ?sleeps_app; cbn; rewrite ?app_nil_r; auto 10.
  - apply Z.eqb_neq in Hc2, Hc3. rewrite Hc2, Hc3. cbn.
    destruct (status_code r =? 500)%Z; cbn;
      destruct (Z.of_nat (retry_count st) <? api_max_retries cfg)%Z; cbn;
      eexists; (split; [reflexivity |]); cbn;
      rewrite ?posts_app, ?sleeps_app; cbn; rewrite ?app_nil_r; auto 10.
  - rewrite Hc. cbn. rewrite Ht. cbn. rewrite Hj. cbn.
    destruct (Z.of_nat (retry_count st) <? api_max_retries cfg)%Z; cbn;
      eexists; (split; [reflexivity |]); cbn;
      rewrite ?posts_app, ?sleeps_app; cbn; rewrite ?app_nil_r; auto 10.
Qed.

(** An empty text: the second one in a row ends the loop. *)
Lemma body_empty_text (st : cstate) (r : response) :
  srv (requests st) (page st) = Responded r ->
  status_code r = 200%Z ->
  is_empty_text (strip (text r)) = true ->
  guarded_body cfg srv st =
  if (2 <=? empty_response_count st + 1)%nat then
    (inr Break,
     {| all_data := all_data st; page := page st; total_count := total_count st;
        empty_response_count := empty_response_count st + 1;
        retry_count := retry_count st; requests := S (requests st);
        trace := trace st ++ [Log (CompleteUrl (page st)); Post (page st);
                              Log (EmptyText (page st)); Log MultipleEmptyResponses] |})
  else
    (inr Continue,
     {| all_data := all_data st; page := page st + 1; total_count := total_count st;
        empty_response_count := empty_response_count st + 1;
        retry_count := retry_count st; requests := S (requests st);
        trace := trace st ++ [Log (CompleteUrl (page st)); Post (page st);
                              Log (EmptyText (page st)); Sleep 1] |}).
Proof.
  intros Hsrv Hcode Ht. run_body. rewrite Hsrv. cbn. rewrite Hcode. cbn.
  rewrite Ht. cbn.
  destruct (empty_response_count st + 1)%nat as [| [| k]] eqn:Hk; cbn;
    now rewrite <- !app_assoc.
Qed.

(** An empty structure: the counter restarts at one; the loop ends only if
    rows were collected before. *)
Lemma body_empty_json (st : cstate) (r : response) (j : json) :
  srv (requests st) (page st) = Responded r ->
  status_code r = 200%Z ->
  is_empty_text (strip (text r)) = false ->
  json_body r = Some j ->
  is_empty_response j = Ok true ->
  guarded_body cfg srv st =
  if nonempty (all_data st) then
    (inr Break,
     {| all_data := all_data st; page := page st; total_count := total_count st;
        empty_response_count := 1;
        retry_count := retry_count st; requests := S (requests st);
        trace := trace st ++ [Log (CompleteUrl (page st)); Post (page st);
                              Log (EmptyJson (page st)); Log EmptyJsonAfterData] |})
  else
    (inr Continue,
     {| all_data := all_data st; page := page st + 1; total_count := total_count st;
        empty_response_count := 1;
        retry_count := retry_count st; requests := S (requests st);
        trace := trace st ++ [Log (CompleteUrl (page st)); Post (page st);
                              Log (EmptyJson (page st)); Sleep 1] |}).
Proof.
  intros Hsrv Hcode Ht Hj He. run_body. rewrite Hsrv. cbn. rewrite Hcode. cbn.
  rewrite Ht. cbn. rewrite Hj. cbn. rewrite He. cbn.
  destruct (nonempty (all_data st)); cbn; now rewrite <- !app_assoc.
Qed.

End Body.

(** ** Rules for triples *)

Section Rules.
Context {S X : Type}.
Implicit Types (P : S -> Prop) (E : X -> S -> Prop).

Lemma triple_ret {A} P (a : A) (Q : A -> S -> Prop) E :
  (forall st, P st -> Q a st) -> triple P (ret a) Q E.
Proof. intros H st HP. cbn. auto. Qed.

Lemma triple_get {A} P (f : S -> A) (Q : A -> S -> Prop) E :
  (forall st, P st -> Q (f st) st) -> triple P (get f) Q E.
Proof. intros H st HP. cbn. auto. Qed.

Lemma triple_leave {A} P (x : X) (Q : A -> S -> Prop) E :
  (forall st, P st -> E x st) -> triple P (leave x : SM S X A) Q E.
Proof. intros H st HP. cbn. auto. Qed.

Lemma triple_bind {A B} P (m : SM S X A) (k : A -> SM S X B)
  (Q' : A -> S -> Prop) (Q : B -> S -> Prop) E :
  triple P m Q' E ->
  (forall a, triple (Q' a) (k a) Q E) ->
  triple P (bind m k) Q E.
Proof.
  intros Hm Hk st HP. unfold bind. specialize (Hm st HP).
  destruct (m st) as [[a | x] st']; auto. apply Hk. exact Hm.
Qed.

Lemma triple_bind_get {A B} P (f : S -> A) (k : A -> SM S X B)
  (Q : B -> S -> Prop) E :
  (forall a, triple (fun st => P st /\ a = f st) (k a) Q E) ->
  triple P (bind (get f) k) Q E.
Proof. intros Hk st HP. unfold bind, get. apply Hk. auto. Qed.

Lemma triple_weaken {A} (P P' : S -> Prop) (m : SM S X A)
  (Q Q' : A -> S -> Prop) (E E' : X -> S -> Prop) :
  triple P' m Q' E' ->
  (forall st, P st -> P' st) ->
  (forall a st, Q' a st -> Q a st) ->
  (forall x st, E' x st -> E x st) ->
  triple P m Q E.
Proof.
  intros Hm HP HQ HE st Hst. specialize (Hm st (HP st Hst)).
  destruct (m st) as [[a | x] st']; auto.
Qed.

Lemma triple_for_each {A} (I : S -> Prop) (l : list A) (body : A -> SM S X unit) E :
  (forall a, In a l -> triple I (body a) (fun _ => I) E) ->
  triple I (for_each l body) (fun _ => I) E.
Proof.
  induction l as [| a l IH]; intros Hb.
  - apply triple_ret. auto.
  - cbn [for_each]. eapply triple_bind.
    + apply Hb. now left.
    + intros u. apply IH. intros b Hin. apply Hb. now right.
Qed.

End Rules.

(** Rules for the crawler's own commands. *)

Lemma triple_lift {A} (P : cstate -> Prop) (r : res A) (Q : A -> cstate -> Prop) E :
  (forall a st, r = Ok a -> P st -> Q a st) ->
  (forall e st, r = Raise e -> P st -> E (Throw e) st) ->
  triple P (lift r) Q E.
Proof. intros H1 H2 st HP. unfold lift. destruct r; auto. Qed.

Lemma triple_bind_lift {A B} (P : cstate -> Prop) (r : res A) (k : A -> M B)
  (Q : B -> cstate -> Prop) E :
  (forall e st, r = Raise e -> P st -> E (Throw e) st) ->
  (forall a, r = Ok a -> triple P (k a) Q E) ->
  triple P (bind (lift r) k) Q E.
Proof.
  intros H1 H2 st HP. unfold bind, lift. destruct r as [a | e]; auto.
  apply H2; auto.
Qed.

(** ** A page that is not empty has rows *)

Lemma iter_truthy_nonempty (v : json) (l : list json) :
  truthy v = true -> py_iter v = Ok l -> nonempty l = true.
Proof.
  destruct v as [| b | n | s | items | members]; cbn; intros Ht Hi;
    try discriminate; injection Hi as <-.
  - destruct s; cbn in *; [discriminate | reflexivity].
  - destruct items; [discriminate | reflexivity].
  - destruct members; [discriminate | reflexivity].
Qed.

Lemma nonempty_app_l {A} (l1 l2 : list A) :
  nonempty l1 = true -> nonempty (l1 ++ l2) = true.
Proof. destruct l1; cbn; [discriminate | auto]. Qed.

Lemma nonempty_app_r {A} (l1 l2 : list A) :
  nonempty l2 = true -> nonempty (l1 ++ l2) = true.
Proof. destruct l1; cbn; auto. Qed.

(** If [all(...)] answers [False], an element is a dict with a truthy
    ['row']. *)
Lemma all_no_row_false_witness (items : list json) :
  all_no_row items = Ok false ->
  exists item members v,
    In item items /\ item = JDict members /\
    lookup "row" members = Some v /\ truthy v = true.
Proof.
  induction items as [| item rest IH]; cbn; [discriminate |].
  unfold rbind at 1. destruct (no_row item) as [b | e] eqn:Hn; [| discriminate].
  destruct b.
  - intros H. destruct (IH H) as (it & ms & v & Hin & Hrest). exists it, ms, v. tauto.
  - intros _. unfold no_row in Hn.
    destruct item as [| b | n | s | l | members]; cbn in Hn; try discriminate.
    + destruct (contains "row" s); cbn in Hn; discriminate.
    + destruct (existsb (is_str "row") l); cbn in Hn; discriminate.
    + destruct (lookup "row" members) as [v |] eqn:Hl; cbn in Hn; [| discriminate].
      assert (Ht : negb (truthy v) = false) by congruence.
      apply negb_false_iff in Ht.
      exists (JDict members), members, v. auto.
Qed.

Lemma all_no_row_false_rows (items rows : list json) :
  all_no_row items = Ok false ->
  collect_rows items = Ok rows ->
  nonempty rows = true.
Proof.
  revert rows. induction items as [| item rest IH]; cbn; [discriminate |].
  intros rows. unfold rbind at 1.
  destruct (no_row item) as [b | e] eqn:Hn; [| discriminate].
  unfold no_row in Hn.
  destruct (py_in "row" item) as [has | e] eqn:Hin; cbn in Hn; [| discriminate].
  cbn [rbind].
  destruct has; cbn in Hn.
  - destruct (py_getitem item "row") as [v | e] eqn:Hg; cbn in Hn; [| discriminate].
    assert (Hb : negb (truthy v) = b) by congruence. cbn [rbind].
    destruct (py_iter v) as [here | e] eqn:Hi; cbn; [| discriminate].
    destruct (collect_rows rest) as [more | e] eqn:Hm; cbn; [| discriminate].
    destruct b; intros Hall Hrows;
      assert (Hr : rows = here ++ more) by congruence; rewrite Hr.
    + apply nonempty_app_r. now apply IH.
    + apply nonempty_app_l. apply (iter_truthy_nonempty v); auto.
      now apply negb_false_iff.
  - assert (Hb : b = true) by congruence. rewrite Hb. cbn.
    destruct (collect_rows rest) as [more | e] eqn:Hm; cbn; [| discriminate].
    intros Hall Hrows. assert (Hr : rows = more) by congruence. rewrite Hr.
    now apply IH.
Qed.

(** What [is_empty_response] returning [False] on a body with the payload
    key amounts to. *)
Lemma not_empty_inversion (j : json) :
  is_empty_response j = Ok false ->
  py_in "QWGJK" j = Ok true ->
  exists members payload items,
    j = JDict members /\ lookup "QWGJK" members = Some payload /\
    truthy payload = true /\ py_iter payload = Ok items /\
    all_no_row items = Ok false.
Proof.
  unfold is_empty_response. intros He Hin.
  destruct (negb (truthy j)); [discriminate |].
  destruct (is_empty_dict j); [discriminate |].
  rewrite Hin in He. cbn [rbind] in He.
  destruct j as [| b | n | s | l | members]; cbn in He; try discriminate.
  cbn in Hin.
  destruct (lookup "QWGJK" members) as [payload |] eqn:Hl; cbn in He; [| discriminate].
  destruct (truthy payload) eqn:Ht; cbn in He; [| discriminate].
  destruct (py_iter payload) as [items | e] eqn:Hi; cbn in He; [| discriminate].
  destruct (all_no_row items) as [[|] | e] eqn:Ha; cbn in He; try discriminate.
  exists members, payload, items. auto.
Qed.

Lemma not_empty_rows (j : json) (rows : list json) :
  is_empty_response j = Ok false ->
  py_in "QWGJK" j = Ok true ->
  row_data_of j = Ok rows ->
  nonempty rows = true.
Proof.
  intros He Hin Hrows.
  destruct (not_empty_inversion j He Hin)
    as (members & payload & items & -> & Hl & Ht & Hi & Ha).
  unfold row_data_of in Hrows. cbn in Hrows. rewrite Hl in Hrows. cbn in Hrows.
  rewrite Hi in Hrows. cbn in Hrows.
  exact (all_no_row_false_rows items rows Ha Hrows).
Qed.

(** ** The branches for a page without rows are never taken *)

Lemma never_rowless_nil : never_rowless [].
Proof. intros m []. Qed.

Lemma never_rowless_snoc (tr : list event) (e : event) :
  never_rowless tr ->
  match e with Log m => rowless_branch m = false | _ => True end ->
  never_rowless (tr ++ [e]).
Proof.
  intros Htr He m Hin. apply in_app_or in Hin.
  destruct Hin as [Hin | [Heq | []]]; [auto | subst e; exact He].
Qed.

Lemma quiet_ret {A} (a : A) : quiet (ret a).
Proof. apply triple_ret. auto. Qed.

Lemma quiet_get {A} (f : cstate -> A) : quiet (get f).
Proof. apply triple_get. auto. Qed.

Lemma quiet_leave {A} (x : signal) : quiet (leave x : M A).
Proof. apply triple_leave. auto. Qed.

Lemma quiet_lift {A} (r : res A) : quiet (lift r).
Proof. apply triple_lift; auto. Qed.

Lemma quiet_bind {A B} (m : M A) (k : A -> M B) :
  quiet m -> (forall a, quiet (k a)) -> quiet (bind m k).
Proof. intros Hm Hk. eapply triple_bind; [exact Hm | exact Hk]. Qed.

Lemma quiet_bind_lift {A B} (r : res A) (k : A -> M B) :
  (forall a, r = Ok a -> quiet (k a)) -> quiet (bind (lift r) k).
Proof. intros Hk. apply triple_bind_lift; auto. Qed.

Lemma quiet_emit (e : event) :
  match e with Log m => rowless_branch m = false | _ => True end -> quiet (emit e).
Proof. intros He st Hst. cbn. now apply never_rowless_snoc. Qed.

Lemma quiet_log (m : log_msg) : rowless_branch m = false -> quiet (log m).
Proof. intros Hm. now apply quiet_emit. Qed.

Lemma quiet_sleep (secs : Z) : quiet (sleep secs).
Proof.
  intros st Hst. unfold sleep. destruct (secs <? 0)%Z; [exact Hst |].
  now apply (quiet_emit (Sleep secs)).
Qed.

Lemma quiet_set_page (p : nat) : quiet (set_page p).
Proof. intros st Hst. exact Hst. Qed.

Lemma quiet_set_all_data (d : list json) : quiet (set_all_data d).
Proof. intros st Hst. exact Hst. Qed.

Lemma quiet_set_total_count (t : json) : quiet (set_total_count t).
Proof. intros st Hst. exact Hst. Qed.

Lemma quiet_set_empty_response_count (n : nat) : quiet (set_empty_response_count n).
Proof. intros st Hst. exact Hst. Qed.

Lemma quiet_post (srv : server) (p : nat) : quiet (post srv p).
Proof.
  intros st Hst. unfold post. destruct (srv (requests st) p); cbn;
    now apply never_rowless_snoc.
Qed.

Ltac quiet_step :=
  first
    [ apply quiet_ret | apply quiet_leave | apply quiet_get | apply quiet_lift
    | apply quiet_log; reflexivity | apply quiet_sleep | apply quiet_post
    | apply quiet_set_page | apply quiet_set_all_data
    | apply quiet_set_total_count | apply quiet_set_empty_response_count
    | apply quiet_bind; [| intros ?]
    | match goal with
      | |- quiet (if ?b then _ else _) => destruct b
      | |- quiet (match ?x with _ => _ end) => destruct x
      end ].

Section Quiet.
Variable cfg : Config.
Variable srv : server.

Lemma quiet_retry_or_break : quiet (retry_or_break cfg).
Proof. unfold retry_or_break. repeat quiet_step. Qed.

Lemma quiet_incr : quiet incr_empty_response_count.
Proof. unfold incr_empty_response_count. repeat quiet_step. Qed.

Lemma quiet_probe (s : site) : quiet (probe_next_page cfg srv s).
Proof. unfold probe_next_page. repeat quiet_step. Qed.

Lemma quiet_scan_metadata (metadata : list json) : quiet (scan_metadata metadata).
Proof.
  induction metadata as [| meta_item rest IH]; cbn [scan_metadata].
  - apply quiet_ret.
  - repeat quiet_step. exact IH.
Qed.

Lemma quiet_read_total (j : json) : quiet (read_total j).
Proof.
  unfold read_total. repeat quiet_step. apply quiet_scan_metadata.
Qed.

Lemma quiet_handle_page (j : json) :
  (forall rows, row_data_of j = Ok rows -> nonempty rows = true) ->
  quiet (handle_page cfg srv j).
Proof.
  intros Hrows. unfold handle_page.
  apply quiet_bind; [apply quiet_read_total | intros _].
  apply quiet_bind_lift. intros row_data Hr. rewrite (Hrows row_data Hr).
  cbn [negb].
  repeat first [apply quiet_probe | rewrite andb_false_r | quiet_step].
Qed.

Lemma quiet_loop_body : quiet (loop_body cfg srv).
Proof.
  unfold loop_body.
  apply quiet_bind; [apply quiet_get | intros pg].
  apply quiet_bind; [apply quiet_lift | intros _].
  apply quiet_bind; [apply quiet_log; reflexivity | intros _].
  apply quiet_bind; [apply quiet_post | intros response].
  apply quiet_bind.
  { repeat first [apply quiet_retry_or_break | quiet_step]. }
  intros _.
  destruct (is_empty_text (strip (text response))).
  { repeat first [apply quiet_incr | quiet_step]. }
  apply quiet_bind; [apply quiet_set_empty_response_count | intros _].
  destruct (json_body response) as [response_json |].
  2: { repeat first [apply quiet_retry_or_break | quiet_step]. }
  apply quiet_bind_lift. intros e He. destruct e.
  { repeat first [apply quiet_incr | quiet_step]. }
  apply quiet_bind_lift. intros has Hhas. destruct has.
  - apply quiet_handle_page. intros rows. now apply not_empty_rows.
  - repeat quiet_step.
Qed.

Lemma quiet_guarded_body : quiet (guarded_body cfg srv).
Proof.
  intros st Hst. unfold guarded_body.
  pose proof (quiet_loop_body st Hst) as Hb.
  destruct (loop_body cfg srv st) as [[u | x] st']; auto.
  destruct x; auto.
  assert (Hh : forall m, rowless_branch m = false ->
                         quiet (bind (log m) (fun _ => retry_or_break cfg))).
  { intros m Hm. apply quiet_bind; [now apply quiet_log | intros _].
    apply quiet_retry_or_break. }
  destruct e;
    match goal with
    | |- context [log ?m] => exact (Hh m eq_refl st' Hb)
    end.
Qed.

Lemma quiet_after_loop : quiet (after_loop cfg).
Proof. unfold after_loop. repeat quiet_step. Qed.

Lemma quiet_finish (st : cstate) :
  never_rowless (trace st) -> never_rowless (trace (snd (finish cfg st))).
Proof.
  intros Hst. unfold finish. pose proof (quiet_after_loop st Hst) as H.
  destruct (after_loop cfg st) as [[[[d t] f] | x] st']; cbn; auto.
  destruct x; auto.
Qed.

Lemma quiet_crawl_loop (fuel : nat) :
  forall st o st',
    never_rowless (trace st) ->
    crawl_loop cfg srv fuel st = Some (o, st') ->
    never_rowless (trace st').
Proof.
  induction fuel as [| fuel IH]; intros st o st' Hst; cbn; [discriminate |].
  pose proof (quiet_guarded_body st Hst) as Hb.
  destruct (guarded_body cfg srv st) as [[u | x] st1]; [now apply IH |].
  destruct x.
  - intros H. pose proof (quiet_finish st1 Hb) as Hf.
    destruct (finish cfg st1) as [o1 st2]. cbn in Hf.
    injection H as _ <-. exact Hf.
  - now apply IH.
  - apply IH. exact Hb.
  - intros H. injection H as _ <-. exact Hb.
Qed.

End Quiet.

(** ** At the head of the loop, [total_count] is [None] or a number *)

Lemma holds_ret {A} I E (a : A) : holds I E (ret a).
Proof. apply triple_ret. auto. Qed.

Lemma holds_get {A} I E (f : cstate -> A) : holds I E (get f).
Proof. apply triple_get. auto. Qed.

Lemma holds_leave {A} (I : cstate -> Prop) (E : signal -> cstate -> Prop) (x : signal) :
  (forall st, I st -> E x st) -> holds I E (leave x : M A).
Proof. intros H. apply triple_leave. exact H. Qed.

Lemma holds_lift {A} (I : cstate -> Prop) (E : signal -> cstate -> Prop) (r : res A) :
  (forall e st, I st -> E (Throw e) st) -> holds I E (lift r).
Proof. intros H. apply triple_lift; auto. Qed.

Lemma holds_bind {A B} I E (m : M A) (k : A -> M B) :
  holds I E m -> (forall a, holds I E (k a)) -> holds I E (bind m k).
Proof. intros Hm Hk. eapply triple_bind; [exact Hm | exact Hk]. Qed.

Lemma holds_post (I : cstate -> Prop) (E : signal -> cstate -> Prop) (srv : server) (p : nat) :
  (forall st evs n, I st -> I (advanced n evs st)) ->
  (forall e st, I st -> E (Throw e) st) ->
  holds I E (post srv p).
Proof.
  intros HI HE st Hst. unfold post.
  destruct (srv (requests st) p); [apply HE |]; apply (HI st [Post p] 1 Hst).
Qed.

Lemma holds_sleep (I : cstate -> Prop) (E : signal -> cstate -> Prop) (secs : Z) :
  (forall st evs n, I st -> I (advanced n evs st)) ->
  (forall e st, I st -> E (Throw e) st) ->
  holds I E (sleep secs).
Proof.
  intros HI HE st Hst. unfold sleep.
  destruct (secs <? 0)%Z; [now apply HE |]. apply (HI st [Sleep secs] 0 Hst).
Qed.

Ltac total_step side :=
  first
    [ apply holds_ret | apply holds_get
    | apply holds_lift; side | apply holds_leave; side
    | apply holds_post; side
    | apply holds_sleep; side
    | apply holds_bind; [| intros ?]
    | match goal with
      | |- holds _ _ (if ?b then _ else _) => destruct b
      | |- holds _ _ (match ?x with _ => _ end) => destruct x
      | |- holds _ _ (log _) => intros ? ?; cbn; side
      | |- holds _ _ (set_page _) => intros ? ?; cbn; side
      | |- holds _ _ (set_all_data _) => intros ? ?; cbn; side
      | |- holds _ _ (set_empty_response_count _) => intros ? ?; cbn; side
      end ].

(** Side conditions when the invariant only reads [total_count]. *)
Ltac total_side :=
  unfold settled_on_continue; cbn; intros;
  solve [ assumption | discriminate | congruence | tauto ].

Section Total.
Variable cfg : Config.
Variable srv : server.

Ltac frame_side :=
  unfold settled_on_continue; cbn; intros;
  solve [ assumption | discriminate
        | match goal with H : total_count _ = _ |- _ => rewrite H; assumption end ].

Ltac frame_auto := intros t Ht; repeat total_step frame_side.

Lemma frames_retry_or_break : frames (retry_or_break cfg).
Proof. unfold retry_or_break. frame_auto. Qed.

Lemma frames_incr : frames incr_empty_response_count.
Proof. unfold incr_empty_response_count. frame_auto. Qed.

Lemma frames_probe (s : site) : frames (probe_next_page cfg srv s).
Proof. unfold probe_next_page. frame_auto. Qed.

(** A command that frames keeps a settled total settled. *)
Lemma frames_settled {A} (m : M A) :
  frames m -> holds (fun st => count_ok (total_count st)) settled_on_continue m.
Proof.
  intros Hm st Hst. specialize (Hm (total_count st) Hst st eq_refl).
  destruct (m st) as [[a | x] st']; [now rewrite Hm | exact Hm].
Qed.

(** Code before the total is looked at: anything goes, as long as it
    does not [continue]. *)
Ltac loose_side :=
  unfold settled_on_continue; cbn; intros; solve [ exact I | discriminate ].

Lemma loose_scan_metadata (metadata : list json) :
  holds (fun _ => True) settled_on_continue (scan_metadata metadata).
Proof.
  induction metadata as [| meta_item rest IH]; cbn [scan_metadata].
  - apply holds_ret.
  - repeat first
      [ exact IH
      | match goal with
        | |- holds _ _ (set_total_count _) => intros ? ?; exact I
        end
      | total_step loose_side ].
Qed.

Lemma loose_read_total (j : json) :
  holds (fun _ => True) settled_on_continue (read_total j).
Proof.
  unfold read_total.
  repeat first [ apply loose_scan_metadata | total_step loose_side ].
Qed.

Lemma percentage_count_ok (n : nat) (total : json) (p : Q) :
  percentage n total = Ok p -> count_ok total.
Proof.
  unfold percentage. destruct (as_number total) as [t | e] eqn:Ht; [| discriminate].
  intros _. right. now exists t.
Qed.

Lemma frames_triple {A} (m : M A) (total : json) :
  count_ok total -> frames m ->
  triple (fun st => total_count st = total) m
    (fun _ st => total_count st = total /\ count_ok total) settled_on_continue.
Proof.
  intros Hok Hm st Hst. specialize (Hm total Hok st Hst).
  destruct (m st) as [[a | x] st']; auto.
Qed.

Ltac frames_auto :=
  intros ? ?; unfold incr_empty_response_count;
  repeat first [ apply frames_probe; assumption | total_step frame_side ].

Lemma settled_handle_page (j : json) :
  triple (fun _ => True) (handle_page cfg srv j)
    (fun _ st => count_ok (total_count st)) settled_on_continue.
Proof.
  unfold handle_page.
  eapply triple_bind; [apply loose_read_total | intros u0].
  eapply triple_bind;
    [apply (holds_lift (fun _ => True)); loose_side | intros row_data].
  eapply triple_bind; [apply (holds_get (fun _ => True)) | intros pg].
  match goal with
  | |- triple _ (bind ?m _) _ _ =>
      assert (Hm : holds (fun _ => True) settled_on_continue m)
  end.
  { unfold incr_empty_response_count.
    repeat first
      [ match goal with
        | |- holds _ _ (set_all_data _) => intros ? ?; exact I
        end
      | total_step loose_side ]. }
  eapply triple_bind; [exact Hm | clear Hm; intros u1].
  apply triple_bind_get. intros total.
  apply triple_weaken with
    (P' := fun st => total_count st = total)
    (Q' := fun (_ : unit) st => count_ok (total_count st))
    (E' := settled_on_continue); auto; [| now intros st [_ H]].
  eapply triple_bind with
    (Q' := fun _ st => total_count st = total /\ count_ok total).
  - destruct (is_none total) eqn:Hnone.
    + apply triple_ret. intros st H. split; auto.
      left. destruct total; cbn in Hnone; congruence.
    + eapply triple_bind with (Q' := fun _ st => total_count st = total);
        [apply triple_get; auto | intros data].
      eapply triple_bind with (Q' := fun _ st => total_count st = total);
        [intros st H; exact H | intros u2].
      apply triple_bind_lift.
      * unfold settled_on_continue. discriminate.
      * intros p Hp. apply frames_triple.
        { eapply percentage_count_ok; eauto. }
        frames_auto.
  - intros u3 st [Hst Hok].
    match goal with
    | |- match ?m st with _ => _ end => assert (Hm : frames m) by frames_auto
    end.
    specialize (Hm total Hok st Hst).
    match goal with
    | |- match ?m st with _ => _ end => destruct (m st) as [[a | x] st']
    end; [now rewrite Hm | exact Hm].
Qed.

Lemma settled_loop_body :
  holds (fun st => count_ok (total_count st)) settled_on_continue (loop_body cfg srv).
Proof.
  unfold loop_body, retry_or_break, incr_empty_response_count.
  repeat first
    [ match goal with
      | |- holds _ _ (handle_page _ _ _) =>
          eapply triple_weaken; [apply settled_handle_page | cbn; auto ..]
      end
    | total_step total_side ].
Qed.

Lemma settled_guarded_body :
  holds (fun st => count_ok (total_count st)) settled_on_continue (guarded_body cfg srv).
Proof.
  intros st Hst. unfold guarded_body.
  pose proof (settled_loop_body st Hst) as Hb.
  destruct (loop_body cfg srv st) as [[u | x] st']; auto.
  destruct x; auto.
  assert (Hh : forall m st0,
             exists x st1,
               bind (log m) (fun _ => retry_or_break cfg) st0 = (inr x, st1) /\
               x <> Continue).
  { intros m st0. unfold retry_or_break, bind, log, emit, get, sleep, leave. cbn.
    destruct (Z.of_nat (retry_count st0) <? api_max_retries cfg)%Z; cbn;
      [destruct (api_retry_delay cfg <? 0)%Z; cbn |];
      eexists; eexists; (split; [reflexivity | discriminate]). }
  match goal with
  | |- context [log ?m] => destruct (Hh m st') as (x & st1 & Hr & Hx)
  end.
  rewrite Hr. unfold settled_on_continue. intros Hc. contradiction.
Qed.

(** The invariant of the loop. *)
Lemma at_loop_head_total (st : cstate) :
  at_loop_head cfg srv st -> count_ok (total_count st).
Proof.
  induction 1 as [rc n tr | st st' Hst IH Hb | st st' Hst IH Hb].
  - now left.
  - pose proof (settled_guarded_body st IH) as H. now rewrite Hb in H.
  - pose proof (settled_guarded_body st IH) as H. rewrite Hb in H. now apply H.
Qed.

End Total.

(** ** The crawl as a whole *)

Section Crawl.
Variable cfg : Config.
Variable srv : server.
Hypothesis Hkey : has_api_key cfg = true.
Hypothesis Hdelay : (0 <= api_retry_delay cfg)%Z.

Lemma crawl_loop_break (fuel : nat) (st st' : cstate) :
  guarded_body cfg srv st = (inr Break, st') ->
  crawl_loop cfg srv (S fuel) st = Some (finish cfg st').
Proof. intros H. cbn. now rewrite H. Qed.

Lemma crawl_loop_retry (fuel : nat) (st st' : cstate) :
  guarded_body cfg srv st = (inr Retry, st') ->
  crawl_loop cfg srv (S fuel) st =
  crawl_loop cfg srv fuel (enter (S (retry_count st')) (requests st') (trace st')).
Proof. intros H. cbn. now rewrite H. Qed.

Lemma crawl_loop_continue (fuel : nat) (st st' : cstate) :
  guarded_body cfg srv st = (inr Continue, st') ->
  crawl_loop cfg srv (S fuel) st = crawl_loop cfg srv fuel st'.
Proof. intros H. cbn. now rewrite H. Qed.

Lemma crawl_loop_next (fuel : nat) (st st' : cstate) :
  guarded_body cfg srv st = (inl tt, st') ->
  crawl_loop cfg srv (S fuel) st = crawl_loop cfg srv fuel st'.
Proof. intros H. cbn. now rewrite H. Qed.

(** Whatever [crawl_data] returns was computed by the code after the
    loop. *)
Lemma crawl_loop_returned (fuel : nat) :
  forall st data total flag st',
    crawl_loop cfg srv fuel st = Some (Returned data total flag, st') ->
    exists st0, finish cfg st0 = (Returned data total flag, st').
Proof.
  induction fuel as [| fuel IH]; intros st data total flag st'; cbn; [discriminate |].
  destruct (guarded_body cfg srv st) as [[u | x] st1]; [apply IH |].
  destruct x; try apply IH.
  - intros H. exists st1. now injection H.
  - discriminate.
Qed.

Lemma finish_returned (st0 : cstate) data total flag st' :
  finish cfg st0 = (Returned data total flag, st') ->
  data = all_data st0 /\ total = total_count st0 /\
  (total = JNull -> flag = true) /\
  (forall z, as_number total = Ok z ->
             flag = (995 * z <=? 1000 * Z.of_nat (List.length data))%Z) /\
  count_ok total.
Proof.
  intros H.
  destruct (as_number (total_count st0)) as [z | e] eqn:Hz.
  - destruct (finish_number cfg st0 z Hz) as [msgs Hf]. rewrite Hf in H.
    assert (Hd : data = all_data st0) by congruence.
    assert (Ht : total = total_count st0) by congruence.
    assert (Hg : flag = (995 * z <=? 1000 * Z.of_nat (List.length (all_data st0)))%Z)
      by congruence.
    clear H. subst data total. repeat split; auto.
    + intros Hn. rewrite Hn in Hz. discriminate.
    + intros z' Hz'. assert (z' = z) by congruence. now subst z'.
    + right. now exists z.
  - destruct (total_count st0) eqn:Ht; cbn in Hz; try discriminate.
    + rewrite (finish_none cfg st0 Ht) in H.
      assert (Hd : data = all_data st0) by congruence.
      assert (Hn : total = JNull) by congruence.
      assert (Hg : flag = true) by congruence.
      clear H. subst data total. repeat split; auto; try discriminate. now left.
    + rewrite (finish_raises cfg st0 e) in H; [discriminate | congruence |].
      rewrite Ht. exact Hz.
    + rewrite (finish_raises cfg st0 e) in H; [discriminate | congruence |].
      rewrite Ht. exact Hz.
    + rewrite (finish_raises cfg st0 e) in H; [discriminate | congruence |].
      rewrite Ht. exact Hz.
Qed.

(** While no row was collected, pages that are empty by structure keep
    the loop running. *)
Lemma empty_structure_forever :
  (forall n p, exists r j,
      srv n p = Responded r /\ status_code r = 200%Z /\
      is_empty_text (strip (text r)) = false /\
      json_body r = Some j /\ is_empty_response j = Ok true) ->
  forall fuel st, all_data st = [] -> crawl_loop cfg srv fuel st = None.
Proof.
  intros Hsrv. induction fuel as [| fuel IH]; intros st Hd; cbn; [reflexivity |].
  destruct (Hsrv (requests st) (page st)) as (r & j & H1 & H2 & H3 & H4 & H5).
  pose proof (body_empty_json cfg srv Hkey st r j H1 H2 H3 H4 H5) as Hb.
  rewrite Hd in Hb. cbn [nonempty] in Hb. rewrite Hb.
  apply IH. reflexivity.
Qed.

(** Every request fails: the unit is retried while retries remain, and the
    last attempt returns no row, no total, and [is_complete = True]. *)
Lemma all_requests_fail (k : nat) :
  (forall n p, srv n p = ConnectionFailed) ->
  forall rc n tr extra,
    (Z.of_nat rc + Z.of_nat k = api_max_retries cfg)%Z ->
    exists st,
      crawl_loop cfg srv (S (k + extra)) (enter rc n tr) =
      Some (Returned [] JNull true, st) /\
      retry_count st = (rc + k)%nat /\
      requests st = (n + S k)%nat /\
      posts (trace st) = posts tr ++ repeat 1%nat (S k) /\
      sleeps (trace st) = sleeps tr ++ repeat (api_retry_delay cfg) k.
Proof.
  intros Hsrv. induction k as [| k IH]; intros rc n tr extra Hrc;
    destruct (body_retryable cfg srv Hkey (enter rc n tr) Hdelay)
      as (st' & Hb & Hd & Hp & Ht & Hr & Hn & Hposts & Hsleeps);
    try (rewrite Hsrv; constructor).
  - replace (Z.of_nat (retry_count (enter rc n tr)) <? api_max_retries cfg)%Z
      with false in * by (symmetry; apply Z.ltb_ge; cbn [enter retry_count]; lia).
    rewrite (crawl_loop_break _ _ _ Hb).
    exists st'. rewrite (finish_none cfg st') by (rewrite Ht; reflexivity).
    rewrite Hd, Hr, Hn, Hposts, Hsleeps. cbn.
    repeat split; auto; lia.
  - replace (Z.of_nat (retry_count (enter rc n tr)) <? api_max_retries cfg)%Z
      with true in * by (symmetry; apply Z.ltb_lt; cbn [enter retry_count]; lia).
    change (S k + extra)%nat with (S (k + extra)).
    rewrite (crawl_loop_retry _ _ _ Hb).
    destruct (IH (S (retry_count st')) (requests st') (trace st') extra)
      as (st & Hc & Hrc' & Hn' & Hposts' & Hsleeps').
    { rewrite Hr. cbn [enter retry_count]. lia. }
    exists st. rewrite Hc. split; [reflexivity |].
    rewrite Hrc', Hn', Hposts', Hsleeps', Hr, Hn, Hposts, Hsleeps.
    cbn [enter retry_count requests trace page].
    rewrite <- !app_assoc.
    repeat split; try lia; reflexivity.
Qed.

End Crawl.

(** ** The total is reached: the request for the next page *)

Section Probe.
Variable cfg : Config.
Variable srv : server.
Hypothesis Hkey : has_api_key cfg = true.

Lemma scan_metadata_total (metadata : list json) :
  forall st t,
    scan_total metadata (total_count st) = Ok t ->
    exists msgs, scan_metadata metadata st = (inl tt, logged msgs (with_total t st)).
Proof.
  induction metadata as [| meta_item rest IH]; intros st t; cbn [scan_total scan_metadata].
  - intros H. exists []. injection H as <-. destruct st; unfold logged, with_total; cbn.
    now rewrite app_nil_r.
  - unfold bind at 1. unfold lift at 1.
    destruct (py_in "list_total_count" meta_item) as [has | e]; cbn [rbind]; [| discriminate].
    destruct has.
    + unfold bind at 1. unfold bind at 1. unfold lift at 1.
      destruct (py_getitem meta_item "list_total_count") as [v | e]; cbn [rbind];
        [| discriminate].
      intros H. unfold bind at 1. unfold set_total_count at 1.
      unfold log at 1. unfold emit at 1.
      match goal with
      | |- context [scan_metadata rest ?s] => destruct (IH s t H) as [msgs Hm]; rewrite Hm
      end.
      exists (TotalRecords v :: msgs). unfold logged, with_total; cbn.
      now rewrite <- app_assoc.
    + cbn [rbind]. intros H. unfold bind at 1. unfold ret at 1.
      apply IH. exact H.
Qed.

Lemma read_total_total (j : json) (st : cstate) (t : json) :
  total_after (page st) j (total_count st) = Ok t ->
  exists msgs, read_total j st = (inl tt, logged msgs (with_total t st)).
Proof.
  unfold total_after, read_total. unfold bind at 1. unfold get at 1.
  assert (Hsame : forall t0, Ok (total_count st) = Ok t0 ->
            exists msgs, (inl tt, st) = (inl tt : unit + signal, logged msgs (with_total t0 st))).
  { intros t0 H. exists []. injection H as <-. destruct st; unfold logged, with_total; cbn.
    now rewrite app_nil_r. }
  destruct (page st =? 1)%nat; [| apply Hsame].
  unfold bind at 1. unfold lift at 1.
  destruct (py_getitem j "QWGJK") as [payload | e]; cbn [rbind]; [| discriminate].
  unfold bind at 1. unfold lift at 1.
  destruct (py_first payload) as [first | e]; cbn [rbind]; [| discriminate].
  unfold bind at 1. unfold lift at 1.
  destruct (py_get first "head") as [head | e]; cbn [rbind]; [| discriminate].
  destruct (truthy head); [| apply Hsame].
  unfold bind at 1. unfold lift at 1.
  destruct (py_getitem first "head") as [metadata | e]; cbn [rbind]; [| discriminate].
  unfold bind at 1. unfold lift at 1.
  destruct (py_iter metadata) as [items | e]; cbn [rbind]; [| discriminate].
  apply scan_metadata_total.
Qed.

(** The request for the next page always leaves the iteration. *)
Lemma probe_empty (s : site) (st : cstate) :
  answers_empty (srv (requests st) (page st + 1)) ->
  exists m,
    probe_next_page cfg srv s st =
    (inr Break,
     advanced 1 [Log (Probing s (page st + 1)); Post (page st + 1); Log m] st).
Proof.
  intros (r & Hsrv & Hcode & Hcase).
  unfold probe_next_page. with_key.
  unfold bind, get, log, emit, post, leave, lift. cbn.
  rewrite Hsrv. cbn. rewrite Hcode. cbn.
  destruct Hcase as [Ht | (Ht & j & Hj & He)]; rewrite Ht; cbn.
  - eexists. unfold advanced. cbn. now rewrite <- !app_assoc.
  - rewrite Hj. cbn. rewrite He. cbn.
    eexists. unfold advanced. cbn. now rewrite <- !app_assoc.
Qed.

Lemma probe_more (s : site) (st : cstate) :
  answers_more (srv (requests st) (page st + 1)) ->
  probe_next_page cfg srv s st =
  (inr Continue,
   {| all_data := all_data st; page := page st + 1; total_count := total_count st;
      empty_response_count := empty_response_count st;
      retry_count := retry_count st; requests := S (requests st);
      trace := trace st ++ [Log (Probing s (page st + 1)); Post (page st + 1);
                            Log (ProbeMoreData s (page st + 1))] |}).
Proof.
  intros (r & j & Hsrv & Hcode & Ht & Hj & He).
  unfold probe_next_page. with_key.
  unfold bind, get, log, emit, post, leave, lift, set_page. cbn.
  rewrite Hsrv. cbn. rewrite Hcode. cbn. rewrite Ht. cbn. rewrite Hj. cbn.
  rewrite He. cbn. now rewrite <- !app_assoc.
Qed.

(** Any status but 200 on the next page ends the loop as well. *)
Lemma probe_bad_status (s : site) (st : cstate) (r : response) :
  srv (requests st) (page st + 1) = Responded r ->
  status_code r <> 200%Z ->
  probe_next_page cfg srv s st =
  (inr Break,
   advanced 1 [Log (Probing s (page st + 1)); Post (page st + 1);
               Log (ProbeBadStatus s (status_code r))] st).
Proof.
  intros Hsrv Hcode. apply Z.eqb_neq in Hcode.
  unfold probe_next_page. with_key.
  unfold bind, get, log, emit, post, leave, lift. cbn.
  rewrite Hsrv. cbn. rewrite Hcode. cbn.
  unfold advanced. cbn. now rewrite <- !app_assoc.
Qed.

End Probe.

(** ** A page on which the announced total is reached *)

Section Reached.
Variable cfg : Config.
Variable srv : server.
Hypothesis Hkey : has_api_key cfg = true.

Ltac proj :=
  cbn [all_data page total_count empty_response_count retry_count requests trace
       logged with_total advanced].

Lemma body_total_reached (st : cstate) (r : response) (j total : json)
  (rows : list json) (expected : Z) :
  srv (requests st) (page st) = Responded r ->
  valid_page st r j total rows ->
  as_number total = Ok expected -> expected <> 0%Z ->
  (expected <= Z.of_nat (List.length (all_data st ++ rows)))%Z ->
  exists evs,
    posts evs = [page st] /\ sleeps evs = [] /\
    forall x s,
      probe_next_page cfg srv TotalReached
        {| all_data := all_data st ++ rows; page := page st; total_count := total;
           empty_response_count := 0; retry_count := retry_count st;
           requests := S (requests st); trace := trace st ++ evs |} = (inr x, s) ->
      loop_body cfg srv st = (inr x, s).
Proof.
  intros Hsrv (Hcode & Ht & Hj & He & Hin & Htotal & Hrows) Hnum Hnz Hreach.
  pose proof (not_empty_rows j rows He Hin Hrows) as Hne.
  unfold loop_body. with_key.
  proj.
  unfold bind at 1. unfold get at 1.
  proj.
  unfold bind at 1. unfold lift at 1.
  proj.
  unfold bind at 1. unfold log at 1. unfold emit at 1.
  proj.
  unfold bind at 1. unfold post at 1. cbn [requests page trace]. rewrite Hsrv.
  proj.
  rewrite Hcode. cbn [Z.eqb Pos.eqb negb].
  proj.
  unfold bind at 1. unfold ret at 1.
  proj.
  rewrite Ht.
  proj.
  unfold bind at 1. unfold set_empty_response_count at 1.
  proj.
  rewrite Hj.
  proj.
  unfold bind at 1. rewrite He. unfold lift at 1.
  proj.
  unfold bind at 1. rewrite Hin. unfold lift at 1.
  proj.
  unfold handle_page.
  proj.
  unfold bind at 1.
  proj.
  match goal with
  | |- context [read_total j ?s] =>
      destruct (read_total_total j s total) as [msgs Hr]; [exact Htotal |]; rewrite Hr
  end.
  proj.
  unfold bind at 1. rewrite Hrows. unfold lift at 1.
  proj.
  unfold bind at 1. unfold get at 1.
  proj.
  unfold bind at 1. rewrite Hne.
  proj.
  unfold bind at 1. unfold log at 1. unfold emit at 1.
  proj.
  unfold bind at 1. unfold get at 1. unfold set_all_data at 1.
  proj.
  unfold bind at 1. unfold get at 1.
  proj.
  rewrite (is_none_number _ _ Hnum).
  proj.
  unfold bind at 1. unfold bind at 1. unfold get at 1.
  proj.
  unfold bind at 1. unfold log at 1. unfold emit at 1.
  proj.
  unfold bind at 1. rewrite (percentage_number _ _ _ Hnum Hnz). unfold lift at 1.
  proj.
  unfold bind at 1. unfold log at 1. unfold emit at 1.
  proj.
  unfold bind at 1. unfold reaches. rewrite Hnum. cbn [rbind].
  proj.
  replace (expected <=? Z.of_nat (List.length (all_data st ++ rows)))%Z with true
    by (symmetry; now apply Z.leb_le).
  proj.
  unfold lift at 1.
  proj.
  unfold bind at 1. unfold bind at 1. unfold log at 1. unfold emit at 1.
  proj.
  eexists. split; [| split].
  3: { intros x s Hp. rewrite <- !app_assoc. cbn [app]. rewrite Hp. reflexivity. }
  - cbn. rewrite posts_app, posts_logs. reflexivity.
  - cbn. rewrite sleeps_app, sleeps_logs. reflexivity.
Qed.

(** The rows of the page are appended, and then the next page is
    requested: if it looks empty the loop ends, if it has data the loop
    goes on from that page. *)
Lemma body_total_reached_empty (st : cstate) (r : response) (j total : json)
  (rows : list json) (expected : Z) :
  srv (requests st) (page st) = Responded r ->
  valid_page st r j total rows ->
  as_number total = Ok expected -> expected <> 0%Z ->
  (expected <= Z.of_nat (List.length (all_data st ++ rows)))%Z ->
  answers_empty (srv (S (requests st)) (page st + 1)) ->
  exists st',
    guarded_body cfg srv st = (inr Break, st') /\
    all_data st' = all_data st ++ rows /\ total_count st' = total /\
    retry_count st' = retry_count st /\
    posts (trace st') = posts (trace st) ++ [page st; page st + 1] /\
    sleeps (trace st') = sleeps (trace st).
Proof.
  intros Hsrv Hv Hnum Hnz Hreach Hnext.
  destruct (body_total_reached st r j total rows expected Hsrv Hv Hnum Hnz Hreach)
    as (evs & Hposts & Hsleeps & Hbody).
  match type of Hbody with
  | forall x s, probe_next_page _ _ _ ?s2 = _ -> _ =>
      destruct (probe_empty cfg srv Hkey TotalReached s2 Hnext) as [m Hp]
  end.
  unfold guarded_body. rewrite (Hbody _ _ Hp).
  eexists. split; [reflexivity |]. cbn.
  rewrite !posts_app, !sleeps_app, Hposts, Hsleeps. cbn.
  rewrite <- ?app_assoc, ?app_nil_r. repeat split; reflexivity.
Qed.

Lemma body_total_reached_more (st : cstate) (r : response) (j total : json)
  (rows : list json) (expected : Z) :
  srv (requests st) (page st) = Responded r ->
  valid_page st r j total rows ->
  as_number total = Ok expected -> expected <> 0%Z ->
  (expected <= Z.of_nat (List.length (all_data st ++ rows)))%Z ->
  answers_more (srv (S (requests st)) (page st + 1)) ->
  exists st',
    guarded_body cfg srv st = (inr Continue, st') /\
    all_data st' = all_data st ++ rows /\ total_count st' = total /\
    page st' = page st + 1 /\ requests st' = S (S (requests st)) /\
    retry_count st' = retry_count st /\
    posts (trace st') = posts (trace st) ++ [page st; page st + 1] /\
    sleeps (trace st') = sleeps (trace st).
Proof.
  intros Hsrv Hv Hnum Hnz Hreach Hnext.
  destruct (body_total_reached st r j total rows expected Hsrv Hv Hnum Hnz Hreach)
    as (evs & Hposts & Hsleeps & Hbody).
  match type of Hbody with
  | forall x s, probe_next_page _ _ _ ?s2 = _ -> _ =>
      pose proof (probe_more cfg srv Hkey TotalReached s2 Hnext) as Hp
  end.
  unfold guarded_body. rewrite (Hbody _ _ Hp).
  eexists. split; [reflexivity |]. cbn.
  rewrite !posts_app, !sleeps_app, Hposts, Hsleeps. cbn.
  rewrite <- ?app_assoc, ?app_nil_r. repeat split; reflexivity.
Qed.

(** When the rows collected reach a known total other than zero, exactly
    one more request is made, for the next page. If it comes back empty,
    by its text or by its structure, the crawl returns the rows collected,
    complete; if it comes back with data, the loop goes on at that page
    with the rows kept. *)
Lemma total_reached_probe (st : cstate) (fuel : nat) (r : response) (j total : json)
  (rows : list json) (expected : Z) :
  srv (requests st) (page st) = Responded r ->
  valid_page st r j total rows ->
  as_number total = Ok expected -> expected <> 0%Z ->
  (expected <= Z.of_nat (List.length (all_data st ++ rows)))%Z ->
  (answers_empty (srv (S (requests st)) (page st + 1)) ->
   exists st',
     crawl_loop cfg srv (S fuel) st =
     Some (Returned (all_data st ++ rows) total true, st') /\
     posts (trace st') = posts (trace st) ++ [page st; page st + 1] /\
     sleeps (trace st') = sleeps (trace st)) /\
  (answers_more (srv (S (requests st)) (page st + 1)) ->
   exists st',
     crawl_loop cfg srv (S fuel) st = crawl_loop cfg srv fuel st' /\
     all_data st' = all_data st ++ rows /\ total_count st' = total /\
     page st' = page st + 1 /\
     posts (trace st') = posts (trace st) ++ [page st; page st + 1] /\
     sleeps (trace st') = sleeps (trace st)).
Proof.
  intros Hsrv Hv Hnum Hnz Hreach. split; intros Hnext.
  - destruct (body_total_reached_empty st r j total rows expected
                Hsrv Hv Hnum Hnz Hreach Hnext)
      as (st1 & Hb & Hd & Ht & _ & Hposts & Hsleeps).
    rewrite (crawl_loop_break cfg srv fuel st st1 Hb).
    destruct (finish_number cfg st1 expected) as [msgs Hf]; [now rewrite Ht |].
    exists (logged msgs st1). rewrite Hf, Hd, Ht, posts_logged, sleeps_logged.
    replace (995 * expected <=? 1000 * Z.of_nat (List.length (all_data st ++ rows)))%Z
      with true by (symmetry; apply Z.leb_le; lia).
    repeat split; auto.
  - destruct (body_total_reached_more st r j total rows expected
                Hsrv Hv Hnum Hnz Hreach Hnext)
      as (st1 & Hb & Hd & Ht & Hp & _ & _ & Hposts & Hsleeps).
    exists st1. rewrite (crawl_loop_continue cfg srv fuel st st1 Hb). auto 10.
Qed.

End Reached.

(** Two rows are announced and page 2 still has one: page 2 is requested
    twice, once to look and once to collect, and its row is returned. *)
Example more_than_announced_collected :
  exists st,
    crawl_data default_config more_than_announced 3 =
    Some (Returned [row 1; row 2; row 3] (JNum 2) true, st) /\
    posts (trace st) = [1; 2; 2; 3]%nat.
Proof. eexists. split; [vm_compute; reflexivity | reflexivity]. Qed.

(** ** The crawler: statements of the specification *)

(** C1 (the code departs from the claim). The claim lets a unit whose
    pages are all empty by structure end after two pages. In the code the
    counter of empty responses is set back to zero before the structure of
    the body is looked at, and the branch for an empty structure stops the
    loop only when rows were collected before. On a server that answers
    every page with the payload key and no row, [crawl_data] (given an API
    key) therefore never returns: whatever the number of iterations allowed, the loop is
    still running. *)
Theorem only_empty_structure_never_returns (cfg : Config) (fuel : nat) :
  has_api_key cfg = true ->
  crawl_data cfg only_empty_structure fuel = None.
Proof.
  intros Hkey. unfold crawl_data. apply empty_structure_forever; [exact Hkey | | reflexivity].
  intros n p. eexists. eexists.
  split; [reflexivity |]. repeat split; reflexivity.
Qed.

Lemma only_empty_structure_never_returns_witness :
  has_api_key default_config = true /\
  crawl_data default_config only_empty_structure 500 = None.
Proof.
  split; [reflexivity |].
  exact (only_empty_structure_never_returns default_config 500 eq_refl).
Defined.

(** C2. When [crawl_data] returns, the third component of its result is
    true exactly when the expected total is unknown ([None]) or the number
    of collected rows is at least [ceil(expected * 0.995)]; for a known
    total this is the same as [collected >= expected * 0.995]. The
    collected rows are the rows returned. *)
Theorem is_complete_iff_threshold (cfg : Config) (srv : server) (fuel : nat)
  (data : list json) (total : json) (flag : bool) (st : cstate) :
  crawl_data cfg srv fuel = Some (Returned data total flag, st) ->
  (flag = true <-> meets_threshold (List.length data) total) /\
  (forall expected,
      as_number total = Ok expected ->
      (flag = true <->
       (inject_Z expected * (995 # 1000) <= inject_Z (Z.of_nat (List.length data)))%Q)) /\
  data = all_data st.
Proof.
  unfold crawl_data. intros H.
  destruct (crawl_loop_returned cfg srv fuel _ _ _ _ _ H) as [st0 Hf].
  destruct (finish_returned cfg st0 _ _ _ _ Hf) as (Hd & Ht & Hnone & Hnum & Hok).
  assert (Hst : all_data st = all_data st0).
  { destruct Hok as [Hn | [z Hz]].
    - rewrite Ht in Hn. rewrite (finish_none cfg st0 Hn) in Hf. congruence.
    - rewrite Ht in Hz. destruct (finish_number cfg st0 z Hz) as [msgs Hm].
      rewrite Hm in Hf. assert (st = logged msgs st0) by congruence. now subst st. }
  split; [| split].
  - split.
    + intros Hflag. destruct Hok as [Hn | [z Hz]]; [now left | right].
      exists z. split; [exact Hz |]. apply threshold_le.
      rewrite (Hnum z Hz) in Hflag. now apply Z.leb_le.
    + intros [Hn | (z & Hz & Hle)]; [now apply Hnone |].
      rewrite (Hnum z Hz). apply Z.leb_le. now apply threshold_le.
  - intros z Hz. rewrite (Hnum z Hz), Z.leb_le.
    unfold Qle, inject_Z, Qmult; cbn [Qnum Qden]. lia.
  - congruence.
Qed.

Lemma is_complete_iff_threshold_witness :
  crawl_data default_config three_rows 4 =
  Some (Returned [row 1; row 2; row 3] (JNum 3) true,
        snd (finish default_config
               (snd (guarded_body default_config three_rows
                       (snd (guarded_body default_config three_rows (enter 0 0 []))))))) /\
  (true = true <-> meets_threshold 3 (JNum 3)).
Proof.
  assert (H : crawl_data default_config three_rows 4 =
              Some (Returned [row 1; row 2; row 3] (JNum 3) true,
                    snd (finish default_config
                           (snd (guarded_body default_config three_rows
                                   (snd (guarded_body default_config three_rows
                                           (enter 0 0 []))))))))
    by (vm_compute; reflexivity).
  split; [exact H |].
  exact (proj1 (is_complete_iff_threshold default_config three_rows 4 _ _ _ _ H)).
Defined.

(** C4 (the code departs from the claim). Once the rows collected reach
    a known total, the claim has the crawler request the next page before
    it ends. The code first computes the progress percentage,
    [len(all_data) / total_count * 100]; with a total of zero this raises
    [ZeroDivisionError], which the [except Exception] clause answers as it
    answers a failure: the unit is retried from page 1 and, when the
    retries are used up, the loop ends. Here page 1 announces zero rows
    and carries one: page 2 is never requested. *)
Theorem zero_total_never_probes (extra : nat) :
  exists st,
    crawl_data default_config zero_total (4 + extra) =
    Some (Returned [row 1] (JNum 0) true, st) /\
    posts (trace st) = [1; 1; 1; 1]%nat /\
    sleeps (trace st) = [5; 5; 5]%Z /\
    In (Log (UnexpectedError ZeroDivisionError)) (trace st).
Proof.
  eexists. split; [vm_compute; reflexivity |].
  repeat split; try reflexivity. cbn. tauto.
Qed.


Lemma after_first_page_head (srv : server) :
  fst (guarded_body small_pages srv (enter 0 0 [])) = inl tt ->
  at_loop_head small_pages srv (after_first_page srv).
Proof.
  intros H. apply head_next with (st := enter 0 0 []); [constructor |].
  unfold after_first_page.
  destruct (guarded_body small_pages srv (enter 0 0 [])) as [o s].
  cbn in *. now subst o.
Defined.




(** C10. Let a parsed body be a dict whose ['QWGJK'] value is a list, and
    let [is_empty_response] answer [False] on it. Then an element of the
    list is a dict with a truthy ['row']; the list has a first element;
    and the rows extracted from the body, when the extraction succeeds, are
    not empty. As a consequence no iteration of the loop, on any server
    and in any state, takes one of the branches written for a page without
    rows: the log lines "No data found in response", "... with no more
    data on current page" and "Multiple empty pages received" are never
    written, and appear in the trace of no crawl. *)
Theorem nonempty_page_has_rows (members : list (string * json)) (items : list json) :
  lookup "QWGJK" members = Some (JList items) ->
  is_empty_response (JDict members) = Ok false ->
  (exists item ms v,
      In item items /\ item = JDict ms /\
      lookup "row" ms = Some v /\ truthy v = true) /\
  (exists first, py_first (JList items) = Ok first) /\
  (forall rows, row_data_of (JDict members) = Ok rows -> rows <> []) /\
  (forall cfg srv st sig st',
      never_rowless (trace st) ->
      guarded_body cfg srv st = (sig, st') -> never_rowless (trace st')) /\
  (forall cfg srv fuel o st,
      crawl_data cfg srv fuel = Some (o, st) -> never_rowless (trace st)).
Proof.
  intros Hl He.
  assert (Hin : py_in "QWGJK" (JDict members) = Ok true) by (cbn; now rewrite Hl).
  destruct (not_empty_inversion _ He Hin)
    as (ms' & payload & items' & Hj & Hl' & Ht & Hi & Ha).
  assert (ms' = members) by congruence. subst ms'.
  assert (payload = JList items) by congruence. subst payload.
  cbn in Hi. assert (items' = items) by congruence. subst items'.
  repeat split.
  - exact (all_no_row_false_witness items Ha).
  - destruct items as [| first rest]; [discriminate |]. now exists first.
  - intros rows Hrows ->.
    pose proof (not_empty_rows _ [] He Hin Hrows). discriminate.
  - intros cfg srv st sig st' Hst Hb.
    pose proof (quiet_guarded_body cfg srv st Hst) as Hq. rewrite Hb in Hq.
    now destruct sig.
  - intros cfg srv fuel o st Hc.
    apply (quiet_crawl_loop cfg srv fuel (enter 0 0 []) o st); [| exact Hc].
    exact never_rowless_nil.
Qed.

Lemma nonempty_page_has_rows_witness :
  is_empty_response (JDict [("QWGJK", JList [JDict [("row", JList [row 1])]])]) = Ok false /\
  exists first, py_first (JList [JDict [("row", JList [row 1])]]) = Ok first.
Proof.
  split; [reflexivity |].
  exact (proj1 (proj2 (nonempty_page_has_rows
                         [("QWGJK", JList [JDict [("row", JList [row 1])]])]
                         [JDict [("row", JList [row 1])]] eq_refl eq_refl))).
Defined.

(** ** The orchestrator *)

Lemma success_rate_ok (n : nat) (total : json) :
  count_ok total -> exists q, success_rate n total = Ok q.
Proof.
  intros Hok. unfold success_rate. destruct (truthy total) eqn:Ht; [| now eexists].
  destruct Hok as [-> | [z Hz]]; [discriminate |].
  rewrite (percentage_number n total z Hz); [now eexists |].
  destruct total as [| b | k | | |]; cbn in Hz, Ht; try discriminate.
  - destruct b; [| discriminate]. intros ->. discriminate.
  - apply negb_true_iff, Z.eqb_neq in Ht. congruence.
Qed.

Lemma keeps_ret {S X A} (I : S -> Prop) (a : A) : keeps I (ret a : SM S X A).
Proof. apply triple_ret. auto. Qed.

Lemma keeps_leave {S X A} (I : S -> Prop) (x : X) : keeps I (leave x : SM S X A).
Proof. apply triple_leave. auto. Qed.

Lemma keeps_get {S X A} (I : S -> Prop) (f : S -> A) : keeps I (get f : SM S X A).
Proof. apply triple_get. auto. Qed.

Lemma keeps_bind {S X A B} (I : S -> Prop) (m : SM S X A) (k : A -> SM S X B) :
  keeps I m -> (forall a, keeps I (k a)) -> keeps I (bind m k).
Proof. intros Hm Hk. eapply triple_bind; [exact Hm | exact Hk]. Qed.

Lemma keeps_for_each {S X A} (I : S -> Prop) (l : list A) (body : A -> SM S X unit) :
  (forall a, keeps I (body a)) -> keeps I (for_each l body).
Proof. intros Hb. apply triple_for_each. intros a _. apply Hb. Qed.

Lemma keeps_raising {A} (I : mstate -> Prop) (r : res A) : keeps I (raising r).
Proof. intros st Hst. unfold raising. destruct r; exact Hst. Qed.

Section Ledger.
Variable crawl : Z -> date -> option outcome.
Variable now : nat -> string.

(** *** The range scan *)

Lemma scan_unit_keeps ledger (year : Z) (d : date) :
  keeps (scan_inv crawl ledger) (scan_unit crawl now year d).
Proof.
  intros st [Hl Hf]. unfold scan_unit, bind, call_crawl.
  destruct (crawl year d) as [[data total c | e] |] eqn:Hc; cbn; try (split; assumption).
  unfold raising. destruct (success_rate (List.length data) total); cbn;
    [| split; assumption].
  destruct c; cbn; [split; assumption |].
  destruct (is_none total) eqn:Hn; cbn; [split; assumption |].
  destruct (List.length data) as [| n] eqn:Hlen; cbn; [split; assumption |].
  split; [assumption |]. apply Forall_app. split; [assumption |].
  constructor; [| constructor].
  exists data, total. cbn. rewrite Hlen. repeat split; auto; try lia.
  intros ->. discriminate.
Qed.

Lemma walk_days_keeps ledger (fuel : nat) :
  forall year current_date end_date,
    keeps (scan_inv crawl ledger) (walk_days crawl now fuel year current_date end_date).
Proof.
  induction fuel as [| fuel IH]; intros year c e; cbn [walk_days].
  - apply keeps_leave.
  - destruct (date_leb c e); [| apply keeps_ret].
    apply keeps_bind; [apply scan_unit_keeps | intros _].
    apply keeps_bind; [apply keeps_raising | intros next]. apply IH.
Qed.

(** The walk over the days of a year stops by itself. *)
Lemma monthrange_days_bound (year month dim : Z) :
  monthrange_days year month = Ok dim -> (28 <= dim <= 31)%Z /\ (1 <= month <= 12)%Z.
Proof.
  unfold monthrange_days.
  destruct ((1 <=? month) && (month <=? 12))%Z eqn:Hm; [| discriminate].
  apply andb_true_iff in Hm. destruct Hm as [H1 H2].
  apply Z.leb_le in H1, H2. intros H. injection H as <-.
  assert (Hcases : (month = 1 \/ month = 2 \/ month = 3 \/ month = 4 \/ month = 5 \/
                    month = 6 \/ month = 7 \/ month = 8 \/ month = 9 \/ month = 10 \/
                    month = 11 \/ month = 12)%Z) by lia.
  split; [| lia]. clear H1 H2.
  destruct (isleap year);
    repeat (destruct Hcases as [-> | Hcases];
            [vm_compute; split; intros Hx; discriminate Hx |]);
    subst; vm_compute; split; intros Hx; discriminate Hx.
Qed.

Lemma scan_unit_no_hang (year : Z) (d : date) (st : mstate) :
  (forall y d', crawl y d' <> None) ->
  fst (scan_unit crawl now year d st) <> inr Hang.
Proof.
  intros Hc. unfold scan_unit, bind, call_crawl.
  destruct (crawl year d) as [[data total c | e] |] eqn:Hcr; cbn;
    [| discriminate | now destruct (Hc year d)].
  unfold raising. destruct (success_rate (List.length data) total); cbn; [| discriminate].
  match goal with
  | |- context [if ?b then _ else _] => destruct b
  end; cbn; discriminate.
Qed.

Lemma walk_days_no_hang (fuel : nat) :
  (forall y d, crawl y d <> None) ->
  forall year c e st,
    (1 <= day_of e <= 31)%Z ->
    fuel_for fuel c e ->
    fst (walk_days crawl now fuel year c e st) <> inr Hang.
Proof.
  intros Hc. induction fuel as [| fuel IH]; intros year c e st He (Hy & Hd & H1 & Hr).
  - cbn in H1. lia.
  - cbn [walk_days]. destruct (date_leb c e) eqn:Hle; [| cbn; discriminate].
    unfold bind at 1.
    pose proof (scan_unit_no_hang year c st Hc) as Hs.
    destruct (scan_unit crawl now year c st) as [[u | x] st1]; cbn in Hs;
      [| cbn; congruence].
    unfold bind at 1. unfold raising, next_day.
    destruct (monthrange_days (year_of c) (month_of c)) as [dim | ex] eqn:Hdim;
      cbn [rbind]; [| cbn; discriminate].
    destruct (monthrange_days_bound _ _ _ Hdim) as [Hb Hm].
    assert (Hsame : year_of c = year_of e /\ (rank c <= rank e)%Z).
    { unfold date_leb in Hle. unfold rank.
      apply orb_true_iff in Hle. destruct Hle as [Hlt | Heq].
      - apply Z.ltb_lt in Hlt. lia.
      - apply andb_true_iff in Heq. destruct Heq as [Hye Hrest].
        apply Z.eqb_eq in Hye. split; [exact Hye |].
        apply orb_true_iff in Hrest. destruct Hrest as [Hlt | Heq].
        + apply Z.ltb_lt in Hlt. lia.
        + apply andb_true_iff in Heq. destruct Heq as [Hme Hde].
          apply Z.eqb_eq in Hme. apply Z.leb_le in Hde. lia. }
    destruct Hsame as [Hyy Hrank]. specialize (Hr Hyy).
    destruct (day_of c <? dim)%Z eqn:Hday.
    + apply Z.ltb_lt in Hday. apply IH; [exact He |].
      unfold fuel_for, rank in *. cbn [year_of month_of day_of].
      repeat split; try lia.
    + destruct (month_of c <? 12)%Z eqn:Hmonth.
      * apply Z.ltb_lt in Hmonth. apply IH; [exact He |].
        unfold fuel_for, rank in *. cbn [year_of month_of day_of].
      repeat split; try lia.
      * destruct (year_of c <? 9999)%Z; [| cbn; discriminate].
        apply IH; [exact He |].
        unfold fuel_for, rank in *. cbn [year_of month_of day_of].
      repeat split; try lia.
Qed.

Lemma datetime_fields (year month day : Z) (d : date) :
  datetime year month day = Ok d ->
  year_of d = year /\ month_of d = month /\ day_of d = day /\
  (1 <= month <= 12)%Z /\ (1 <= day <= 31)%Z.
Proof.
  unfold datetime. destruct ((1 <=? year) && (year <=? 9999))%Z; [| discriminate].
  destruct (monthrange_days year month) as [dim | e] eqn:Hdim; cbn [rbind]; [| discriminate].
  destruct (monthrange_days_bound _ _ _ Hdim) as [Hb Hm].
  destruct ((1 <=? day) && (day <=? dim))%Z eqn:Hday; [| discriminate].
  apply andb_true_iff in Hday. destruct Hday as [H1 H2]. apply Z.leb_le in H1, H2.
  intros H. injection H as <-. cbn. repeat split; lia.
Qed.

(** Scanning a year ends, unless a crawl does not. *)
Lemma scan_year_no_hang (all_days : bool) (sy ey sm em year : Z) (st : mstate) :
  (forall y d, crawl y d <> None) ->
  fst (scan_year crawl now all_days sy ey sm em year st) <> inr Hang.
Proof.
  intros Hc. unfold scan_year. destruct all_days.
  - unfold bind at 1. unfold raising at 1.
    destruct (datetime year _ 1) as [c | e] eqn:Hstart; [| cbn; discriminate].
    unfold bind at 1. unfold raising at 1.
    destruct (monthrange_days year _) as [last_day | e]; [| cbn; discriminate].
    unfold bind at 1. unfold raising at 1.
    destruct (datetime year _ last_day) as [e |] eqn:Hend; [| cbn; discriminate].
    destruct (datetime_fields _ _ _ _ Hstart) as (Hy1 & Hm1 & Hd1 & Hmb1 & _).
    destruct (datetime_fields _ _ _ _ Hend) as (Hy2 & Hm2 & Hd2 & Hmb2 & Hdb2).
    apply walk_days_no_hang; [exact Hc | lia |].
    unfold fuel_for, rank. repeat split; try lia.
  - match goal with
    | |- context [for_each ?l ?body st] => generalize l
    end.
    intros months. revert st. induction months as [| m rest IH]; intros st; cbn [for_each].
    + cbn. discriminate.
    + unfold bind at 1. unfold bind at 1. unfold raising at 1.
      destruct (get_last_day_of_month year m) as [d | e]; [| cbn; discriminate].
      pose proof (scan_unit_no_hang year d st Hc) as Hs.
      destruct (scan_unit crawl now year d st) as [[u | x] st1]; cbn in Hs;
        [apply IH | cbn; congruence].
Qed.

Lemma scan_year_keeps ledger (all_days : bool) (sy ey sm em year : Z) :
  keeps (scan_inv crawl ledger) (scan_year crawl now all_days sy ey sm em year).
Proof.
  unfold scan_year. destruct all_days.
  - repeat (apply keeps_bind; [apply keeps_raising | intros ?]).
    apply walk_days_keeps.
  - apply keeps_for_each. intros month.
    apply keeps_bind; [apply keeps_raising | intros d]. apply scan_unit_keeps.
Qed.

(** *** One unit, when the crawl returns *)

Lemma scan_unit_returns (year : Z) (d : date) (st : mstate) :
  returns_always crawl ->
  exists st',
    scan_unit crawl now year d st = (inl tt, st') /\
    calls st' = calls st ++ [(year, d)] /\
    ledger_file st' = ledger_file st.
Proof.
  intros Hc. destruct (Hc year d) as (data & total & c & Hcr & Hok).
  destruct (success_rate_ok (List.length data) total Hok) as [q Hq].
  unfold scan_unit, bind, call_crawl. rewrite Hcr. cbn.
  unfold raising. rewrite Hq. cbn.
  match goal with
  | |- context [if ?b then _ else _] => destruct b
  end; cbn; eexists; (split; [reflexivity |]); cbn; auto.
Qed.

(** A unit whose crawl is complete is recorded in no mode. *)
Lemma complete_unit_not_recorded (year : Z) (d : date) (item : IncompleteRecord)
  (data : list json) (total : json) (st : mstate) :
  crawl year d = Some (Returned data total true) ->
  crawl (r_year item) (r_date item) = Some (Returned data total true) ->
  year_of d = year ->
  new_incomplete_dates (snd (scan_unit crawl now year d st)) = new_incomplete_dates st /\
  new_incomplete_dates (snd (retry_item crawl now item st)) = new_incomplete_dates st /\
  new_incomplete_dates (snd (specific_date_mode crawl now d st)) = new_incomplete_dates st.
Proof.
  intros Hc Hi Hy. repeat split.
  - unfold scan_unit, bind, call_crawl. rewrite Hc. cbn.
    unfold raising. destruct (success_rate (List.length data) total); reflexivity.
  - unfold retry_item, bind, call_crawl. rewrite Hi. cbn.
    unfold raising. destruct (success_rate (List.length data) total); reflexivity.
  - unfold specific_date_mode, bind, call_crawl. rewrite Hy, Hc. cbn.
    unfold raising. destruct (success_rate (List.length data) total); reflexivity.
Qed.

(** *** The retry mode *)

Lemma retry_items (items : list IncompleteRecord) :
  forall st res st',
    for_each items (retry_item crawl now) st = (res, st') ->
    ledger_file st' = ledger_file st /\
    (forall code, res <> inr (Exit code)) /\
    (res = inl tt ->
     new_incomplete_dates st' =
     new_incomplete_dates st ++ retry_ledger crawl now (List.length (calls st)) items).
Proof.
  induction items as [| item rest IH]; intros st res st'; cbn [for_each retry_ledger].
  - unfold ret. intros H. injection H as <- <-. rewrite app_nil_r.
    repeat split; auto; discriminate.
  - unfold bind at 1. unfold retry_item at 1. unfold bind at 1. unfold call_crawl.
    destruct (crawl (r_year item) (r_date item)) as [[data total c | e] |];
      try (intros H; injection H as <- <-; repeat split; discriminate).
    cbv beta iota. unfold bind at 1. unfold raising.
    destruct (success_rate (List.length data) total);
      [| intros H; injection H as <- <-; repeat split; discriminate].
    destruct c; cbn [negb].
    + unfold ret at 1. intros H. apply IH in H. cbn in H.
      rewrite length_app, Nat.add_1_r in H. exact H.
    + unfold bind at 1. unfold timestamp, get, append_incomplete.
      cbv beta iota. intros H. apply IH in H. cbn in H.
      rewrite length_app, Nat.add_1_r in H. destruct H as (H1 & H2 & H3).
      repeat split; auto. intros Hr. rewrite (H3 Hr), <- app_assoc. reflexivity.
Qed.

Lemma retry_ledger_sound (k : nat) (items : list IncompleteRecord) (r : IncompleteRecord) :
  In r (retry_ledger crawl now k items) ->
  exists item data total,
    In item items /\
    crawl (r_year item) (r_date item) = Some (Returned data total false) /\
    r_year r = r_year item /\ r_date r = r_date item /\
    r_expected r = total /\ r_collected r = List.length data /\
    r_previous_attempts r =
    Some (match r_previous_attempts item with Some n => n | None => 0 end + 1)%nat.
Proof.
  revert k. induction items as [| item rest IH]; intros k; cbn [retry_ledger]; [intros [] |].
  intros Hin. apply in_app_or in Hin. destruct Hin as [Hin | Hin].
  - destruct (crawl (r_year item) (r_date item)) as [[data total [|] | e] |] eqn:Hc;
      try contradiction.
    destruct Hin as [<- | []]. exists item, data, total. cbn. auto 10.
  - destruct (IH _ Hin) as (it & data & total & Hi & Hrest).
    exists it, data, total. split; [now right | exact Hrest].
Qed.

Lemma retry_ledger_complete (k : nat) (items : list IncompleteRecord)
  (item : IncompleteRecord) (data : list json) (total : json) :
  In item items ->
  crawl (r_year item) (r_date item) = Some (Returned data total false) ->
  exists r,
    In r (retry_ledger crawl now k items) /\
    r_year r = r_year item /\ r_date r = r_date item /\
    r_collected r = List.length data.
Proof.
  revert k. induction items as [| it rest IH]; intros k; [intros [] |].
  intros [-> | Hin] Hc; cbn [retry_ledger].
  - rewrite Hc. eexists. split; [left; reflexivity |]. cbn. auto.
  - destruct (IH (S k) Hin Hc) as (r & Hr & Hrest).
    exists r. split; [apply in_or_app; now right | exact Hrest].
Qed.

(** *** The month-end loop, when every crawl returns *)

Lemma month_loop (year : Z) (months : list Z) :
  returns_always crawl ->
  forall st,
    (forall m, In m months -> exists d, get_last_day_of_month year m = Ok d) ->
    exists st',
      for_each months
        (fun month =>
           bind (raising (get_last_day_of_month year month))
             (fun current_date => scan_unit crawl now year current_date)) st =
      (inl tt, st') /\
      calls st' =
      calls st ++
      flat_map (fun m => match get_last_day_of_month year m with
                         | Ok d => [(year, d)]
                         | Raise _ => []
                         end) months /\
      ledger_file st' = ledger_file st.
Proof.
  intros Hc. induction months as [| m rest IH]; intros st Hm; cbn [for_each flat_map].
  - exists st. now rewrite app_nil_r.
  - destruct (Hm m (or_introl eq_refl)) as [d Hd].
    unfold bind at 1. unfold bind at 1. rewrite Hd. unfold raising at 1.
    destruct (scan_unit_returns year d st Hc) as (st1 & Hs & Hcalls & Hl).
    rewrite Hs.
    destruct (IH st1) as (st2 & Hf & Hcalls2 & Hl2).
    { intros m' Hin. apply Hm. now right. }
    exists st2. rewrite Hf, Hcalls2, Hcalls, Hl2, Hl, <- app_assoc.
    repeat split; reflexivity.
Qed.

Section Modes.
Variable cfg : Config.

Lemma range_tail (years : list Z) (all_days : bool) (sy ey sm em : Z)
  (ledger : option (list IncompleteRecord)) res st' :
  bind (for_each years (scan_year crawl now all_days sy ey sm em))
    (fun _ =>
       bind (if nonempty years then ret tt else leave (Uncaught UnboundLocalError))
         (fun _ =>
            bind (get new_incomplete_dates)
              (fun nid => if nonempty nid then save_incomplete_dates nid else ret tt)))
    {| new_incomplete_dates := []; ledger_file := ledger; calls := [] |} = (res, st') ->
  Forall (recorded_by_scan crawl) (new_incomplete_dates st') /\
  ledger_file st' =
  match res with
  | inl _ =>
      if nonempty (new_incomplete_dates st') then Some (new_incomplete_dates st')
      else ledger
  | inr _ => ledger
  end.
Proof.
  unfold bind at 1.
  match goal with
  | |- context [for_each ?l ?body ?s] =>
      pose proof (keeps_for_each (scan_inv crawl ledger) l body
                    (fun year => scan_year_keeps ledger _ _ _ _ _ year) s
                    (conj eq_refl (Forall_nil _))) as Hk;
      destruct (for_each l body s) as [[u | x] st1]
  end.
  - destruct Hk as [Hl Hf].
    unfold bind, get, save_incomplete_dates, ret, leave.
    destruct (nonempty years);
      [| intros H; injection H as <- <-; auto].
    destruct (nonempty (new_incomplete_dates st1)) eqn:Hne;
      intros H; injection H as <- <-; cbn; rewrite Hne; auto.
  - destruct Hk as [Hl Hf]. intros H. injection H as <- <-. auto.
Qed.

Lemma range_mode (args : Args) (ledger : option (list IncompleteRecord)) res st' :
  range_run args ledger ->
  run cfg crawl now args ledger = (res, st') ->
  Forall (recorded_by_scan crawl) (new_incomplete_dates st') /\
  ledger_file st' =
  match res with
  | inl _ =>
      if nonempty (new_incomplete_dates st') then Some (new_incomplete_dates st')
      else ledger
  | inr _ => ledger
  end.
Proof.
  intros [Hdate Hretry]. unfold run, main. cbv zeta.
  unfold bind at 1. unfold load_incomplete_dates, get. cbv beta iota.
  cbn [ledger_file].
  unfold bind at 1.
  destruct (has_api_key cfg).
  2: { unfold leave. intros H. injection H as <- <-. cbn. auto. }
  unfold ret at 1. unfold bind at 1. rewrite Hdate. unfold ret at 1.
  unfold bind at 1.
  assert (Hr : arg_retry_incomplete args = false \/
               match ledger with Some l => l | None => [] end = []).
  { destruct Hretry as [Hr | [-> | ->]]; auto. }
  destruct (arg_retry_incomplete args).
  - destruct Hr as [Hr | Hr]; [discriminate |].
    rewrite Hr. unfold retry_mode. cbn [nonempty]. unfold ret at 1.
    apply range_tail.
  - unfold ret at 1. apply range_tail.
Qed.

Lemma specific_mode (args : Args) (ledger : option (list IncompleteRecord))
  (d : date) :
  arg_date args = Some d ->
  ledger_file (snd (run cfg crawl now args ledger)) = ledger.
Proof.
  intros Hdate. unfold run, main. cbv zeta.
  unfold bind at 1. unfold load_incomplete_dates, get. cbv beta iota.
  unfold bind at 1.
  destruct (has_api_key cfg); [| reflexivity].
  unfold ret at 1. unfold bind at 1. rewrite Hdate.
  unfold specific_date_mode, bind, call_crawl. cbn [ledger_file new_incomplete_dates calls].
  destruct (crawl (year_of d) d) as [[data total c | e] |]; try reflexivity.
  unfold raising. destruct (success_rate (List.length data) total); [| reflexivity].
  destruct c; reflexivity.
Qed.

Lemma retry_mode_run (args : Args) (item : IncompleteRecord)
  (rest : list IncompleteRecord) res st' :
  arg_date args = None ->
  arg_retry_incomplete args = true ->
  run cfg crawl now args (Some (item :: rest)) = (res, st') ->
  match res with
  | inr (Exit _) => ledger_file st' = Some (retry_ledger crawl now 0 (item :: rest))
  | _ => ledger_file st' = Some (item :: rest)
  end.
Proof.
  intros Hdate Hretry. unfold run, main. cbv zeta.
  unfold bind at 1. unfold load_incomplete_dates, get. cbv beta iota.
  cbn [ledger_file].
  unfold bind at 1.
  destruct (has_api_key cfg).
  2: { unfold leave. intros H. injection H as <- <-. reflexivity. }
  unfold ret at 1. unfold bind at 1. rewrite Hdate. unfold ret at 1.
  unfold bind at 1. rewrite Hretry. unfold retry_mode. cbn [nonempty].
  unfold bind at 1.
  destruct (for_each (item :: rest) (retry_item crawl now)
              {| new_incomplete_dates := []; ledger_file := Some (item :: rest);
                 calls := [] |}) as [r1 st1] eqn:Hf.
  destruct (retry_items (item :: rest) _ _ _ Hf) as (Hl & Hx & Hn).
  destruct r1 as [[] | x].
  - unfold bind, get, save_incomplete_dates, leave.
    intros H. injection H as <- <-. cbn. now rewrite (Hn eq_refl).
  - intros H. injection H as <- <-.
    destruct x as [code | e |]; [now destruct (Hx code) | exact Hl | exact Hl].
Qed.

End Modes.

End Ledger.

(** ** The orchestrator and the ledger: statements of the specification *)

(** C3, as the specification states it, fails: when every request raises,
    the crawl returns no row and no total, and [is_complete] is then
    [True], not [False] ([True if not total_count or ...]). *)
Lemma all_requests_fail_is_complete :
  (exists st,
      crawl_data default_config unreachable 4 = Some (Returned [] JNull true, st)) /\
  ~ (exists total st,
        crawl_data default_config unreachable 4 = Some (Returned [] total false, st)).
Proof.
  split.
  - eexists. vm_compute. reflexivity.
  - intros (total & st & H). vm_compute in H. discriminate.
Qed.

(** C3, amended. When every request raises a transport error (the
    configured delay and [max_retries] being non-negative), the crawl makes [max_retries + 1] requests, all
    for page 1, sleeping [api_retry_delay] before each of the [max_retries]
    retries; it returns no row, no total, and [is_complete = True]. Such a
    unit is recorded as incomplete in no mode of the orchestrator. *)
Theorem all_requests_fail_result (cfg : Config) (srv : server) (extra : nat) :
  has_api_key cfg = true ->
  (0 <= api_retry_delay cfg)%Z ->
  (0 <= api_max_retries cfg)%Z ->
  (forall n p, srv n p = ConnectionFailed) ->
  let retries := Z.to_nat (api_max_retries cfg) in
  let fuel := S (retries + extra) in
  (exists st,
      crawl_data cfg srv fuel = Some (Returned [] JNull true, st) /\
      retry_count st = retries /\
      requests st = S retries /\
      posts (trace st) = repeat 1%nat (S retries) /\
      sleeps (trace st) = repeat (api_retry_delay cfg) retries) /\
  (forall (world : Z -> date -> server) now year d item ms,
      world year d = srv -> year_of d = year ->
      r_year item = year -> r_date item = d ->
      let crawl := crawler cfg world fuel in
      new_incomplete_dates (snd (scan_unit crawl now year d ms)) =
      new_incomplete_dates ms /\
      new_incomplete_dates (snd (retry_item crawl now item ms)) =
      new_incomplete_dates ms /\
      new_incomplete_dates (snd (specific_date_mode crawl now d ms)) =
      new_incomplete_dates ms).
Proof.
  intros Hkey Hdelay Hmax Hsrv retries fuel.
  destruct (all_requests_fail cfg srv Hkey Hdelay retries Hsrv 0 0 [] extra) as (st & Hc & H1 & H2 & H3 & H4).
  { cbn [Z.of_nat]. unfold retries. rewrite Z2Nat.id; lia. }
  split.
  - exists st. unfold crawl_data, fuel. rewrite Hc. repeat split; auto.
  - intros world now year d item ms Hw Hy Hiy Hid crawl.
    assert (Hcr : crawl year d = Some (Returned [] JNull true)).
    { unfold crawl, crawler, crawl_data, fuel. rewrite Hw, Hc. reflexivity. }
    apply (complete_unit_not_recorded crawl now year d item [] JNull ms); auto.
    now rewrite Hiy, Hid.
Qed.

Lemma all_requests_fail_result_witness :
  has_api_key default_config = true /\
  (0 <= api_retry_delay default_config)%Z /\
  (0 <= api_max_retries default_config)%Z /\
  (forall n p, unreachable n p = ConnectionFailed) /\
  exists st,
    crawl_data default_config unreachable 4 = Some (Returned [] JNull true, st) /\
    retry_count st = 3%nat /\
    requests st = 4%nat /\
    posts (trace st) = [1; 1; 1; 1]%nat /\
    sleeps (trace st) = [5; 5; 5]%Z.
Proof.
  assert (Hd : (0 <= api_retry_delay default_config)%Z) by (cbn; lia).
  assert (H0 : (0 <= api_max_retries default_config)%Z) by (cbn; lia).
  assert (H1 : forall n p, unreachable n p = ConnectionFailed) by reflexivity.
  split; [reflexivity |]. split; [exact Hd |]. split; [exact H0 |]. split; [exact H1 |].
  exact (proj1 (all_requests_fail_result default_config unreachable 0 eq_refl Hd H0 H1)).
Defined.




(** C7, as the specification states it, fails for a range scan: the
    ledger file is written only when the run found an incomplete unit.
    Here the ledger holds the end of January 2023; the run over 2023
    crawls that date, collects every unit in full, and leaves the record in
    the ledger. *)
Lemma completed_date_stays_in_ledger :
  In (2023%Z, r_date january_2023)
    (calls (snd (run default_config collects_all clock year_2023 (Some [january_2023])))) /\
  collects_all 2023 (r_date january_2023) = Some (Returned [row 1] JNull true) /\
  fst (run default_config collects_all clock year_2023 (Some [january_2023])) = inl tt /\
  new_incomplete_dates
    (snd (run default_config collects_all clock year_2023 (Some [january_2023]))) = [] /\
  ledger_file
    (snd (run default_config collects_all clock year_2023 (Some [january_2023]))) =
  Some [january_2023].
Proof.
  split; [vm_compute; tauto |]. repeat split; vm_compute; reflexivity.
Qed.

(** C7, amended. In the retry mode (a ledger with at least one record),
    a run that reaches its end overwrites the ledger file with one record
    per unit that is still incomplete, [previous_attempts] incremented; a
    unit collected to completion has no record left. A range scan that
    reaches its end overwrites the ledger file with the records of this
    run when there is at least one, and leaves the file as it was when
    there is none. With [--date] the file is left as it was. *)
Theorem ledger_after_run (cfg : Config) (crawl : Z -> date -> option outcome)
  (now : nat -> string) (args : Args) (ledger : option (list IncompleteRecord))
  (res : unit + halt) (st' : mstate) :
  run cfg crawl now args ledger = (res, st') ->
  (forall item rest,
      arg_date args = None -> arg_retry_incomplete args = true ->
      ledger = Some (item :: rest) -> res = inr (Exit 0) ->
      ledger_file st' = Some (retry_ledger crawl now 0 (item :: rest)) /\
      (forall r, In r (retry_ledger crawl now 0 (item :: rest)) ->
         exists it data total,
           In it (item :: rest) /\
           crawl (r_year it) (r_date it) = Some (Returned data total false) /\
           r_year r = r_year it /\ r_date r = r_date it /\
           r_previous_attempts r =
           Some (match r_previous_attempts it with Some n => n | None => 0 end + 1)%nat) /\
      (forall it data total,
          In it (item :: rest) ->
          crawl (r_year it) (r_date it) = Some (Returned data total true) ->
          ~ exists r,
              In r (retry_ledger crawl now 0 (item :: rest)) /\
              r_year r = r_year it /\ r_date r = r_date it)) /\
  (range_run args ledger -> res = inl tt ->
   ledger_file st' =
   if nonempty (new_incomplete_dates st') then Some (new_incomplete_dates st')
   else ledger) /\
  (forall d, arg_date args = Some d -> ledger_file st' = ledger).
Proof.
  intros Hrun. split; [| split].
  - intros item rest Hd Hr -> ->.
    pose proof (retry_mode_run crawl now cfg args item rest _ _ Hd Hr Hrun) as H.
    cbn in H. split; [exact H |]. split.
    + intros r Hin.
      destruct (retry_ledger_sound crawl now 0 _ r Hin)
        as (it & data & total & H1 & H2 & H3 & H4 & _ & _ & H7).
      exists it, data, total. auto.
    + intros it data total Hin Hc (r & Hr' & Hy & Hdt).
      destruct (retry_ledger_sound crawl now 0 _ r Hr')
        as (it' & data' & total' & _ & H2 & H3 & H4 & _).
      rewrite <- H3, <- H4, Hy, Hdt, Hc in H2. discriminate.
  - intros Hrange ->.
    exact (proj2 (range_mode crawl now cfg args ledger _ st' Hrange Hrun)).
  - intros d Hd. pose proof (specific_mode crawl now cfg args ledger d Hd) as H.
    now rewrite Hrun in H.
Qed.

Lemma ledger_after_run_witness :
  run default_config collects_all clock retry_only (Some [january_2023]) =
  (inr (Exit 0),
   snd (run default_config collects_all clock retry_only (Some [january_2023]))) /\
  ledger_file
    (snd (run default_config collects_all clock retry_only (Some [january_2023]))) =
  Some (retry_ledger collects_all clock 0 [january_2023]) /\
  retry_ledger collects_all clock 0 [january_2023] = [].
Proof.
  assert (H : run default_config collects_all clock retry_only (Some [january_2023]) =
              (inr (Exit 0),
               snd (run default_config collects_all clock retry_only (Some [january_2023]))))
    by (vm_compute; reflexivity).
  split; [exact H |]. split; [| reflexivity].
  exact (proj1 (proj1 (ledger_after_run default_config collects_all clock retry_only
                         (Some [january_2023]) _ _ H)
                  january_2023 [] eq_refl eq_refl eq_refl eq_refl)).
Defined.


(** ** Responses without rows *)

Section Empty.
Variable cfg : Config.
Variable srv : server.
Hypothesis Hkey : has_api_key cfg = true.

(** The loop ends: what the code after the loop returns. *)
Lemma break_returns (fuel : nat) (st st1 : cstate) :
  guarded_body cfg srv st = (inr Break, st1) ->
  count_ok (total_count st1) ->
  exists flag msgs,
    crawl_loop cfg srv (S fuel) st =
    Some (Returned (all_data st1) (total_count st1) flag, logged msgs st1).
Proof.
  intros Hb Hok. rewrite (crawl_loop_break cfg srv fuel st st1 Hb).
  destruct (finish_returns cfg st1 Hok) as (flag & msgs & Hf).
  exists flag, msgs. now rewrite Hf.
Qed.

Lemma empty_text_step (st : cstate) :
  answers_empty_text (srv (requests st) (page st)) ->
  exists st1,
    guarded_body cfg srv st =
    (inr (if (1 <=? empty_response_count st)%nat then Break else Continue), st1) /\
    all_data st1 = all_data st /\ total_count st1 = total_count st /\
    retry_count st1 = retry_count st /\ requests st1 = S (requests st) /\
    empty_response_count st1 = (empty_response_count st + 1)%nat /\
    page st1 = (if (1 <=? empty_response_count st)%nat then page st else page st + 1)%nat /\
    posts (trace st1) = posts (trace st) ++ [page st] /\
    sleeps (trace st1) =
    sleeps (trace st) ++ (if (1 <=? empty_response_count st)%nat then [] else [1%Z]).
Proof.
  intros (r & Hsrv & Hcode & Ht).
  rewrite (body_empty_text cfg srv Hkey st r Hsrv Hcode Ht).
  replace (2 <=? empty_response_count st + 1)%nat with (1 <=? empty_response_count st)%nat
    by (destruct (empty_response_count st) as [| [| c]]; reflexivity).
  destruct (1 <=? empty_response_count st)%nat; eexists; (split; [reflexivity |]);
    cbn; rewrite posts_app, sleeps_app; cbn; rewrite ?app_nil_r; repeat split; reflexivity.
Qed.

(** Two responses with an empty text in a row. *)
Lemma empty_texts_break (fuel : nat) (st : cstate) :
  count_ok (total_count st) ->
  answers_empty_text (srv (requests st) (page st)) ->
  answers_empty_text (srv (S (requests st)) (page st + 1)) ->
  let k := if (1 <=? empty_response_count st)%nat then 1%nat else 2%nat in
  exists flag st',
    crawl_loop cfg srv (S (S fuel)) st =
    Some (Returned (all_data st) (total_count st) flag, st') /\
    (total_count st = JNull -> flag = true) /\
    (forall expected,
        as_number (total_count st) = Ok expected ->
        flag = (995 * expected <=? 1000 * Z.of_nat (List.length (all_data st)))%Z) /\
    posts (trace st') = posts (trace st) ++ firstn k [page st; (page st + 1)%nat] /\
    sleeps (trace st') = sleeps (trace st) ++ repeat 1%Z (k - 1) /\
    retry_count st' = retry_count st.
Proof.
  intros Hok H1 H2 k.
  destruct (empty_text_step st H1)
    as (st1 & Hb & Hd & Ht & Hr & Hn & Hc & Hp & Hposts & Hsleeps).
  unfold k. destruct (1 <=? empty_response_count st)%nat eqn:Hcount.
  - destruct (break_returns (S fuel) st st1 Hb) as (flag & msgs & Hf);
      [now rewrite Ht |].
    pose proof Hf as Hf'. rewrite (crawl_loop_break cfg srv (S fuel) st st1 Hb) in Hf'.
    assert (Hfin : finish cfg st1 =
                   (Returned (all_data st1) (total_count st1) flag, logged msgs st1))
      by congruence.
    destruct (finish_returned cfg st1 _ _ _ _ Hfin) as (_ & _ & Hnone & Hnum & _).
    exists flag, (logged msgs st1). rewrite Hf, Hd, Ht, posts_logged, sleeps_logged.
    change (retry_count (logged msgs st1)) with (retry_count st1).
    rewrite Hposts, Hsleeps, Hr. rewrite Ht, Hd in *. cbn. auto 10.
  - rewrite (crawl_loop_continue cfg srv (S fuel) st st1 Hb).
    rewrite <- Hn, <- Hp in H2.
    destruct (empty_text_step st1 H2)
      as (st2 & Hb2 & Hd2 & Ht2 & Hr2 & Hn2 & Hc2 & Hp2 & Hposts2 & Hsleeps2).
    assert (Hone : (1 <=? empty_response_count st1)%nat = true)
      by (rewrite Hc; apply Nat.leb_le; lia).
    rewrite Hone in *.
    destruct (break_returns fuel st1 st2 Hb2) as (flag & msgs & Hf);
      [now rewrite Ht2, Ht |].
    pose proof Hf as Hf'. rewrite (crawl_loop_break cfg srv fuel st1 st2 Hb2) in Hf'.
    assert (Hfin : finish cfg st2 =
                   (Returned (all_data st2) (total_count st2) flag, logged msgs st2))
      by congruence.
    destruct (finish_returned cfg st2 _ _ _ _ Hfin) as (_ & _ & Hnone & Hnum & _).
    exists flag, (logged msgs st2).
    rewrite Hf, Hd2, Hd, Ht2, Ht, posts_logged, sleeps_logged.
    rewrite Hposts2, Hposts, Hsleeps2, Hsleeps, Hp, <- !app_assoc, app_nil_r.
    change (retry_count (logged msgs st2)) with (retry_count st2).
    rewrite Hr2, Hr. rewrite Ht2, Ht, Hd2, Hd in *. cbn. auto 10.
Qed.

End Empty.

Section Other.
Variable cfg : Config.
Variable srv : server.
Hypothesis Hkey : has_api_key cfg = true.

(** A body that is not empty and has no payload key: [break]. *)
Lemma body_unexpected_structure (st : cstate) (r : response) (j : json) :
  srv (requests st) (page st) = Responded r ->
  status_code r = 200%Z ->
  is_empty_text (strip (text r)) = false ->
  json_body r = Some j ->
  is_empty_response j = Ok false ->
  py_in "QWGJK" j = Ok false ->
  guarded_body cfg srv st =
  (inr Break,
   {| all_data := all_data st; page := page st; total_count := total_count st;
      empty_response_count := 0;
      retry_count := retry_count st; requests := S (requests st);
      trace := trace st ++ [Log (CompleteUrl (page st)); Post (page st);
                            Log UnexpectedStructure] |}).
Proof.
  intros Hsrv Hcode Ht Hj He Hin. run_body. rewrite Hsrv. cbn. rewrite Hcode. cbn.
  rewrite Ht. cbn. rewrite Hj. cbn. rewrite He. cbn. rewrite Hin. cbn.
  now rewrite <- !app_assoc.
Qed.

(** An object with a member and without the payload key is not empty. *)
Lemma other_object_not_empty (k : string) (v : json) (members : list (string * json)) :
  lookup "QWGJK" ((k, v) :: members) = None ->
  is_empty_response (JDict ((k, v) :: members)) = Ok false /\
  py_in "QWGJK" (JDict ((k, v) :: members)) = Ok false.
Proof.
  intros Hl. unfold is_empty_response, py_in.
  cbn [truthy negb is_empty_dict rbind]. now rewrite Hl.
Qed.

End Other.







(** ** Failures of the request for the next page *)

Section Lookahead.
Variable cfg : Config.
Variable srv : server.
Hypothesis Hkey : has_api_key cfg = true.
Hypothesis Hdelay : (0 <= api_retry_delay cfg)%Z.

(** What an [except] clause does after its log line. *)
Lemma handler_runs (m : log_msg) (st : cstate) :
  bind (log m) (fun _ => retry_or_break cfg) st =
  if (Z.of_nat (retry_count st) <? api_max_retries cfg)%Z then
    (inr Retry,
     advanced 0 [Log m; Log (Retrying (retry_count st + 1)); Sleep (api_retry_delay cfg)] st)
  else (inr Break, advanced 0 [Log m] st).
Proof.
  unfold retry_or_break, sleep.
  replace (api_retry_delay cfg <? 0)%Z with false by (symmetry; apply Z.ltb_ge; exact Hdelay).
  unfold bind, get, log, emit, leave, advanced. cbn.
  destruct (Z.of_nat (retry_count st) <? api_max_retries cfg)%Z; cbn;
    now rewrite <- ?app_assoc.
Qed.

Lemma probe_unreachable (s : site) (st : cstate) :
  srv (requests st) (page st + 1) = ConnectionFailed ->
  probe_next_page cfg srv s st =
  (inr (Throw RequestException),
   advanced 1 [Log (Probing s (page st + 1)); Post (page st + 1)] st).
Proof.
  intros Hsrv. unfold probe_next_page. with_key.
  unfold bind, get, log, emit, post, leave, lift. cbn.
  rewrite Hsrv. unfold advanced. cbn. now rewrite <- !app_assoc.
Qed.

End Lookahead.



(** ** The restarts of a unit *)

Lemma calmly_refl (st : cstate) : calmly st st.
Proof. split; [reflexivity |]. exists []. now rewrite app_nil_r. Qed.

Lemma calmly_trans (st1 st2 st3 : cstate) :
  calmly st1 st2 -> calmly st2 st3 -> calmly st1 st3.
Proof.
  intros [Hr1 (e1 & Ht1 & Hc1)] [Hr2 (e2 & Ht2 & Hc2)].
  split; [congruence |]. exists (e1 ++ e2).
  rewrite Ht2, Ht1, app_assoc. split; [reflexivity |]. now apply Forall_app.
Qed.

Lemma calmly_restarting (cfg : Config) (st1 st2 st3 : cstate) :
  calmly st1 st2 -> restarting cfg st2 st3 -> restarting cfg st1 st3.
Proof.
  intros [Hr1 (e1 & Ht1 & Hc1)] (Hr2 & Hlt & e2 & Ht2 & Hc2).
  split; [congruence |]. split; [now rewrite <- Hr1 |]. exists (e1 ++ e2).
  rewrite Ht2, Ht1, Hr1, <- !app_assoc. split; [reflexivity |]. now apply Forall_app.
Qed.

Lemma calmly_emit (e : event) (st : cstate) : calm e -> calmly st (snd (emit e st)).
Proof.
  intros He. split; [reflexivity |]. exists [e].
  split; [reflexivity | repeat constructor; exact He].
Qed.

Section Shape.
Variable cfg : Config.

Lemma shaped_ret {A} (a : A) : shaped cfg (ret a).
Proof. intros st. apply calmly_refl. Qed.

Lemma shaped_get {A} (f : cstate -> A) : shaped cfg (get f).
Proof. intros st. apply calmly_refl. Qed.

Lemma shaped_lift {A} (r : res A) : shaped cfg (lift r).
Proof. intros st. unfold lift. destruct r; apply calmly_refl. Qed.

Lemma shaped_break {A} : shaped cfg (leave Break : M A).
Proof. intros st. apply calmly_refl. Qed.

Lemma shaped_continue {A} : shaped cfg (leave Continue : M A).
Proof. intros st. apply calmly_refl. Qed.

Lemma shaped_emit (e : event) : calm e -> shaped cfg (emit e).
Proof. intros He st. exact (calmly_emit e st He). Qed.

Lemma shaped_log (m : log_msg) : is_retrying (Log m) = false -> shaped cfg (log m).
Proof. intros Hm. apply shaped_emit. destruct m; try exact I. discriminate. Qed.

Lemma shaped_pause : shaped cfg (sleep 1).
Proof. intros st. unfold sleep. cbn [Z.ltb Z.compare]. now apply calmly_emit. Qed.

Lemma shaped_post (srv : server) (p : nat) : shaped cfg (post srv p).
Proof.
  intros st. unfold post.
  assert (H : calmly st
                {| all_data := all_data st; page := page st; total_count := total_count st;
                   empty_response_count := empty_response_count st;
                   retry_count := retry_count st; requests := S (requests st);
                   trace := trace st ++ [Post p] |}).
  { split; [reflexivity |]. exists [Post p]. split; [reflexivity | repeat constructor]. }
  destruct (srv (requests st) p); exact H.
Qed.

Lemma shaped_set_page (p : nat) : shaped cfg (set_page p).
Proof. intros st. split; [reflexivity |]. exists []. cbn. now rewrite app_nil_r. Qed.

Lemma shaped_set_all_data (d : list json) : shaped cfg (set_all_data d).
Proof. intros st. split; [reflexivity |]. exists []. cbn. now rewrite app_nil_r. Qed.

Lemma shaped_set_total_count (t : json) : shaped cfg (set_total_count t).
Proof. intros st. split; [reflexivity |]. exists []. cbn. now rewrite app_nil_r. Qed.

Lemma shaped_set_empty_response_count (n : nat) : shaped cfg (set_empty_response_count n).
Proof. intros st. split; [reflexivity |]. exists []. cbn. now rewrite app_nil_r. Qed.

Lemma shaped_bind {A B} (m : M A) (k : A -> M B) :
  shaped cfg m -> (forall a, shaped cfg (k a)) -> shaped cfg (bind m k).
Proof.
  intros Hm Hk st. unfold bind. specialize (Hm st).
  destruct (m st) as [[a | x] st1].
  - specialize (Hk a st1). destruct (k a st1) as [[b | y] st2].
    + now apply calmly_trans with st1.
    + destruct y; try (now apply calmly_trans with st1).
      now apply calmly_restarting with st1.
  - destruct x; exact Hm.
Qed.

(** The one place where a restart is decided. *)
Lemma shaped_retry_or_break :
  (0 <= api_retry_delay cfg)%Z -> shaped cfg (retry_or_break cfg).
Proof.
  intros Hdelay st. unfold retry_or_break, sleep.
  replace (api_retry_delay cfg <? 0)%Z with false by (symmetry; apply Z.ltb_ge; exact Hdelay).
  unfold bind, get, log, emit, leave. cbn.
  destruct (Z.of_nat (retry_count st) <? api_max_retries cfg)%Z eqn:Hrc; cbn.
  - split; [reflexivity |]. split; [now apply Z.ltb_lt |].
    exists []. cbn. rewrite <- app_assoc. auto.
  - apply calmly_refl.
Qed.

End Shape.

Ltac shape_step :=
  first
    [ apply shaped_ret | apply shaped_get | apply shaped_lift
    | apply shaped_break | apply shaped_continue
    | apply shaped_log; reflexivity | apply shaped_pause | apply shaped_post
    | apply shaped_set_page | apply shaped_set_all_data
    | apply shaped_set_total_count | apply shaped_set_empty_response_count
    | apply shaped_retry_or_break; assumption
    | apply shaped_bind; [| intros ?]
    | match goal with
      | |- shaped _ (if ?b then _ else _) => destruct b
      | |- shaped _ (match ?x with _ => _ end) => destruct x
      end ].

Section Shaped.
Variable cfg : Config.
Variable srv : server.
Hypothesis Hdelay : (0 <= api_retry_delay cfg)%Z.

Lemma shaped_incr : shaped cfg incr_empty_response_count.
Proof. unfold incr_empty_response_count. repeat shape_step. Qed.

Lemma shaped_probe (s : site) : shaped cfg (probe_next_page cfg srv s).
Proof. unfold probe_next_page. repeat shape_step. Qed.

Lemma shaped_scan_metadata (metadata : list json) : shaped cfg (scan_metadata metadata).
Proof.
  induction metadata as [| meta_item rest IH]; cbn [scan_metadata].
  - apply shaped_ret.
  - repeat first [exact IH | shape_step].
Qed.

Lemma shaped_read_total (j : json) : shaped cfg (read_total j).
Proof. unfold read_total. repeat first [apply shaped_scan_metadata | shape_step]. Qed.

Lemma shaped_handle_page (j : json) : shaped cfg (handle_page cfg srv j).
Proof.
  unfold handle_page.
  repeat first
    [ apply shaped_read_total | apply shaped_incr | apply shaped_probe | shape_step ].
Qed.

Lemma shaped_loop_body : shaped cfg (loop_body cfg srv).
Proof.
  unfold loop_body.
  repeat first [ apply shaped_handle_page | apply shaped_incr | shape_step ].
Qed.

Lemma shaped_guarded_body : shaped cfg (guarded_body cfg srv).
Proof.
  intros st. unfold guarded_body. pose proof (shaped_loop_body st) as Hb.
  destruct (loop_body cfg srv st) as [[u | x] st1]; [exact Hb |].
  destruct x; try exact Hb.
  match goal with
  | |- context [bind (log ?m) ?k st1] =>
      assert (Hh : shaped cfg (bind (log m) k))
        by (destruct e; repeat shape_step);
      specialize (Hh st1); destruct (bind (log m) k st1) as [[u | x] st2]
  end.
  - now apply calmly_trans with st1.
  - destruct x; try (now apply calmly_trans with st1).
    now apply calmly_restarting with st1.
Qed.

(** The code after the loop decides no restart. *)
Lemma finish_calmly (st : cstate) : calmly st (snd (finish cfg st)).
Proof.
  assert (H : shaped {| api_key := None; api_max_records_per_request := 0;
                        api_max_retries := 0; api_retry_delay := 0;
                        data_start_year := 0; data_end_year := 0 |} (after_loop cfg))
    by (unfold after_loop; repeat shape_step).
  specialize (H st). unfold finish.
  destruct (after_loop cfg st) as [[[[data total] flag] | x] st1]; [exact H |].
  destruct x; try exact H.
  destruct H as (_ & Hlt & _). cbn in Hlt. lia.
Qed.

End Shaped.

Lemma paced_app (cfg : Config) (a b : list event) :
  paced cfg a -> paced cfg b -> paced cfg (a ++ b).
Proof. induction 1; cbn; auto using paced. Qed.

Lemma calm_paced (cfg : Config) (evs : list event) : Forall calm evs -> paced cfg evs.
Proof. induction 1; auto using paced. Qed.

Lemma restarts_app (a b : list event) : restarts (a ++ b) = (restarts a + restarts b)%nat.
Proof. unfold restarts. now rewrite filter_app, length_app. Qed.

Lemma calm_restarts (evs : list event) : Forall calm evs -> restarts evs = 0%nat.
Proof.
  induction 1 as [| e evs He _ IH]; [reflexivity |].
  unfold restarts in *. cbn [filter].
  destruct e as [p | s | m]; cbn [is_retrying]; try exact IH.
  destruct m; try exact IH. contradiction.
Qed.

Lemma paced_sleeps (cfg : Config) (tr : list event) :
  paced cfg tr -> Forall (fun s => s = 1%Z \/ s = api_retry_delay cfg) (sleeps tr).
Proof.
  induction 1 as [| e tr He _ IH | k tr _ IH]; cbn; auto.
  destruct e as [p | s | m]; cbn; auto.
Qed.

Section Restarts.
Variable cfg : Config.
Variable srv : server.
Hypothesis Hdelay : (0 <= api_retry_delay cfg)%Z.

Lemma restart_inv_calmly (st st' : cstate) :
  restart_inv cfg st -> calmly st st' -> restart_inv cfg st'.
Proof.
  intros (Hp & Hr & Hb) (Hrc & evs & Ht & Hc). unfold restart_inv.
  rewrite Ht, Hrc, restarts_app, (calm_restarts evs Hc), Nat.add_0_r.
  repeat split; auto. apply paced_app; [exact Hp | now apply calm_paced].
Qed.

Lemma restart_inv_restarting (st st' : cstate) :
  restart_inv cfg st -> restarting cfg st st' ->
  restart_inv cfg (enter (S (retry_count st')) (requests st') (trace st')).
Proof.
  intros (Hp & Hr & Hb) (Hrc & Hlt & evs & Ht & Hc). unfold restart_inv.
  cbn [enter trace retry_count]. rewrite Ht, Hrc, !restarts_app, (calm_restarts evs Hc), Hr.
  repeat split.
  - apply paced_app; [exact Hp |]. apply paced_app; [now apply calm_paced |].
    apply paced_restart. constructor.
  - cbn. lia.
  - lia.
Qed.

Lemma crawl_loop_restart_inv (fuel : nat) :
  forall st o st',
    restart_inv cfg st ->
    crawl_loop cfg srv fuel st = Some (o, st') ->
    restart_inv cfg st'.
Proof.
  induction fuel as [| fuel IH]; intros st o st' Hinv; cbn [crawl_loop]; [discriminate |].
  pose proof (shaped_guarded_body cfg srv Hdelay st) as Hs.
  destruct (guarded_body cfg srv st) as [[u | x] st1].
  - apply IH. now apply restart_inv_calmly with st.
  - destruct x.
    + intros H. assert (Hst : st' = snd (finish cfg st1)) by (injection H as H; now rewrite H).
      rewrite Hst. apply restart_inv_calmly with st1; [| apply finish_calmly].
      now apply restart_inv_calmly with st.
    + apply IH. now apply restart_inv_calmly with st.
    + apply IH. now apply restart_inv_restarting with st.
    + intros H. assert (Hst : st' = st1) by congruence. subst st'.
      now apply restart_inv_calmly with st.
Qed.

End Restarts.



(** ** What [crawl_data] raises *)

Section Raises.
Variable cfg : Config.
Variable srv : server.
Hypothesis Hdelay : (0 <= api_retry_delay cfg)%Z.

(** The [except] clauses catch what the body raises, and raise nothing
    themselves. *)
Lemma guarded_body_catches (st : cstate) (e : exn) (st' : cstate) :
  guarded_body cfg srv st <> (inr (Throw e), st').
Proof.
  unfold guarded_body.
  destruct (loop_body cfg srv st) as [[u | x] st1]; [discriminate |].
  destruct x; try discriminate.
  rewrite (handler_runs cfg Hdelay).
  destruct (Z.of_nat (retry_count st1) <? api_max_retries cfg)%Z; discriminate.
Qed.

Lemma as_number_raises (v : json) (e : exn) : as_number v = Raise e -> e = TypeError.
Proof. destruct v; cbn; congruence. Qed.

Lemma finish_raised (st : cstate) (e : exn) (st' : cstate) :
  finish cfg st = (Raised e, st') ->
  e = TypeError /\ st' = st /\
  total_count st <> JNull /\ as_number (total_count st) = Raise TypeError.
Proof.
  intros H.
  destruct (as_number (total_count st)) as [z | e'] eqn:Hz.
  - destruct (finish_number cfg st z Hz) as [msgs Hf]. rewrite Hf in H. discriminate.
  - pose proof (as_number_raises _ _ Hz) as ->.
    destruct (total_count st) eqn:Ht; cbn in Hz; try discriminate.
    + rewrite (finish_none cfg st Ht) in H. discriminate.
    + rewrite (finish_raises cfg st TypeError) in H;
        [| rewrite Ht; discriminate | rewrite Ht; reflexivity].
      assert (e = TypeError) by congruence. assert (st' = st) by congruence.
      repeat split; auto. discriminate.
    + rewrite (finish_raises cfg st TypeError) in H;
        [| rewrite Ht; discriminate | rewrite Ht; reflexivity].
      assert (e = TypeError) by congruence. assert (st' = st) by congruence.
      repeat split; auto. discriminate.
    + rewrite (finish_raises cfg st TypeError) in H;
        [| rewrite Ht; discriminate | rewrite Ht; reflexivity].
      assert (e = TypeError) by congruence. assert (st' = st) by congruence.
      repeat split; auto. discriminate.
Qed.

Lemma crawl_loop_raised (fuel : nat) :
  forall st e st',
    crawl_loop cfg srv fuel st = Some (Raised e, st') ->
    e = TypeError /\ total_count st' <> JNull /\
    as_number (total_count st') = Raise TypeError.
Proof.
  induction fuel as [| fuel IH]; intros st e st'; cbn [crawl_loop]; [discriminate |].
  pose proof (guarded_body_catches st) as Hc.
  destruct (guarded_body cfg srv st) as [[u | x] st1]; [apply IH |].
  destruct x; try apply IH.
  - intros H. assert (Hf : finish cfg st1 = (Raised e, st')) by congruence.
    destruct (finish_raised st1 e st' Hf) as (He & Hst & Hn & Ha). subst st'. auto.
  - now destruct (Hc e0 st1).
Qed.

End Raises.



(** ** A crawl without an API key *)

Section NoKey.
Variable cfg : Config.
Variable srv : server.
Hypothesis Hkey : has_api_key cfg = false.
Hypothesis Hdelay : (0 <= api_retry_delay cfg)%Z.

(** [get_request_params] raises before anything is requested. *)
Lemma body_without_key (st : cstate) :
  guarded_body cfg srv st =
  if (Z.of_nat (retry_count st) <? api_max_retries cfg)%Z then
    (inr Retry,
     advanced 0 [Log (UnexpectedError ValueError); Log (Retrying (retry_count st + 1));
                 Sleep (api_retry_delay cfg)] st)
  else (inr Break, advanced 0 [Log (UnexpectedError ValueError)] st).
Proof.
  unfold guarded_body.
  assert (Hb : loop_body cfg srv st = (inr (Throw ValueError), st)).
  { unfold loop_body, get_request_params. rewrite Hkey. reflexivity. }
  rewrite Hb. apply (handler_runs cfg Hdelay).
Qed.

Lemma crawl_without_key (k : nat) :
  forall rc n tr extra,
    (Z.of_nat rc + Z.of_nat k = api_max_retries cfg)%Z ->
    exists st,
      crawl_loop cfg srv (S (k + extra)) (enter rc n tr) =
      Some (Returned [] JNull true, st) /\
      retry_count st = (rc + k)%nat /\
      requests st = n /\
      posts (trace st) = posts tr /\
      sleeps (trace st) = sleeps tr ++ repeat (api_retry_delay cfg) k.
Proof.
  induction k as [| k IH]; intros rc n tr extra Hrc;
    pose proof (body_without_key (enter rc n tr)) as Hb.
  - replace (Z.of_nat (retry_count (enter rc n tr)) <? api_max_retries cfg)%Z
      with false in Hb by (symmetry; apply Z.ltb_ge; cbn [enter retry_count]; lia).
    rewrite (crawl_loop_break _ _ _ _ _ Hb).
    eexists. rewrite finish_none by reflexivity. split; [reflexivity |].
    cbn. rewrite posts_app, sleeps_app. cbn. rewrite !app_nil_r.
    repeat split; auto.
  - replace (Z.of_nat (retry_count (enter rc n tr)) <? api_max_retries cfg)%Z
      with true in Hb by (symmetry; apply Z.ltb_lt; cbn [enter retry_count]; lia).
    change (S k + extra)%nat with (S (k + extra)).
    rewrite (crawl_loop_retry _ _ _ _ _ Hb).
    match goal with
    | |- context [crawl_loop _ _ _ (enter ?rc' ?n' ?tr')] =>
        destruct (IH rc' n' tr' extra) as (st & Hc & Hrc' & Hn' & Hposts' & Hsleeps')
    end.
    { cbn [enter retry_count advanced]. lia. }
    exists st. rewrite Hc. split; [reflexivity |].
    rewrite Hrc', Hn', Hposts', Hsleeps'. cbn.
    rewrite posts_app, sleeps_app. cbn. rewrite app_nil_r, <- app_assoc.
    repeat split; auto; lia.
Qed.

End NoKey.

(** X12. Without an API key (and with a non-negative [api_retry_delay] and
    [api_max_retries]) [crawl_data] sends no request at all, to any server:
    [get_request_params] raises [ValueError] in every attempt, the
    [except Exception] clause sleeps [api_retry_delay] and restarts the
    unit [api_max_retries] times, and then the crawl returns no row, no
    total and [is_complete = True]. *)
Theorem crawl_without_api_key (cfg : Config) (srv : server) (extra : nat) :
  has_api_key cfg = false ->
  (0 <= api_retry_delay cfg)%Z ->
  (0 <= api_max_retries cfg)%Z ->
  let retries := Z.to_nat (api_max_retries cfg) in
  exists st,
    crawl_data cfg srv (S (retries + extra)) = Some (Returned [] JNull true, st) /\
    posts (trace st) = [] /\
    requests st = 0%nat /\
    sleeps (trace st) = repeat (api_retry_delay cfg) retries /\
    retry_count st = retries.
Proof.
  intros Hkey Hdelay Hmax retries.
  destruct (crawl_without_key cfg srv Hkey Hdelay retries 0 0 [] extra)
    as (st & Hc & H1 & H2 & H3 & H4).
  { cbn [Z.of_nat]. unfold retries. rewrite Z2Nat.id; lia. }
  exists st. unfold crawl_data. rewrite Hc. repeat split; auto.
Qed.

Lemma crawl_without_api_key_witness :
  has_api_key no_key_config = false /\
  (0 <= api_retry_delay no_key_config)%Z /\
  (0 <= api_max_retries no_key_config)%Z /\
  exists st,
    crawl_data no_key_config three_rows 4 = Some (Returned [] JNull true, st) /\
    posts (trace st) = [] /\
    requests st = 0%nat /\
    sleeps (trace st) = [5; 5; 5]%Z.
Proof.
  assert (Hd : (0 <= api_retry_delay no_key_config)%Z) by (cbn; lia).
  assert (H0 : (0 <= api_max_retries no_key_config)%Z) by (cbn; lia).
  split; [reflexivity |]. split; [exact Hd |]. split; [exact H0 |].
  destruct (crawl_without_api_key no_key_config three_rows 0 eq_refl Hd H0)
    as (st & H1 & H2 & H3 & H4 & _).
  exists st. auto.
Defined.

(** ** A page that leaves the crawl short of the total *)

Section Kept.
Variable cfg : Config.
Variable srv : server.
Hypothesis Hkey : has_api_key cfg = true.

Ltac proj :=
  cbn [all_data page total_count empty_response_count retry_count requests trace
       logged with_total advanced].

Lemma body_kept (st : cstate) (r : response) (j total : json) (rows : list json) :
  srv (requests st) (page st) = Responded r ->
  valid_page st r j total rows ->
  not_reached total (List.length (all_data st ++ rows)) ->
  exists evs,
    posts evs = [page st] /\ sleeps evs = [] /\
    loop_body cfg srv st =
    bind (if (Z.of_nat (List.length rows) <? api_max_records_per_request cfg)%Z
          then bind (log (PageIsShort (page st) (List.length rows)))
                 (fun _ => probe_next_page cfg srv ShortPage)
          else ret tt)
      (fun _ => bind (get page) (fun pg' => bind (set_page (pg' + 1)) (fun _ => sleep 1)))
      {| all_data := all_data st ++ rows; page := page st; total_count := total;
         empty_response_count := 0; retry_count := retry_count st;
         requests := S (requests st); trace := trace st ++ evs |}.
Proof.
  intros Hsrv (Hcode & Ht & Hj & He & Hin & Htotal & Hrows) Hshort.
  pose proof (not_empty_rows j rows He Hin Hrows) as Hne.
  unfold loop_body. with_key.
  proj.
  unfold bind at 1. unfold get at 1.
  proj.
  unfold bind at 1. unfold lift at 1.
  proj.
  unfold bind at 1. unfold log at 1. unfold emit at 1.
  proj.
  unfold bind at 1. unfold post at 1. cbn [requests page trace]. rewrite Hsrv.
  proj.
  rewrite Hcode. cbn [Z.eqb Pos.eqb negb].
  proj.
  unfold bind at 1. unfold ret at 1.
  proj.
  rewrite Ht.
  proj.
  unfold bind at 1. unfold set_empty_response_count at 1.
  proj.
  rewrite Hj.
  proj.
  unfold bind at 1. rewrite He. unfold lift at 1.
  proj.
  unfold bind at 1. rewrite Hin. unfold lift at 1.
  proj.
  unfold handle_page.
  proj.
  unfold bind at 1.
  proj.
  match goal with
  | |- context [read_total j ?s] =>
      destruct (read_total_total j s total) as [msgs Hr]; [exact Htotal |]; rewrite Hr
  end.
  proj.
  unfold bind at 1. rewrite Hrows. unfold lift at 1.
  proj.
  unfold bind at 1. unfold get at 1.
  proj.
  unfold bind at 1. rewrite Hne.
  proj.
  unfold bind at 1. unfold log at 1. unfold emit at 1.
  proj.
  unfold bind at 1. unfold get at 1. unfold set_all_data at 1.
  proj.
  unfold bind at 1. unfold get at 1.
  proj.
  cbn [negb].
  destruct Hshort as [-> | (expected & Hnum & Hlt)].
  - cbn [is_none].
    unfold bind at 1. unfold ret at 1.
    proj.
    eexists. split; [| split].
    3: { rewrite <- !app_assoc. reflexivity. }
    + cbn. rewrite posts_app, posts_logs. reflexivity.
    + cbn. rewrite sleeps_app, sleeps_logs. reflexivity.
  - assert (Hnz : expected <> 0%Z) by lia.
    rewrite (is_none_number _ _ Hnum).
    proj.
    unfold bind at 1. unfold bind at 1. unfold get at 1.
    proj.
    unfold bind at 1. unfold log at 1. unfold emit at 1.
    proj.
    unfold bind at 1. rewrite (percentage_number _ _ _ Hnum Hnz). unfold lift at 1.
    proj.
    unfold bind at 1. unfold log at 1. unfold emit at 1.
    proj.
    unfold bind at 1. unfold reaches. rewrite Hnum. cbn [rbind].
    proj.
    replace (expected <=? Z.of_nat (List.length (all_data st ++ rows)))%Z with false
      by (symmetry; apply Z.leb_gt; exact Hlt).
    proj.
    unfold lift at 1.
    proj.
    unfold bind at 1. unfold ret at 1.
    proj.
    rewrite andb_false_r.
    unfold ret at 1.
    proj.
    eexists. split; [| split].
    3: { rewrite <- !app_assoc. reflexivity. }
    + cbn. rewrite posts_app, posts_logs. reflexivity.
    + cbn. rewrite sleeps_app, sleeps_logs. reflexivity.
Qed.

(** A full page: the crawl goes on with the next page, one second later. *)
Lemma body_full_page (st : cstate) (r : response) (j total : json) (rows : list json) :
  srv (requests st) (page st) = Responded r ->
  valid_page st r j total rows ->
  not_reached total (List.length (all_data st ++ rows)) ->
  (api_max_records_per_request cfg <= Z.of_nat (List.length rows))%Z ->
  exists st',
    guarded_body cfg srv st = (inl tt, st') /\
    all_data st' = all_data st ++ rows /\ page st' = (page st + 1)%nat /\
    total_count st' = total /\ empty_response_count st' = 0%nat /\
    retry_count st' = retry_count st /\ requests st' = S (requests st) /\
    posts (trace st') = posts (trace st) ++ [page st] /\
    sleeps (trace st') = sleeps (trace st) ++ [1%Z].
Proof.
  intros Hsrv Hv Hshort Hfull.
  destruct (body_kept st r j total rows Hsrv Hv Hshort) as (evs & Hposts & Hsleeps & Hb).
  replace (Z.of_nat (List.length rows) <? api_max_records_per_request cfg)%Z with false in Hb
    by (symmetry; apply Z.ltb_ge; exact Hfull).
  unfold guarded_body. rewrite Hb.
  unfold bind, ret, get, set_page, sleep, emit. cbn.
  eexists. split; [reflexivity |]. cbn.
  rewrite !posts_app, !sleeps_app, Hposts, Hsleeps. cbn. rewrite !app_nil_r.
  repeat split; reflexivity.
Qed.

(** A short page: the request for the next page decides. *)
Lemma body_short_page (st : cstate) (r : response) (j total : json) (rows : list json) :
  srv (requests st) (page st) = Responded r ->
  valid_page st r j total rows ->
  not_reached total (List.length (all_data st ++ rows)) ->
  (Z.of_nat (List.length rows) < api_max_records_per_request cfg)%Z ->
  exists evs,
    posts evs = [page st] /\ sleeps evs = [] /\
    forall x s,
      probe_next_page cfg srv ShortPage
        {| all_data := all_data st ++ rows; page := page st; total_count := total;
           empty_response_count := 0; retry_count := retry_count st;
           requests := S (requests st); trace := trace st ++ evs |} = (inr x, s) ->
      loop_body cfg srv st = (inr x, s).
Proof.
  intros Hsrv Hv Hshort Hfew.
  destruct (body_kept st r j total rows Hsrv Hv Hshort) as (evs & Hposts & Hsleeps & Hb).
  replace (Z.of_nat (List.length rows) <? api_max_records_per_request cfg)%Z with true in Hb
    by (symmetry; apply Z.ltb_lt; exact Hfew).
  exists (evs ++ [Log (PageIsShort (page st) (List.length rows))]).
  split; [| split].
  - rewrite posts_app, Hposts. reflexivity.
  - rewrite sleeps_app, Hsleeps. reflexivity.
  - intros x s Hp. rewrite Hb.
    unfold bind at 1. unfold bind at 1. unfold log at 1. unfold emit at 1.
    proj. rewrite <- app_assoc. rewrite Hp. reflexivity.
Qed.

Lemma body_short_page_empty (st : cstate) (r : response) (j total : json)
  (rows : list json) :
  srv (requests st) (page st) = Responded r ->
  valid_page st r j total rows ->
  not_reached total (List.length (all_data st ++ rows)) ->
  (Z.of_nat (List.length rows) < api_max_records_per_request cfg)%Z ->
  answers_empty (srv (S (requests st)) (page st + 1)) ->
  exists st',
    guarded_body cfg srv st = (inr Break, st') /\
    all_data st' = all_data st ++ rows /\ total_count st' = total /\
    retry_count st' = retry_count st /\
    posts (trace st') = posts (trace st) ++ [page st; (page st + 1)%nat] /\
    sleeps (trace st') = sleeps (trace st).
Proof.
  intros Hsrv Hv Hshort Hfew Hnext.
  destruct (body_short_page st r j total rows Hsrv Hv Hshort Hfew)
    as (evs & Hposts & Hsleeps & Hbody).
  match type of Hbody with
  | forall x s, probe_next_page _ _ _ ?s2 = _ -> _ =>
      destruct (probe_empty cfg srv Hkey ShortPage s2 Hnext) as [m Hp]
  end.
  unfold guarded_body. rewrite (Hbody _ _ Hp).
  eexists. split; [reflexivity |]. cbn.
  rewrite !posts_app, !sleeps_app, Hposts, Hsleeps. cbn.
  rewrite <- ?app_assoc, ?app_nil_r. repeat split; reflexivity.
Qed.

Lemma body_short_page_more (st : cstate) (r : response) (j total : json)
  (rows : list json) :
  srv (requests st) (page st) = Responded r ->
  valid_page st r j total rows ->
  not_reached total (List.length (all_data st ++ rows)) ->
  (Z.of_nat (List.length rows) < api_max_records_per_request cfg)%Z ->
  answers_more (srv (S (requests st)) (page st + 1)) ->
  exists st',
    guarded_body cfg srv st = (inr Continue, st') /\
    all_data st' = all_data st ++ rows /\ total_count st' = total /\
    page st' = (page st + 1)%nat /\ requests st' = S (S (requests st)) /\
    retry_count st' = retry_count st /\
    posts (trace st') = posts (trace st) ++ [page st; (page st + 1)%nat] /\
    sleeps (trace st') = sleeps (trace st).
Proof.
  intros Hsrv Hv Hshort Hfew Hnext.
  destruct (body_short_page st r j total rows Hsrv Hv Hshort Hfew)
    as (evs & Hposts & Hsleeps & Hbody).
  match type of Hbody with
  | forall x s, probe_next_page _ _ _ ?s2 = _ -> _ =>
      pose proof (probe_more cfg srv Hkey ShortPage s2 Hnext) as Hp
  end.
  unfold guarded_body. rewrite (Hbody _ _ Hp).
  eexists. split; [reflexivity |]. cbn.
  rewrite !posts_app, !sleeps_app, Hposts, Hsleeps. cbn.
  rewrite <- ?app_assoc, ?app_nil_r. repeat split; reflexivity.
Qed.

(** A page that announces a total of zero: the progress percentage
    divides by it. *)
Lemma body_zero_total (st : cstate) (r : response) (j total : json) (rows : list json) :
  srv (requests st) (page st) = Responded r ->
  valid_page st r j total rows ->
  as_number total = Ok 0%Z ->
  exists st1,
    loop_body cfg srv st = (inr (Throw ZeroDivisionError), st1) /\
    all_data st1 = all_data st ++ rows /\ total_count st1 = total /\
    retry_count st1 = retry_count st /\ requests st1 = S (requests st) /\
    posts (trace st1) = posts (trace st) ++ [page st] /\
    sleeps (trace st1) = sleeps (trace st).
Proof.
  intros Hsrv (Hcode & Ht & Hj & He & Hin & Htotal & Hrows) Hnum.
  pose proof (not_empty_rows j rows He Hin Hrows) as Hne.
  unfold loop_body. with_key.
  proj.
  unfold bind at 1. unfold get at 1.
  proj.
  unfold bind at 1. unfold lift at 1.
  proj.
  unfold bind at 1. unfold log at 1. unfold emit at 1.
  proj.
  unfold bind at 1. unfold post at 1. cbn [requests page trace]. rewrite Hsrv.
  proj.
  rewrite Hcode. cbn [Z.eqb Pos.eqb negb].
  proj.
  unfold bind at 1. unfold ret at 1.
  proj.
  rewrite Ht.
  proj.
  unfold bind at 1. unfold set_empty_response_count at 1.
  proj.
  rewrite Hj.
  proj.
  unfold bind at 1. rewrite He. unfold lift at 1.
  proj.
  unfold bind at 1. rewrite Hin. unfold lift at 1.
  proj.
  unfold handle_page.
  proj.
  unfold bind at 1.
  proj.
  match goal with
  | |- context [read_total j ?s] =>
      destruct (read_total_total j s total) as [msgs Hr]; [exact Htotal |]; rewrite Hr
  end.
  proj.
  unfold bind at 1. rewrite Hrows. unfold lift at 1.
  proj.
  unfold bind at 1. unfold get at 1.
  proj.
  unfold bind at 1. rewrite Hne.
  proj.
  unfold bind at 1. unfold log at 1. unfold emit at 1.
  proj.
  unfold bind at 1. unfold get at 1. unfold set_all_data at 1.
  proj.
  unfold bind at 1. unfold get at 1.
  proj.
  rewrite (is_none_number _ _ Hnum).
  proj.
  unfold bind at 1. unfold bind at 1. unfold get at 1.
  proj.
  unfold bind at 1. unfold log at 1. unfold emit at 1.
  proj.
  unfold bind at 1. unfold percentage. rewrite Hnum. cbn [rbind Z.eqb]. unfold lift at 1.
  eexists. split; [reflexivity |]. proj.
  rewrite <- !app_assoc, posts_app, sleeps_app. cbn.
  rewrite posts_app, sleeps_app, posts_logs, sleeps_logs. cbn. rewrite !app_nil_r.
  repeat split; reflexivity.
Qed.

End Kept.



(** ** A server that holds a list of rows *)

Lemma firstn_more {A} (a b : nat) (l : list A) :
  firstn a l ++ firstn b (skipn a l) = firstn (a + b) l.
Proof.
  revert l. induction a as [| a IH]; intros l; [reflexivity |].
  destruct l as [| x l]; cbn.
  - now rewrite firstn_nil.
  - now rewrite IH.
Qed.

Section Paged.
Variable announce : option Z.
Variable size : nat.
Variable rows : list json.

Lemma paged_page (n : nat) (st : cstate) (q : nat) (a : json) (l : list json) :
  page st = S q ->
  total_count st = known_total announce q ->
  page_rows size rows (S q) = a :: l ->
  exists r j,
    paged announce size rows n (S q) = Responded r /\
    valid_page st r j (known_total announce (S q)) (a :: l) /\
    answers_more (paged announce size rows n (S q)).
Proof.
  intros Hpage Htotal Hp. unfold paged. rewrite Hp.
  destruct announce as [total |]; cbn [known_total].
  - eexists. eexists. split; [reflexivity |]. split.
    + unfold valid_page. repeat split; try reflexivity.
      * unfold total_after. rewrite Hpage, Htotal.
        destruct q; reflexivity.
      * cbn. now rewrite app_nil_r.
    + eexists. eexists. split; [reflexivity |]. repeat split; reflexivity.
  - eexists. eexists. split; [reflexivity |]. split.
    + unfold valid_page. repeat split; try reflexivity.
      * unfold total_after. rewrite Hpage, Htotal.
        destruct q; reflexivity.
      * cbn. now rewrite app_nil_r.
    + eexists. eexists. split; [reflexivity |]. repeat split; reflexivity.
Qed.

Lemma paged_beyond (n p : nat) :
  page_rows size rows p = [] ->
  answers_empty_text (paged announce size rows n p).
Proof.
  intros Hp. unfold paged. rewrite Hp.
  eexists. split; [reflexivity |]. split; reflexivity.
Qed.

Lemma page_rows_next (q : nat) :
  page_rows size rows (S q) = firstn size (skipn (q * size) rows).
Proof. unfold page_rows. now rewrite Nat.sub_succ, Nat.sub_0_r. Qed.

Lemma page_rows_length (q : nat) :
  List.length (page_rows size rows (S q)) = Nat.min size (List.length rows - q * size).
Proof. now rewrite page_rows_next, length_firstn, length_skipn. Qed.

Lemma page_rows_collected (q : nat) :
  firstn (q * size) rows ++ page_rows size rows (S q) = firstn (S q * size) rows.
Proof. rewrite page_rows_next, firstn_more. f_equal. cbn. lia. Qed.

Lemma page_rows_beyond (q : nat) :
  (List.length rows <= q * size)%nat -> page_rows size rows (S q) = [].
Proof. intros H. rewrite page_rows_next, (skipn_all2 rows H). apply firstn_nil. Qed.

Lemma page_rows_some (q : nat) :
  (q * size < List.length rows)%nat -> (0 < size)%nat ->
  exists a l, page_rows size rows (S q) = a :: l.
Proof.
  intros H Hs. pose proof (page_rows_length q) as Hl.
  destruct (page_rows size rows (S q)) as [| a l]; [cbn in Hl; lia |]. now exists a, l.
Qed.

End Paged.

Section Runs.
Variable cfg : Config.
Variable size : nat.
Variable rows : list json.
Hypothesis Hkey : has_api_key cfg = true.
Hypothesis Hsize : api_max_records_per_request cfg = Z.of_nat size.

(** The page after the last row. *)
Lemma paged_ends (announce : option Z) (n q : nat) :
  (List.length rows <= q * size)%nat ->
  answers_empty_text (paged announce size rows n (S q)) /\
  answers_empty (paged announce size rows n (S q)).
Proof.
  intros H.
  destruct (paged_beyond announce size rows n (S q) (page_rows_beyond size rows q H))
    as (r & H1 & H2 & H3).
  split; exists r; auto.
Qed.

(** The server announces the number of rows: the crawl ends on the page
    that completes it. *)
Lemma announced_run (k : nat) :
  forall q st extra,
    collected_to size rows (known_total (Some (Z.of_nat (List.length rows))) q) q st ->
    (q * size + k * size < List.length rows)%nat ->
    (List.length rows <= q * size + S k * size)%nat ->
    exists st',
      crawl_loop cfg (paged (Some (Z.of_nat (List.length rows))) size rows) (S k + extra) st =
      Some (Returned rows (JNum (Z.of_nat (List.length rows))) true, st') /\
      posts (trace st') = posts (trace st) ++ seq (S q) (S k + 1) /\
      sleeps (trace st') = sleeps (trace st) ++ repeat 1%Z k /\
      retry_count st' = retry_count st.
Proof.
  set (srv := paged (Some (Z.of_nat (List.length rows))) size rows).
  induction k as [| k IH]; intros q st extra (Hp & Hd & Ht & Hc) Hlo Hhi.
  - cbn [Nat.mul] in Hlo. rewrite Nat.mul_1_l in Hhi. rewrite Nat.add_0_r in Hlo.
    destruct (page_rows_some size rows q Hlo ltac:(lia)) as (a & l & Hchunk).
    destruct (paged_page _ size rows (requests st) st q a l Hp Ht Hchunk)
      as (r & j & Hsrv & Hv & _).
    fold srv in Hsrv. rewrite <- Hp in Hsrv. cbn [known_total] in Hv.
    assert (Hall : all_data st ++ a :: l = rows).
    { rewrite Hd, <- Hchunk, page_rows_collected. apply firstn_all2. cbn [Nat.mul]. lia. }
    destruct (body_total_reached_empty cfg srv Hkey st r j _ (a :: l)
                (Z.of_nat (List.length rows)) Hsrv Hv eq_refl)
      as (st1 & Hb & Hd1 & Ht1 & Hr1 & Hposts & Hsleeps).
    { lia. }
    { rewrite Hall. lia. }
    { rewrite Hp, Nat.add_1_r. apply paged_ends. cbn [Nat.mul]. lia. }
    change (1 + extra)%nat with (S extra).
    rewrite (crawl_loop_break cfg _ extra st st1 Hb).
    destruct (finish_number cfg st1 (Z.of_nat (List.length rows))) as [msgs Hf];
      [now rewrite Ht1 |].
    exists (logged msgs st1). rewrite Hf, Hd1, Ht1, Hall, posts_logged, sleeps_logged.
    replace (995 * Z.of_nat (List.length rows) <=? 1000 * Z.of_nat (List.length rows))%Z
      with true by (symmetry; apply Z.leb_le; lia).
    rewrite Hposts, Hsleeps, Hp, app_nil_r, Nat.add_1_r.
    repeat split; auto.
  - rewrite Nat.mul_succ_l in Hlo.
    destruct (page_rows_some size rows q ltac:(lia) ltac:(lia)) as (a & l & Hchunk).
    destruct (paged_page _ size rows (requests st) st q a l Hp Ht Hchunk)
      as (r & j & Hsrv & Hv & _).
    fold srv in Hsrv. rewrite <- Hp in Hsrv. cbn [known_total] in Hv.
    assert (Hall : all_data st ++ a :: l = firstn (S q * size) rows)
      by (rewrite Hd, <- Hchunk; apply page_rows_collected).
    assert (Hlen : List.length (a :: l) = size).
    { rewrite <- Hchunk, page_rows_length. lia. }
    destruct (body_full_page cfg srv Hkey st r j _ (a :: l) Hsrv Hv)
      as (st1 & Hb & Hd1 & Hp1 & Ht1 & Hc1 & Hr1 & Hn1 & Hposts & Hsleeps).
    { right. exists (Z.of_nat (List.length rows)). split; [reflexivity |].
      rewrite Hall, length_firstn. cbn [Nat.mul]. lia. }
    { rewrite Hlen, Hsize. lia. }
    change (S (S k) + extra)%nat with (S (S k + extra)).
    rewrite (crawl_loop_next cfg _ _ st st1 Hb).
    destruct (IH (S q) st1 extra) as (st' & Hrun & Hposts' & Hsleeps' & Hr').
    { repeat split; auto.
      - rewrite Hp1, Hp. lia.
      - now rewrite Hd1, Hall. }
    { cbn [Nat.mul]. lia. }
    { cbn [Nat.mul] in *. lia. }
    exists st'. rewrite Hrun, Hposts', Hsleeps', Hr', Hposts, Hsleeps, Hr1, Hp.
    rewrite <- !app_assoc. repeat split; auto.
Qed.

(** The server announces nothing: the crawl ends on a short page, or on
    two empty pages after a last page that was full. *)
Lemma plain_run (k : nat) :
  forall q st extra,
    collected_to size rows JNull q st ->
    (q * size <= List.length rows)%nat ->
    (List.length rows <= q * size + k * size)%nat ->
    (k <> 0%nat -> q * size + (k - 1) * size < List.length rows)%nat ->
    let full := (List.length rows =? q * size + k * size)%nat in
    exists st',
      crawl_loop cfg (paged None size rows) (k + 2 + extra) st =
      Some (Returned rows JNull true, st') /\
      posts (trace st') = posts (trace st) ++ seq (S q) (k + if full then 2 else 1) /\
      sleeps (trace st') = sleeps (trace st) ++ repeat 1%Z (if full then k + 1 else k - 1) /\
      retry_count st' = retry_count st.
Proof.
  set (srv := paged None size rows).
  induction k as [| k IH]; intros q st extra (Hp & Hd & Ht & Hc) Hlo Hhi Hlast full.
  - cbn [Nat.mul] in Hhi. rewrite Nat.add_0_r in Hhi.
    assert (Hfull : full = true) by (unfold full; apply Nat.eqb_eq; cbn [Nat.mul]; lia).
    rewrite Hfull.
    assert (Hall : all_data st = rows) by (rewrite Hd; apply firstn_all2; lia).
    destruct (empty_texts_break cfg srv Hkey extra st)
      as (flag & st' & Hrun & Hflag & _ & Hposts & Hsleeps & Hr).
    { rewrite Ht. now left. }
    { rewrite Hp. apply paged_ends. lia. }
    { rewrite Hp, Nat.add_1_r. apply paged_ends. cbn [Nat.mul]. lia. }
    exists st'. cbn [plus]. rewrite Hrun, Hall, Ht, (Hflag Ht), Hposts, Hsleeps, Hr, Hc, Hp.
    cbn. rewrite Nat.add_1_r. repeat split; reflexivity.
  - specialize (Hlast ltac:(discriminate)).
    replace (S k - 1)%nat with k in Hlast by lia.
    rewrite Nat.mul_succ_l in Hhi.
    destruct (page_rows_some size rows q ltac:(lia) ltac:(lia)) as (a & l & Hchunk).
    destruct (paged_page None size rows (requests st) st q a l Hp Ht Hchunk)
      as (r & j & Hsrv & Hv & _).
    fold srv in Hsrv. rewrite <- Hp in Hsrv. cbn [known_total] in Hv.
    assert (Hall : all_data st ++ a :: l = firstn (S q * size) rows)
      by (rewrite Hd, <- Hchunk; apply page_rows_collected).
    assert (Hlen : List.length (a :: l) = Nat.min size (List.length rows - q * size))
      by (rewrite <- Hchunk; apply page_rows_length).
    destruct (Nat.lt_ge_cases (List.length rows) (S q * size)) as [Hshort | Hmore].
    + cbn [Nat.mul] in Hshort.
      assert (Hfull : full = false)
        by (unfold full; apply Nat.eqb_neq; rewrite Nat.mul_succ_l; lia).
      rewrite Hfull.
      destruct (body_short_page_empty cfg srv Hkey st r j JNull (a :: l) Hsrv Hv)
        as (st1 & Hb & Hd1 & Ht1 & Hr1 & Hposts & Hsleeps).
      { now left. }
      { rewrite Hlen, Hsize. lia. }
      { rewrite Hp, Nat.add_1_r. apply paged_ends. cbn [Nat.mul]. lia. }
      change (S k + 2 + extra)%nat with (S (k + 2 + extra)).
      rewrite (crawl_loop_break cfg _ _ st st1 Hb), (finish_none cfg st1 Ht1).
      exists st1. rewrite Hd1, Hall, Hposts, Hsleeps, Hr1, Hp.
      rewrite (firstn_all2 rows) by (cbn [Nat.mul]; lia).
      assert (Hk : k = 0%nat) by nia. subst k.
      cbn. rewrite Nat.add_1_r, app_nil_r. repeat split; reflexivity.
    + cbn [Nat.mul] in Hmore.
      destruct (body_full_page cfg srv Hkey st r j JNull (a :: l) Hsrv Hv)
        as (st1 & Hb & Hd1 & Hp1 & Ht1 & Hc1 & Hr1 & Hn1 & Hposts & Hsleeps).
      { now left. }
      { rewrite Hlen, Hsize. lia. }
      change (S k + 2 + extra)%nat with (S (k + 2 + extra)).
      rewrite (crawl_loop_next cfg _ _ st st1 Hb).
      destruct (IH (S q) st1 extra) as (st' & Hrun & Hposts' & Hsleeps' & Hr').
      { repeat split; auto.
        - rewrite Hp1, Hp. lia.
        - now rewrite Hd1, Hall. }
      { cbn [Nat.mul]. lia. }
      { cbn [Nat.mul]. lia. }
      { intros Hk. cbn [Nat.mul].
        destruct k as [| k]; [contradiction |].
        replace (S k - 1)%nat with k by lia. rewrite Nat.mul_succ_l in Hlast. lia. }
      assert (Hsame : (List.length rows =? S q * size + k * size)%nat = full)
        by (unfold full; f_equal; cbn [Nat.mul]; lia).
      rewrite Hsame in Hposts', Hsleeps'.
      exists st'. rewrite Hrun, Hposts', Hsleeps', Hr', Hposts, Hsleeps, Hr1, Hp.
      rewrite <- !app_assoc. repeat split; auto.
      f_equal. destruct full eqn:Hfull; [reflexivity |].
      destruct k as [| k]; [| cbn; now rewrite Nat.sub_0_r].
      unfold full in Hfull. apply Nat.eqb_neq in Hfull. cbn [Nat.mul] in Hfull. lia.
Qed.

(** The total is reached on a page that another page follows. *)
Lemma body_total_reached_on (srv : server) (st : cstate) (r : response) (j total : json)
  (chunk : list json) (expected : Z) :
  srv (requests st) (page st) = Responded r ->
  valid_page st r j total chunk ->
  as_number total = Ok expected -> expected <> 0%Z ->
  (expected <= Z.of_nat (List.length (all_data st ++ chunk)))%Z ->
  answers_more (srv (S (requests st)) (page st + 1)) ->
  exists st',
    guarded_body cfg srv st = (inr Continue, st') /\
    all_data st' = all_data st ++ chunk /\ total_count st' = total /\
    page st' = (page st + 1)%nat /\ empty_response_count st' = 0%nat /\
    retry_count st' = retry_count st.
Proof.
  intros Hsrv Hv Hnum Hnz Hreach Hnext.
  destruct (body_total_reached cfg srv Hkey st r j total chunk expected Hsrv Hv Hnum Hnz Hreach)
    as (evs & _ & _ & Hbody).
  match type of Hbody with
  | forall x s, probe_next_page _ _ _ ?s2 = _ -> _ =>
      pose proof (probe_more cfg srv Hkey TotalReached s2 Hnext) as Hp
  end.
  unfold guarded_body. rewrite (Hbody _ _ Hp).
  eexists. split; [reflexivity |]. cbn. repeat split; reflexivity.
Qed.

(** The server announces any total but zero: the crawl collects what the
    server holds. *)
Lemma any_total_run (total : Z) (k : nat) :
  total <> 0%Z ->
  forall q st extra,
    collected_to size rows (known_total (Some total) q) q st ->
    (q * size <= List.length rows)%nat ->
    (List.length rows <= q * size + k * size)%nat ->
    (k <> 0%nat -> q * size + (k - 1) * size < List.length rows)%nat ->
    (q = 0%nat -> k <> 0%nat) ->
    exists st',
      crawl_loop cfg (paged (Some total) size rows) (2 * k + 2 + extra) st =
      Some (Returned rows (JNum total)
              (995 * total <=? 1000 * Z.of_nat (List.length rows))%Z, st') /\
      retry_count st' = retry_count st.
Proof.
  intros Hnz. set (srv := paged (Some total) size rows).
  induction k as [| k IH]; intros q st extra (Hp & Hd & Ht & Hc) Hlo Hhi Hlast Hfirst.
  - cbn [Nat.mul] in Hhi. rewrite Nat.add_0_r in Hhi.
    destruct q as [| q]; [now destruct (Hfirst eq_refl) |]. cbn [known_total] in Ht.
    assert (Hall : all_data st = rows) by (rewrite Hd; apply firstn_all2; lia).
    destruct (empty_texts_break cfg srv Hkey extra st)
      as (flag & st' & Hrun & _ & Hflag & _ & _ & Hr).
    { rewrite Ht. right. now exists total. }
    { rewrite Hp. apply paged_ends. lia. }
    { rewrite Hp, Nat.add_1_r. apply paged_ends. cbn [Nat.mul]. lia. }
    exists st'. cbn [Nat.mul plus]. rewrite Hrun, Hall, Ht.
    rewrite (Hflag total) by (rewrite Ht; reflexivity). rewrite Hall. auto.
  - specialize (Hlast ltac:(discriminate)). clear Hfirst.
    replace (S k - 1)%nat with k in Hlast by lia.
    rewrite Nat.mul_succ_l in Hhi.
    replace (2 * S k + 2 + extra)%nat with (S (2 * k + 2 + S extra)) by lia.
    destruct (page_rows_some size rows q ltac:(lia) ltac:(lia)) as (a & l & Hchunk).
    destruct (paged_page (Some total) size rows (requests st) st q a l Hp Ht Hchunk)
      as (r & j & Hsrv & Hv & _).
    fold srv in Hsrv. rewrite <- Hp in Hsrv. cbn [known_total] in Hv.
    assert (Hall : all_data st ++ a :: l = firstn (S q * size) rows)
      by (rewrite Hd, <- Hchunk; apply page_rows_collected).
    assert (Hlen : List.length (a :: l) = Nat.min size (List.length rows - q * size))
      by (rewrite <- Hchunk; apply page_rows_length).
    assert (Hnext : forall st1,
               page st1 = (page st + 1)%nat -> all_data st1 = all_data st ++ a :: l ->
               total_count st1 = JNum total -> empty_response_count st1 = 0%nat ->
               (S q * size <= List.length rows)%nat ->
               exists st',
                 crawl_loop cfg srv (2 * k + 2 + S extra) st1 =
                 Some (Returned rows (JNum total)
                         (995 * total <=? 1000 * Z.of_nat (List.length rows))%Z, st') /\
                 retry_count st' = retry_count st1).
    { intros st1 Hp1 Hd1 Ht1 Hc1 Hmore. apply (IH (S q) st1 (S extra)).
      - repeat split; auto.
        + rewrite Hp1, Hp. lia.
        + now rewrite Hd1, Hall.
      - exact Hmore.
      - cbn [Nat.mul]. lia.
      - intros Hk. cbn [Nat.mul]. destruct k as [| k]; [contradiction |].
        replace (S k - 1)%nat with k by lia. rewrite Nat.mul_succ_l in Hlast. lia.
      - discriminate. }
    destruct (Z_le_gt_dec total (Z.of_nat (List.length (all_data st ++ a :: l))))
      as [Hreach | Hmiss].
    + destruct (Nat.lt_ge_cases (S q * size) (List.length rows)) as [Hmore | Hend].
      * destruct (page_rows_some size rows (S q) Hmore ltac:(lia)) as (a' & l' & Hchunk').
        assert (Hfollows : answers_more (srv (S (requests st)) (page st + 1))).
        { rewrite Hp, Nat.add_1_r.
          destruct (paged_page (Some total) size rows (S (requests st))
                      {| all_data := []; page := S (S q); total_count := JNum total;
                         empty_response_count := 0; retry_count := 0; requests := 0;
                         trace := [] |} (S q) a' l' eq_refl eq_refl Hchunk')
            as (_ & _ & _ & _ & H). exact H. }
        destruct (body_total_reached_on srv st r j _ (a :: l) total Hsrv Hv eq_refl Hnz
                    Hreach Hfollows)
          as (st1 & Hb & Hd1 & Ht1 & Hp1 & Hc1 & Hr1).
        rewrite (crawl_loop_continue cfg _ _ st st1 Hb).
        destruct (Hnext st1 Hp1 Hd1 Ht1 Hc1 ltac:(lia)) as (st' & Hrun & Hr').
        exists st'. rewrite Hrun, Hr', Hr1. auto.
      * destruct (body_total_reached_empty cfg srv Hkey st r j _ (a :: l) total
                    Hsrv Hv eq_refl Hnz Hreach)
          as (st1 & Hb & Hd1 & Ht1 & Hr1 & _).
        { rewrite Hp, Nat.add_1_r. apply paged_ends. lia. }
        rewrite (crawl_loop_break cfg _ _ st st1 Hb).
        destruct (finish_number cfg st1 total) as [msgs Hf]; [now rewrite Ht1 |].
        exists (logged msgs st1). rewrite Hf, Hd1, Ht1, Hall.
        rewrite (firstn_all2 rows) by lia. auto.
    + assert (Hshort' : not_reached (JNum total) (List.length (all_data st ++ a :: l)))
        by (right; exists total; split; [reflexivity | lia]).
      destruct (Nat.lt_ge_cases (List.length rows) (S q * size)) as [Hshort | Hmore].
      * cbn [Nat.mul] in Hshort.
        destruct (body_short_page_empty cfg srv Hkey st r j _ (a :: l) Hsrv Hv Hshort')
          as (st1 & Hb & Hd1 & Ht1 & Hr1 & _).
        { rewrite Hlen, Hsize. lia. }
        { rewrite Hp, Nat.add_1_r. apply paged_ends. cbn [Nat.mul]. lia. }
        rewrite (crawl_loop_break cfg _ _ st st1 Hb).
        destruct (finish_number cfg st1 total) as [msgs Hf]; [now rewrite Ht1 |].
        exists (logged msgs st1). rewrite Hf, Hd1, Ht1, Hall.
        rewrite (firstn_all2 rows) by (cbn [Nat.mul]; lia). auto.
      * cbn [Nat.mul] in Hmore.
        destruct (body_full_page cfg srv Hkey st r j _ (a :: l) Hsrv Hv Hshort')
          as (st1 & Hb & Hd1 & Hp1 & Ht1 & Hc1 & Hr1 & _).
        { rewrite Hlen, Hsize. lia. }
        rewrite (crawl_loop_next cfg _ _ st st1 Hb).
        destruct (Hnext st1 Hp1 Hd1 Ht1 Hc1 ltac:(cbn [Nat.mul]; lia)) as (st' & Hrun & Hr').
        exists st'. rewrite Hrun, Hr', Hr1. auto.
Qed.

End Runs.

Section ZeroTotal.
Variable cfg : Config.
Variable size : nat.
Variable rows : list json.
Hypothesis Hkey : has_api_key cfg = true.
Hypothesis Hdelay : (0 <= api_retry_delay cfg)%Z.

(** The server announces a total of zero: every attempt ends on page 1. *)
Lemma zero_total_run (a : json) (l : list json) (k : nat) :
  page_rows size rows 1 = a :: l ->
  forall rc n tr extra,
    (Z.of_nat rc + Z.of_nat k = api_max_retries cfg)%Z ->
    exists st,
      crawl_loop cfg (paged (Some 0%Z) size rows) (S (k + extra)) (enter rc n tr) =
      Some (Returned (a :: l) (JNum 0) true, st) /\
      retry_count st = (rc + k)%nat /\
      posts (trace st) = posts tr ++ repeat 1%nat (S k) /\
      sleeps (trace st) = sleeps tr ++ repeat (api_retry_delay cfg) k /\
      In (Log (UnexpectedError ZeroDivisionError)) (trace st).
Proof.
  intros Hchunk. set (srv := paged (Some 0%Z) size rows).
  assert (Hstep : forall rc n tr,
             exists st1,
               guarded_body cfg srv (enter rc n tr) =
               bind (log (UnexpectedError ZeroDivisionError)) (fun _ => retry_or_break cfg) st1 /\
               all_data st1 = a :: l /\ total_count st1 = JNum 0 /\
               retry_count st1 = rc /\
               posts (trace st1) = posts tr ++ [1%nat] /\
               sleeps (trace st1) = sleeps tr).
  { intros rc n tr.
    destruct (paged_page (Some 0%Z) size rows n (enter rc n tr) 0 a l eq_refl eq_refl Hchunk)
      as (r & j & Hsrv & Hv & _).
    destruct (body_zero_total cfg srv Hkey (enter rc n tr) r j _ (a :: l) Hsrv Hv eq_refl)
      as (st1 & Hb & Hd & Ht & Hr & _ & Hposts & Hsleeps).
    exists st1. unfold guarded_body. rewrite Hb. auto 10. }
  induction k as [| k IH]; intros rc n tr extra Hrc;
    destruct (Hstep rc n tr) as (st1 & Hb & Hd & Ht & Hr & Hposts & Hsleeps);
    rewrite (handler_runs cfg Hdelay) in Hb; rewrite Hr in Hb.
  - replace (Z.of_nat rc <? api_max_retries cfg)%Z with false in Hb
      by (symmetry; apply Z.ltb_ge; lia).
    rewrite (crawl_loop_break _ _ _ _ _ Hb).
    match goal with
    | |- context [finish cfg ?s] =>
        destruct (finish_number cfg s 0%Z) as [msgs Hf]; [cbn; now rewrite Ht |]
    end.
    eexists. rewrite Hf. cbn [all_data total_count advanced]. rewrite Hd, Ht.
    split; [reflexivity |]. rewrite posts_logged, sleeps_logged. cbn.
    rewrite posts_app, sleeps_app, Hposts, Hsleeps, Hr. cbn. rewrite !app_nil_r.
    repeat split; auto.
    apply in_or_app. left. apply in_or_app. right. cbn. auto.
  - replace (Z.of_nat rc <? api_max_retries cfg)%Z with true in Hb
      by (symmetry; apply Z.ltb_lt; lia).
    change (S k + extra)%nat with (S (k + extra)).
    rewrite (crawl_loop_retry _ _ _ _ _ Hb).
    cbn [retry_count requests trace advanced].
    match goal with
    | |- context [crawl_loop _ _ _ (enter ?rc' ?n' ?tr')] =>
        destruct (IH rc' n' tr' extra) as (st & Hc & Hrc' & Hposts' & Hsleeps' & Hin)
    end.
    { rewrite Hr. lia. }
    exists st. rewrite Hc. split; [reflexivity |].
    rewrite Hrc', Hposts', Hsleeps', Hr.
    rewrite !posts_app, !sleeps_app, Hposts, Hsleeps. cbn.
    rewrite <- !app_assoc, ?app_nil_r. cbn.
    repeat split; auto; lia.
Qed.

End ZeroTotal.

(** X1. A server that holds [rows], serves them [size] a page, announces
    their number on every page and answers ["{}"] after the last one. With
    an API key and [api_max_records_per_request = size], when the rows fill
    [k] pages and one more, in part or in full, the crawl returns all rows,
    in order, with the announced total and [is_complete = True]. It
    requests the pages 1 to [k + 2], each once, the last to make sure that
    nothing follows; it sleeps one second after each of the first [k]
    pages and restarts nothing. *)
Theorem paged_crawl_announced (cfg : Config) (size : nat) (rows : list json)
  (k extra : nat) :
  has_api_key cfg = true ->
  api_max_records_per_request cfg = Z.of_nat size ->
  (k * size < List.length rows)%nat ->
  (List.length rows <= S k * size)%nat ->
  exists st,
    crawl_data cfg (paged (Some (Z.of_nat (List.length rows))) size rows) (S k + extra) =
    Some (Returned rows (JNum (Z.of_nat (List.length rows))) true, st) /\
    posts (trace st) = seq 1 (k + 2) /\
    sleeps (trace st) = repeat 1%Z k /\
    retry_count st = 0%nat.
Proof.
  intros Hkey Hsize Hlo Hhi.
  destruct (announced_run cfg size rows Hkey Hsize k 0 (enter 0 0 []) extra)
    as (st & Hrun & Hposts & Hsleeps & Hr).
  - repeat split; reflexivity.
  - exact Hlo.
  - exact Hhi.
  - exists st. unfold crawl_data. rewrite Hrun, Hposts, Hsleeps, Hr.
    replace (S k + 1)%nat with (k + 2)%nat by lia. repeat split; reflexivity.
Qed.

Lemma paged_crawl_announced_witness :
  has_api_key small_pages = true /\
  api_max_records_per_request small_pages = Z.of_nat 2 /\
  exists st,
    crawl_data small_pages (paged (Some 3%Z) 2 [row 1; row 2; row 3]) 2 =
    Some (Returned [row 1; row 2; row 3] (JNum 3) true, st) /\
    posts (trace st) = [1; 2; 3]%nat /\
    sleeps (trace st) = [1%Z].
Proof.
  assert (Hlo : (1 * 2 < List.length [row 1; row 2; row 3])%nat) by (cbn; lia).
  assert (Hhi : (List.length [row 1; row 2; row 3] <= 2 * 2)%nat) by (cbn; lia).
  split; [reflexivity |]. split; [reflexivity |].
  destruct (paged_crawl_announced small_pages 2 [row 1; row 2; row 3] 1 0
              eq_refl eq_refl Hlo Hhi) as (st & H1 & H2 & H3 & _).
  exists st. auto.
Defined.

(** X2. The same server when it announces no total. With an API key and
    [api_max_records_per_request = size], when the rows fill [k] pages, the
    last one in part or in full ([k = 0]: there is no row), the crawl
    returns all rows, in order, with no total and [is_complete = True].
    After a last page that is not full it asks for one more page and ends
    ([k + 1] requests, a sleep of one second after each of the first
    [k - 1]); after a last page that is full, or without any row, it ends
    on the second of two empty pages ([k + 2] requests, [k + 1] sleeps). *)
Theorem paged_crawl_unannounced (cfg : Config) (size : nat) (rows : list json)
  (k extra : nat) :
  has_api_key cfg = true ->
  api_max_records_per_request cfg = Z.of_nat size ->
  (List.length rows <= k * size)%nat ->
  (k <> 0%nat -> (k - 1) * size < List.length rows)%nat ->
  let full := (List.length rows =? k * size)%nat in
  exists st,
    crawl_data cfg (paged None size rows) (k + 2 + extra) =
    Some (Returned rows JNull true, st) /\
    posts (trace st) = seq 1 (k + if full then 2 else 1) /\
    sleeps (trace st) = repeat 1%Z (if full then k + 1 else k - 1) /\
    retry_count st = 0%nat.
Proof.
  intros Hkey Hsize Hhi Hlast full.
  destruct (plain_run cfg size rows Hkey Hsize k 0 (enter 0 0 []) extra)
    as (st & Hrun & Hposts & Hsleeps & Hr).
  - repeat split; reflexivity.
  - cbn. lia.
  - exact Hhi.
  - exact Hlast.
  - exists st. unfold crawl_data. rewrite Hrun, Hposts, Hsleeps, Hr.
    repeat split; reflexivity.
Qed.

Lemma paged_crawl_unannounced_witness :
  has_api_key small_pages = true /\
  api_max_records_per_request small_pages = Z.of_nat 2 /\
  exists st,
    crawl_data small_pages (paged None 2 [row 1; row 2; row 3; row 4]) 4 =
    Some (Returned [row 1; row 2; row 3; row 4] JNull true, st) /\
    posts (trace st) = [1; 2; 3; 4]%nat /\
    sleeps (trace st) = [1; 1; 1]%Z.
Proof.
  assert (Hhi : (List.length [row 1; row 2; row 3; row 4] <= 2 * 2)%nat) by (cbn; lia).
  assert (Hlast : (2 <> 0 -> (2 - 1) * 2 < List.length [row 1; row 2; row 3; row 4])%nat)
    by (cbn; lia).
  split; [reflexivity |]. split; [reflexivity |].
  destruct (paged_crawl_unannounced small_pages 2 [row 1; row 2; row 3; row 4] 2 0
              eq_refl eq_refl Hhi Hlast) as (st & H1 & H2 & H3 & _).
  exists st. auto.
Defined.



(** X4. The same server when the total it announces is zero although it
    holds rows. With an API key and a non-negative [api_retry_delay] and
    [api_max_retries]: in every attempt the progress percentage of page 1
    divides by the total, the [ZeroDivisionError] is answered like a
    failure of the request, and when the retries are used up the crawl
    returns the rows of page 1 alone, with the total 0 and
    [is_complete = True]. Page 1 is requested [api_max_retries + 1] times
    and no other page is: the rows of the later pages are never
    collected. *)
Theorem paged_crawl_zero_total (cfg : Config) (size : nat) (rows : list json)
  (extra : nat) :
  has_api_key cfg = true ->
  (0 <= api_retry_delay cfg)%Z ->
  (0 <= api_max_retries cfg)%Z ->
  page_rows size rows 1 <> [] ->
  let retries := Z.to_nat (api_max_retries cfg) in
  exists st,
    crawl_data cfg (paged (Some 0%Z) size rows) (S (retries + extra)) =
    Some (Returned (page_rows size rows 1) (JNum 0) true, st) /\
    posts (trace st) = repeat 1%nat (S retries) /\
    sleeps (trace st) = repeat (api_retry_delay cfg) retries /\
    In (Log (UnexpectedError ZeroDivisionError)) (trace st).
Proof.
  intros Hkey Hdelay Hmax Hrows retries.
  destruct (page_rows size rows 1) as [| a l] eqn:Hchunk; [contradiction |].
  destruct (zero_total_run cfg size rows Hkey Hdelay a l retries Hchunk 0 0 [] extra)
    as (st & Hc & _ & Hposts & Hsleeps & Hin).
  { cbn [Z.of_nat]. unfold retries. rewrite Z2Nat.id; lia. }
  exists st. unfold crawl_data. rewrite Hc. auto.
Qed.

Lemma paged_crawl_zero_total_witness :
  has_api_key small_pages = true /\
  (0 <= api_retry_delay small_pages)%Z /\
  (0 <= api_max_retries small_pages)%Z /\
  exists st,
    crawl_data small_pages (paged (Some 0%Z) 2 [row 1; row 2; row 3]) 4 =
    Some (Returned [row 1; row 2] (JNum 0) true, st) /\
    posts (trace st) = [1; 1; 1; 1]%nat.
Proof.
  assert (Hd : (0 <= api_retry_delay small_pages)%Z) by (cbn; lia).
  assert (H0 : (0 <= api_max_retries small_pages)%Z) by (cbn; lia).
  assert (Hr : page_rows 2 [row 1; row 2; row 3] 1 <> []) by discriminate.
  split; [reflexivity |]. split; [exact Hd |]. split; [exact H0 |].
  destruct (paged_crawl_zero_total small_pages 2 [row 1; row 2; row 3] 0 eq_refl Hd H0 Hr)
    as (st & H1 & H2 & _).
  exists st. split; [exact H1 | exact H2].
Defined.

(** ** The units of a range scan *)

Lemma py_range_cons (a b : Z) : (a < b)%Z -> py_range a b = a :: py_range (a + 1) b.
Proof.
  intros H. unfold py_range.
  replace (Z.to_nat (b - a)) with (S (Z.to_nat (b - (a + 1)))) by lia.
  cbn [seq map]. f_equal; [lia |].
  rewrite <- seq_shift, map_map. apply map_ext. intros i. lia.
Qed.

Lemma py_range_nil (a b : Z) : (b <= a)%Z -> py_range a b = [].
Proof. intros H. unfold py_range. now replace (Z.to_nat (b - a)) with 0%nat by lia. Qed.

Lemma date_leb_false_year (c e : date) :
  (year_of e < year_of c)%Z -> date_leb c e = false.
Proof.
  intros H. unfold date_leb.
  replace (year_of c <? year_of e)%Z with false by (symmetry; apply Z.ltb_ge; lia).
  replace (year_of c =? year_of e)%Z with false by (symmetry; apply Z.eqb_neq; lia).
  reflexivity.
Qed.

Lemma date_leb_same_year (y m d m' d' : Z) :
  date_leb {| year_of := y; month_of := m; day_of := d |}
    {| year_of := y; month_of := m'; day_of := d' |} =
  ((m <? m') || ((m =? m') && (d <=? d')))%Z.
Proof.
  unfold date_leb. cbn [year_of month_of day_of].
  now rewrite Z.ltb_irrefl, Z.eqb_refl.
Qed.

Section Units.
Variable crawl : Z -> date -> option outcome.
Variable now : nat -> string.
Hypothesis Hcrawl : returns_always crawl.

(** The walk over the days, from day [d] of month [m] to the end of month
    [me] of the same year. *)
Lemma walk_days_units (y me dim_e : Z) (fuel : nat) :
  (1 <= me <= 12)%Z ->
  (y < 9999)%Z ->
  monthrange_days y me = Ok dim_e ->
  forall m d dim st,
    (1 <= m <= me)%Z ->
    monthrange_days y m = Ok dim ->
    (1 <= d <= dim)%Z ->
    (32 * me + dim_e - (32 * m + d) + 2 <= Z.of_nat fuel)%Z ->
    exists st',
      walk_days crawl now fuel y
        {| year_of := y; month_of := m; day_of := d |}
        {| year_of := y; month_of := me; day_of := dim_e |} st = (inl tt, st') /\
      calls st' =
      calls st ++
      map (pair y)
        (map (fun d' => {| year_of := y; month_of := m; day_of := d' |}) (py_range d (dim + 1)) ++
         flat_map (days_of_month y) (py_range (m + 1) (me + 1))) /\
      ledger_file st' = ledger_file st.
Proof.
  intros Hme Hy He.
  destruct (monthrange_days_bound _ _ _ He) as [Hbe _].
  induction fuel as [| fuel IH]; intros m d dim st Hm Hdim Hd Hfuel;
    destruct (monthrange_days_bound _ _ _ Hdim) as [Hb _].
  { destruct (Z.eq_dec m me) as [-> | Hne]; [assert (dim = dim_e) by congruence |]; lia. }
  cbn [walk_days]. rewrite date_leb_same_year.
  assert (Hle : ((m <? me) || ((m =? me) && (d <=? dim_e)))%Z = true).
  { destruct (Z.eq_dec m me) as [-> | Hne].
    - assert (dim = dim_e) by congruence. subst dim.
      rewrite Z.eqb_refl. replace (d <=? dim_e)%Z with true by (symmetry; apply Z.leb_le; lia).
      apply orb_true_r.
    - replace (m <? me)%Z with true by (symmetry; apply Z.ltb_lt; lia). reflexivity. }
  rewrite Hle. unfold bind at 1.
  destruct (scan_unit_returns crawl now y {| year_of := y; month_of := m; day_of := d |} st Hcrawl)
    as (st1 & Hs & Hcalls & Hl).
  rewrite Hs. unfold bind at 1. unfold raising at 1. unfold next_day.
  cbn [year_of month_of day_of]. rewrite Hdim. cbn [rbind].
  destruct (d <? dim)%Z eqn:Hday.
  - apply Z.ltb_lt in Hday.
    destruct (IH m (d + 1)%Z dim st1 Hm Hdim ltac:(lia) ltac:(lia))
      as (st' & Hw & Hcalls' & Hl').
    exists st'. rewrite Hw, Hcalls', Hcalls, Hl', Hl, <- app_assoc.
    rewrite (py_range_cons d (dim + 1)) by lia. repeat split; reflexivity.
  - apply Z.ltb_ge in Hday. assert (d = dim) by lia. subst d.
    rewrite (py_range_cons dim (dim + 1)) by lia.
    rewrite (py_range_nil (dim + 1) (dim + 1)) by lia.
    destruct (m <? 12)%Z eqn:Hmonth.
    + apply Z.ltb_lt in Hmonth.
      destruct (Z.eq_dec m me) as [-> | Hne].
      * destruct fuel as [| fuel]; [lia |]. cbn [walk_days].
        rewrite date_leb_same_year.
        replace (me + 1 <? me)%Z with false by (symmetry; apply Z.ltb_ge; lia).
        replace (me + 1 =? me)%Z with false by (symmetry; apply Z.eqb_neq; lia).
        cbn [orb andb]. unfold ret. exists st1.
        rewrite Hcalls, Hl, (py_range_nil (me + 1) (me + 1)) by lia.
        repeat split; reflexivity.
      * assert (Hnext : exists dim', monthrange_days y (m + 1) = Ok dim').
        { unfold monthrange_days.
          replace ((1 <=? m + 1) && (m + 1 <=? 12))%Z with true; [eexists; reflexivity |].
          symmetry. apply andb_true_iff. split; apply Z.leb_le; lia. }
        destruct Hnext as [dim' Hdim'].
        destruct (monthrange_days_bound _ _ _ Hdim') as [Hb' _].
        destruct (IH (m + 1)%Z 1%Z dim' st1 ltac:(lia) Hdim' ltac:(lia) ltac:(lia))
          as (st' & Hw & Hcalls' & Hl').
        exists st'. rewrite Hw, Hcalls', Hcalls, Hl', Hl, <- app_assoc.
        rewrite (py_range_cons (m + 1) (me + 1)) by lia.
        cbn [flat_map map app]. unfold days_of_month at 2. rewrite Hdim'.
        repeat split; reflexivity.
    + apply Z.ltb_ge in Hmonth. assert (m = 12%Z) by lia. assert (me = 12%Z) by lia.
      subst m me.
      replace (y <? 9999)%Z with true by (symmetry; apply Z.ltb_lt; lia).
      destruct fuel as [| fuel]; [lia |]. cbn [walk_days].
      rewrite date_leb_false_year by (cbn; lia).
      unfold ret. exists st1.
      rewrite Hcalls, Hl, (py_range_nil (12 + 1) (12 + 1)) by lia.
      repeat split; reflexivity.
Qed.

Lemma in_py_range (a b m : Z) : In m (py_range a b) -> (a <= m < b)%Z.
Proof.
  unfold py_range. rewrite in_map_iff. intros (i & <- & Hi). apply in_seq in Hi. lia.
Qed.

Lemma month_end_ok (y m : Z) :
  (1 <= y <= 9999)%Z -> (1 <= m <= 12)%Z ->
  exists dim,
    monthrange_days y m = Ok dim /\ (28 <= dim <= 31)%Z /\
    get_last_day_of_month y m = Ok {| year_of := y; month_of := m; day_of := dim |} /\
    datetime y m 1 = Ok {| year_of := y; month_of := m; day_of := 1 |}.
Proof.
  intros Hy Hm.
  assert (Hd : exists dim, monthrange_days y m = Ok dim).
  { unfold monthrange_days.
    replace ((1 <=? m) && (m <=? 12))%Z with true; [eexists; reflexivity |].
    symmetry. apply andb_true_iff. split; apply Z.leb_le; lia. }
  destruct Hd as [dim Hd]. destruct (monthrange_days_bound _ _ _ Hd) as [Hb _].
  exists dim. split; [exact Hd |]. split; [exact Hb |].
  unfold get_last_day_of_month, datetime. rewrite Hd. cbn [rbind].
  replace ((1 <=? y) && (y <=? 9999))%Z with true
    by (symmetry; apply andb_true_iff; split; apply Z.leb_le; lia).
  replace ((1 <=? dim) && (dim <=? dim))%Z with true
    by (symmetry; apply andb_true_iff; split; apply Z.leb_le; lia).
  replace ((1 <=? 1) && (1 <=? dim))%Z with true
    by (symmetry; apply andb_true_iff; split; apply Z.leb_le; lia).
  split; reflexivity.
Qed.

Lemma map_flat_map {A B C} (f : B -> C) (g : A -> list B) (l : list A) :
  map f (flat_map g l) = flat_map (fun x => map f (g x)) l.
Proof. induction l as [| x l IH]; cbn; [reflexivity |]. now rewrite map_app, IH. Qed.

Lemma flat_map_same {A B} (f g : A -> list B) (l : list A) :
  (forall a, In a l -> f a = g a) -> flat_map f l = flat_map g l.
Proof.
  induction l as [| x l IH]; intros H; cbn; [reflexivity |].
  rewrite (H x (or_introl eq_refl)), IH; [reflexivity |].
  intros a Ha. apply H. now right.
Qed.

(** One year of the range scan. *)
Lemma scan_year_units (all_days : bool) (sy ey sm em y : Z) (st : mstate) :
  (1 <= y <= 9999)%Z ->
  (all_days = true -> y < 9999)%Z ->
  (1 <= sm <= 12)%Z -> (1 <= em <= 12)%Z ->
  exists st',
    scan_year crawl now all_days sy ey sm em y st = (inl tt, st') /\
    calls st' = calls st ++ year_units all_days sy ey sm em y /\
    ledger_file st' = ledger_file st.
Proof.
  intros Hy Hlast Hsm Hem. unfold scan_year, year_units.
  set (ms := if (y =? sy)%Z then sm else 1%Z).
  set (me := if (y =? ey)%Z then em else 12%Z).
  assert (Hms : (1 <= ms <= 12)%Z) by (unfold ms; destruct (y =? sy)%Z; lia).
  assert (Hme : (1 <= me <= 12)%Z) by (unfold me; destruct (y =? ey)%Z; lia).
  destruct all_days.
  - specialize (Hlast eq_refl).
    destruct (month_end_ok y ms Hy Hms) as (dim & Hdim & Hb & _ & Hstart).
    destruct (month_end_ok y me Hy Hme) as (dim_e & Hdim_e & Hbe & Hend & _).
    unfold bind at 1. rewrite Hstart. unfold raising at 1.
    unfold bind at 1. rewrite Hdim_e. unfold raising at 1.
    unfold bind at 1.
    assert (Hdt : datetime y me dim_e = Ok {| year_of := y; month_of := me; day_of := dim_e |}).
    { unfold get_last_day_of_month in Hend. rewrite Hdim_e in Hend. exact Hend. }
    rewrite Hdt. unfold raising at 1.
    destruct (Z_le_gt_dec ms me) as [Hle | Hgt].
    + destruct (walk_days_units y me dim_e 416 Hme Hlast Hdim_e ms 1%Z dim st)
        as (st' & Hw & Hcalls & Hl); try lia; [exact Hdim |].
      exists st'. rewrite Hw, Hcalls, Hl. repeat split. f_equal.
      rewrite (py_range_cons ms (me + 1)) by lia. cbn [flat_map].
      unfold days_of_month at 2. rewrite Hdim.
      now rewrite map_app, map_flat_map.
    + cbn [walk_days]. rewrite date_leb_same_year.
      replace (ms <? me)%Z with false by (symmetry; apply Z.ltb_ge; lia).
      replace (ms =? me)%Z with false by (symmetry; apply Z.eqb_neq; lia).
      cbn [orb andb]. unfold ret. exists st.
      rewrite (py_range_nil ms (me + 1)) by lia. cbn. now rewrite app_nil_r.
  - destruct (month_loop crawl now y (py_range ms (me + 1)) Hcrawl st)
      as (st' & Hf & Hcalls & Hl).
    { intros m Hin. apply in_py_range in Hin.
      destruct (month_end_ok y m Hy ltac:(lia)) as (dim & _ & _ & Hend & _). eauto. }
    exists st'. rewrite Hf, Hcalls, Hl. repeat split. f_equal.
    apply flat_map_same. intros m Hin. apply in_py_range in Hin.
    destruct (month_end_ok y m Hy ltac:(lia)) as (dim & Hdim & _ & Hend & _).
    unfold end_of_month. now rewrite Hend, Hdim.
Qed.

(** The loop over the years. *)
Lemma years_units (all_days : bool) (sy ey sm em : Z) (years : list Z) :
  (forall y, In y years -> (1 <= y <= 9999)%Z /\ (all_days = true -> y < 9999)%Z) ->
  (1 <= sm <= 12)%Z -> (1 <= em <= 12)%Z ->
  forall st,
    exists st',
      for_each years (scan_year crawl now all_days sy ey sm em) st = (inl tt, st') /\
      calls st' = calls st ++ flat_map (year_units all_days sy ey sm em) years /\
      ledger_file st' = ledger_file st.
Proof.
  intros Hyears Hsm Hem.
  induction years as [| y rest IH]; intros st; cbn [for_each flat_map].
  - exists st. now rewrite app_nil_r.
  - destruct (Hyears y (or_introl eq_refl)) as [Hy Hlast].
    destruct (scan_year_units all_days sy ey sm em y st Hy Hlast Hsm Hem)
      as (st1 & Hs & Hcalls & Hl).
    unfold bind at 1. rewrite Hs.
    destruct IH with (st := st1) as (st2 & Hf & Hcalls2 & Hl2).
    { intros y' Hin. apply Hyears. now right. }
    exists st2. rewrite Hf, Hcalls2, Hcalls, Hl2, Hl, <- app_assoc. repeat split; reflexivity.
Qed.

(** A range scan, from the command line to the end of [main]. *)
Lemma range_scan_calls (cfg : Config) (all_days : bool) (sy ey sm em : Z)
  (ledger : option (list IncompleteRecord)) :
  has_api_key cfg = true ->
  (1 <= sy <= ey)%Z -> (ey <= 9999)%Z -> (all_days = true -> ey < 9999)%Z ->
  (1 <= sm <= 12)%Z -> (1 <= em <= 12)%Z ->
  exists st',
    run cfg crawl now (range_args all_days sy ey sm em) ledger = (inl tt, st') /\
    calls st' = flat_map (year_units all_days sy ey sm em) (py_range sy (ey + 1)).
Proof.
  intros Hkey Hsy Hey Hlast Hsm Hem. unfold run, main. cbv zeta.
  unfold bind at 1. unfold load_incomplete_dates, get. cbv beta iota.
  unfold bind at 1. rewrite Hkey. unfold ret at 1.
  cbn [range_args arg_date arg_retry_incomplete arg_all_days arg_start_year
         arg_end_year arg_start_month arg_end_month or_default].
  replace (sy =? 0)%Z with false by (symmetry; apply Z.eqb_neq; lia).
  replace (ey =? 0)%Z with false by (symmetry; apply Z.eqb_neq; lia).
  replace (sm =? 0)%Z with false by (symmetry; apply Z.eqb_neq; lia).
  replace (em =? 0)%Z with false by (symmetry; apply Z.eqb_neq; lia).
  unfold bind at 1. unfold ret at 1. unfold bind at 1. unfold ret at 1.
  unfold bind at 1.
  match goal with
  | |- context [for_each ?l ?body ?s] =>
      destruct (years_units all_days sy ey sm em l) with (st := s)
        as (st1 & Hf & Hcalls & Hl)
  end; try assumption.
  { intros y Hin. apply in_py_range in Hin. split; [lia |]. intros Ha.
    specialize (Hlast Ha). lia. }
  rewrite Hf. rewrite (py_range_cons sy (ey + 1)) by lia. cbn [nonempty].
  cbv [ret bind get save_incomplete_dates]. cbv beta iota.
  rewrite (py_range_cons sy (ey + 1)) in Hcalls by lia.
  destruct (nonempty (new_incomplete_dates st1)); eexists; (split; [reflexivity |]);
    exact Hcalls.
Qed.

End Units.





(** ** Further properties of the orchestrator *)

Section MainRuns.
Variable cfg : Config.
Variable crawl : Z -> date -> option outcome.
Variable now : nat -> string.

Lemma retry_ledger_length (k : nat) (items : list IncompleteRecord) :
  (List.length (retry_ledger crawl now k items) <= List.length items)%nat.
Proof.
  revert k. induction items as [| item rest IH]; intros k; cbn [retry_ledger]; [lia |].
  rewrite length_app. specialize (IH (S k)).
  destruct (crawl (r_year item) (r_date item)) as [[data total [|] | e] |]; cbn; lia.
Qed.

Lemma retry_items_calls (items : list IncompleteRecord) :
  returns_always crawl ->
  forall st,
    exists st',
      for_each items (retry_item crawl now) st = (inl tt, st') /\
      calls st' = calls st ++ map (fun item => (r_year item, r_date item)) items.
Proof.
  intros Hc. induction items as [| item rest IH]; intros st; cbn [for_each map].
  - exists st. now rewrite app_nil_r.
  - destruct (Hc (r_year item) (r_date item)) as (data & total & c & Hcr & Hok).
    destruct (success_rate_ok (List.length data) total Hok) as [q Hq].
    unfold bind at 1. unfold retry_item at 1. unfold bind at 1. unfold call_crawl.
    rewrite Hcr. cbv beta iota. unfold bind at 1. unfold raising. rewrite Hq.
    destruct c; cbn [negb].
    + unfold ret at 1.
      match goal with
      | |- context [for_each rest _ ?s] => destruct (IH s) as (st' & Hf & Hcalls)
      end.
      exists st'. rewrite Hf, Hcalls. cbn [calls]. now rewrite <- app_assoc.
    + unfold bind at 1. unfold timestamp, get, append_incomplete. cbv beta iota.
      match goal with
      | |- context [for_each rest _ ?s] => destruct (IH s) as (st' & Hf & Hcalls)
      end.
      exists st'. rewrite Hf, Hcalls. cbn [calls]. now rewrite <- app_assoc.
Qed.

End MainRuns.



(** X18. With [--date] and an API key, whatever the other arguments:
    [crawl_data] is called once, for that date and the year of that date;
    the ledger file is left as it was; and the run exits with status 0
    however the crawl ends, also when it raises, since [sys.exit(0)] in
    the [finally] clause replaces the exception. No retry of the ledger
    and no range scan take place. *)
Theorem date_run_exits_zero (cfg : Config) (crawl : Z -> date -> option outcome)
  (now : nat -> string) (args : Args) (ledger : option (list IncompleteRecord))
  (d : date) :
  has_api_key cfg = true ->
  arg_date args = Some d ->
  crawl (year_of d) d <> None ->
  exists st',
    run cfg crawl now args ledger = (inr (Exit 0), st') /\
    calls st' = [(year_of d, d)] /\
    ledger_file st' = ledger.
Proof.
  intros Hkey Hdate Hc. unfold run, main. cbv zeta.
  unfold bind at 1. unfold load_incomplete_dates, get. cbv beta iota.
  unfold bind at 1. rewrite Hkey. unfold ret at 1.
  unfold bind at 1. rewrite Hdate.
  unfold specific_date_mode, bind, call_crawl.
  cbn [ledger_file new_incomplete_dates calls].
  destruct (crawl (year_of d) d) as [[data total c | e] |]; [| | contradiction].
  - unfold raising. destruct (success_rate (List.length data) total);
      [destruct c |]; eexists; (split; [reflexivity |]); cbn; auto.
  - eexists. split; [reflexivity |]. cbn. auto.
Qed.

Lemma date_run_exits_zero_witness :
  has_api_key default_config = true /\
  always_raises 2023 {| year_of := 2023; month_of := 1; day_of := 31 |} =
  Some (Raised TypeError) /\
  exists st',
    run default_config always_raises clock one_date (Some [january_2023]) =
    (inr (Exit 0), st') /\
    calls st' = [month_end 2023 1 31] /\
    ledger_file st' = Some [january_2023].
Proof.
  assert (H1 : has_api_key default_config = true) by reflexivity.
  assert (H2 : always_raises (year_of {| year_of := 2023; month_of := 1; day_of := 31 |})
                 {| year_of := 2023; month_of := 1; day_of := 31 |} <> None) by discriminate.
  split; [exact H1 |]. split; [reflexivity |].
  exact (date_run_exits_zero default_config always_raises clock one_date
           (Some [january_2023]) _ H1 eq_refl H2).
Defined.

(** X19. A range scan whose start year is after its end year (with an API
    key; no [--date], and [--retry-incomplete] absent or given with an
    empty ledger) crawls nothing and does not reach the end of [main]: after
    the loop over no year, the code that names the overall summary reads
    [month_start], which only the loop assigns, and raises
    [UnboundLocalError]. The ledger file is left as it was. *)
Theorem empty_year_range (cfg : Config) (crawl : Z -> date -> option outcome)
  (now : nat -> string) (args : Args) (ledger : option (list IncompleteRecord)) :
  has_api_key cfg = true ->
  range_run args ledger ->
  (or_default (arg_end_year args) (data_end_year cfg) <
   or_default (arg_start_year args) (data_start_year cfg))%Z ->
  run cfg crawl now args ledger =
  (inr (Uncaught UnboundLocalError),
   {| new_incomplete_dates := []; ledger_file := ledger; calls := [] |}).
Proof.
  intros Hkey [Hdate Hretry] Hyears. unfold run, main. cbv zeta.
  unfold bind at 1. unfold load_incomplete_dates, get. cbv beta iota.
  cbn [ledger_file].
  unfold bind at 1. rewrite Hkey. unfold ret at 1.
  unfold bind at 1. rewrite Hdate. unfold ret at 1.
  rewrite py_range_nil by lia.
  assert (Hr : arg_retry_incomplete args = false \/
               match ledger with Some l => l | None => [] end = []).
  { destruct Hretry as [Hr | [-> | ->]]; auto. }
  unfold bind at 1.
  destruct (arg_retry_incomplete args).
  - destruct Hr as [Hr | Hr]; [discriminate |].
    rewrite Hr. unfold retry_mode. cbn [nonempty]. reflexivity.
  - reflexivity.
Qed.

Lemma empty_year_range_witness :
  has_api_key default_config = true /\
  range_run backwards None /\
  run default_config collects_all clock backwards None =
  (inr (Uncaught UnboundLocalError),
   {| new_incomplete_dates := []; ledger_file := None; calls := [] |}).
Proof.
  assert (H1 : has_api_key default_config = true) by reflexivity.
  assert (H2 : range_run backwards None) by (split; [| left]; reflexivity).
  split; [exact H1 |]. split; [exact H2 |].
  apply (empty_year_range default_config collects_all clock backwards None H1 H2).
  cbn. lia.
Defined.

(** X17. [--retry-incomplete] with nothing to retry (no ledger file, or
    an empty list in it) does not end the run: the code falls through to
    the range scan, and the run is the one the same arguments give
    without the flag. With no other argument that is the scan of all the
    months from [data_start_year] to [data_end_year]. *)
Theorem retry_without_ledger_scans (cfg : Config) (crawl : Z -> date -> option outcome)
  (now : nat -> string) (args : Args) (ledger : option (list IncompleteRecord)) :
  arg_date args = None ->
  ledger = None \/ ledger = Some [] ->
  run cfg crawl now args ledger = run cfg crawl now (without_retry args) ledger.
Proof.
  intros Hdate Hledger. unfold run, main. cbv zeta.
  cbn [without_retry arg_start_year arg_end_year arg_start_month arg_end_month
         arg_date arg_retry_incomplete arg_all_days].
  unfold bind at 1. unfold bind at 3. unfold load_incomplete_dates, get. cbv beta iota.
  cbn [ledger_file].
  assert (Hempty : match ledger with Some l => l | None => [] end = [])
    by (destruct Hledger as [-> | ->]; reflexivity).
  rewrite Hempty.
  unfold bind at 1. unfold bind at 5.
  destruct (has_api_key cfg); [| reflexivity].
  unfold ret at 1. unfold ret at 6.
  unfold bind at 1. unfold bind at 5. rewrite Hdate. unfold ret at 1. unfold ret at 6.
  unfold bind at 1. unfold bind at 4.
  destruct (arg_retry_incomplete args); reflexivity.
Qed.

Lemma retry_without_ledger_scans_witness :
  run default_config collects_all clock retry_only None =
  run default_config collects_all clock (without_retry retry_only) None /\
  List.length (calls (snd (run default_config collects_all clock retry_only None))) = 108%nat.
Proof.
  split; [| vm_compute; reflexivity].
  exact (retry_without_ledger_scans default_config collects_all clock retry_only None
           eq_refl (or_introl eq_refl)).
Defined.

(** ** What the crawler promises to the orchestrator *)

(** A result with [is_complete = False] carries a total that is a number,
    of which less than 99.5% were collected. *)
Lemma incomplete_result (cfg : Config) (srv : server) (fuel : nat)
  (data : list json) (total : json) (st : cstate) :
  crawl_data cfg srv fuel = Some (Returned data total false, st) ->
  exists expected,
    as_number total = Ok expected /\
    (1000 * Z.of_nat (List.length data) < 995 * expected)%Z.
Proof.
  unfold crawl_data. intros H.
  destruct (crawl_loop_returned cfg srv fuel _ _ _ _ _ H) as [st0 Hf].
  destruct (finish_returned cfg st0 _ _ _ _ Hf) as (_ & _ & Hnone & Hnum & Hok).
  destruct Hok as [Hn | [z Hz]]; [specialize (Hnone Hn); discriminate |].
  exists z. split; [exact Hz |].
  specialize (Hnum z Hz). symmetry in Hnum. apply Z.leb_gt in Hnum. exact Hnum.
Qed.

Lemma crawler_incomplete (cfg : Config) (world : Z -> date -> server) (fuel : nat)
  (y : Z) (d : date) (data : list json) (total : json) :
  crawler cfg world fuel y d = Some (Returned data total false) ->
  exists expected,
    as_number total = Ok expected /\
    (1000 * Z.of_nat (List.length data) < 995 * expected)%Z.
Proof.
  unfold crawler.
  destruct (crawl_data cfg (world y d) fuel) as [[o st] |] eqn:Hc; [| discriminate].
  intros H. assert (o = Returned data total false) by congruence. subst o.
  exact (incomplete_result cfg (world y d) fuel data total st Hc).
Qed.

(** X20. Whatever the mode, the arguments, the servers and the ledger
    before the run: when the run has written the ledger file, every record
    in it has a number as its expected total, and a number of collected
    rows below 99.5% of it. No record with an unknown total, with a total
    of zero, or with a total that was reached is ever written. *)
Theorem ledger_records_unmet (cfg : Config) (world : Z -> date -> server) (fuel : nat)
  (now : nat -> string) (args : Args) (ledger : option (list IncompleteRecord))
  (res : unit + halt) (st' : mstate) :
  run cfg (crawler cfg world fuel) now args ledger = (res, st') ->
  ledger_file st' = ledger \/
  exists l, ledger_file st' = Some l /\ Forall unmet l.
Proof.
  intros Hrun. set (crawl := crawler cfg world fuel) in *.
  destruct (arg_date args) as [d |] eqn:Hdate.
  - left. pose proof (specific_mode crawl now cfg args ledger d Hdate) as H.
    now rewrite Hrun in H.
  - assert (Hcase : range_run args ledger \/
                    exists item rest,
                      arg_retry_incomplete args = true /\ ledger = Some (item :: rest)).
    { destruct (arg_retry_incomplete args) eqn:Hr.
      - destruct ledger as [[| item rest] |].
        + left. split; auto.
        + right. now exists item, rest.
        + left. split; auto.
      - left. split; auto. }
    destruct Hcase as [Hrange | (item & rest & Hr & ->)].
    + destruct (range_mode crawl now cfg args ledger res st' Hrange Hrun) as [Hrec Hl].
      destruct res as [u | x]; [| now left].
      destruct (nonempty (new_incomplete_dates st')); [| now left].
      right. exists (new_incomplete_dates st'). split; [exact Hl |].
      apply Forall_impl with (2 := Hrec).
      intros r (data & total & Hc & _ & He & Hn & _).
      destruct (crawler_incomplete cfg world fuel _ _ _ _ Hc) as (e & Hnum & Hlt).
      exists e. rewrite He, Hn. auto.
    + pose proof (retry_mode_run crawl now cfg args item rest _ _ Hdate Hr Hrun) as H.
      destruct res as [u | [code | e |]]; try (now left).
      right. eexists. split; [exact H |].
      apply Forall_forall. intros r Hin.
      destruct (retry_ledger_sound crawl now 0 _ r Hin)
        as (it & data & total & _ & Hc & _ & _ & He & Hn & _).
      destruct (crawler_incomplete cfg world fuel _ _ _ _ Hc) as (e & Hnum & Hlt).
      exists e. rewrite He, Hn. auto.
Qed.

Lemma ledger_records_unmet_witness :
  exists l,
    ledger_file
      (snd (run default_config (crawler default_config (fun _ _ => rows_not_a_list) 4) clock
              retry_only (Some [january_2023]))) = Some l /\
    List.length l = 1%nat /\ Forall unmet l.
Proof.
  destruct (ledger_records_unmet default_config (fun _ _ => rows_not_a_list) 4 clock
              retry_only (Some [january_2023]) _ _ (surjective_pairing _))
    as [H | (l & Hl & Hu)].
  - vm_compute in H. discriminate H.
  - exists l. split; [exact Hl |]. split; [| exact Hu].
    assert (Hlen : option_map (@List.length _)
                     (ledger_file
                        (snd (run default_config
                                (crawler default_config (fun _ _ => rows_not_a_list) 4) clock
                                retry_only (Some [january_2023])))) = Some 1%nat)
      by (vm_compute; reflexivity).
    rewrite Hl in Hlen. cbn in Hlen. congruence.
Defined.

(** X21. On every result [crawl_data] returns, the status column of the
    count log is "SUCCESS" when [is_complete] is true and "INCOMPLETE"
    when it is false: the third label, "NO DATA", is never written, and a
    unit for which no total was ever learned is logged as a success. The
    success rate next to it never divides by zero. *)
Theorem status_is_success_or_incomplete (cfg : Config) (srv : server) (fuel : nat)
  (data : list json) (total : json) (flag : bool) (st : cstate) :
  crawl_data cfg srv fuel = Some (Returned data total flag, st) ->
  status_of flag total = (if flag then "SUCCESS" else "INCOMPLETE") /\
  status_of flag total <> "NO DATA" /\
  (total = JNull -> status_of flag total = "SUCCESS") /\
  exists rate, success_rate (List.length data) total = Ok rate.
Proof.
  intros Hc.
  assert (Hstatus : status_of flag total = (if flag then "SUCCESS" else "INCOMPLETE")).
  { unfold status_of. destruct flag; [reflexivity |].
    destruct (incomplete_result cfg srv fuel data total st Hc) as (e & He & Hlt).
    destruct total as [| b | n | | |]; cbn in He; try discriminate.
    - destruct b; [reflexivity |]. assert (e = 0%Z) by congruence. lia.
    - assert (e = n) by congruence. subst e. cbn.
      replace (n =? 0)%Z with false by (symmetry; apply Z.eqb_neq; lia). reflexivity. }
  unfold crawl_data in Hc.
  destruct (crawl_loop_returned cfg srv fuel _ _ _ _ _ Hc) as [st0 Hf].
  destruct (finish_returned cfg st0 _ _ _ _ Hf) as (_ & _ & Hnone & _ & Hok).
  split; [exact Hstatus |]. split; [| split].
  - rewrite Hstatus. destruct flag; discriminate.
  - intros Hn. rewrite Hstatus, (Hnone Hn). reflexivity.
  - exact (success_rate_ok (List.length data) total Hok).
Qed.

Lemma status_is_success_or_incomplete_witness :
  exists st,
    crawl_data default_config unreachable 4 = Some (Returned [] JNull true, st) /\
    status_of true JNull = "SUCCESS".
Proof.
  assert (Hc : exists st,
             crawl_data default_config unreachable 4 = Some (Returned [] JNull true, st))
    by (eexists; vm_compute; reflexivity).
  destruct Hc as [st Hc]. exists st. split; [exact Hc |].
  exact (proj1 (status_is_success_or_incomplete default_config unreachable 4 _ _ _ _ Hc)).
Defined.

(** ** The classifier on JSON objects *)

Lemma all_no_row_dicts (items : list json) :
  forallb is_dict items = true ->
  all_no_row items = Ok (forallb rowless items).
Proof.
  induction items as [| item rest IH]; [reflexivity |].
  cbn [forallb all_no_row]. intros H. apply andb_true_iff in H. destruct H as [Hd Hrest].
  destruct item as [| | | | | members]; try discriminate.
  unfold no_row, py_in, py_getitem, rowless. cbn [rbind].
  destruct (lookup "row" members) as [v |]; cbn [negb rbind andb].
  - destruct (truthy v); cbn [negb]; [reflexivity | now apply IH].
  - now apply IH.
Qed.

(** X13. [is_empty_response] on a JSON object never raises when the value
    of ['QWGJK'], if any, is a list of objects, and then it answers: true
    for the object without members; false for an object with members and
    without the key ['QWGJK']; and for an object whose ['QWGJK'] is a list
    of objects, true exactly when no element has a truthy ['row'] (an
    empty list included). *)
Theorem is_empty_response_on_objects (members : list (string * json)) :
  (members = [] -> is_empty_response (JDict members) = Ok true) /\
  (members <> [] -> lookup "QWGJK" members = None ->
   is_empty_response (JDict members) = Ok false) /\
  (forall items,
      lookup "QWGJK" members = Some (JList items) ->
      forallb is_dict items = true ->
      is_empty_response (JDict members) = Ok (forallb rowless items)).
Proof.
  split; [| split].
  - intros ->. reflexivity.
  - intros Hne Hl. destruct members as [| [k v] rest]; [contradiction |].
    exact (proj1 (other_object_not_empty k v rest Hl)).
  - intros items Hl Hd. destruct members as [| kv rest]; [discriminate |].
    unfold is_empty_response, py_in, py_getitem.
    cbn [truthy negb is_empty_dict rbind]. rewrite Hl. cbn [rbind].
    destruct items as [| item more]; [reflexivity |].
    cbn [truthy negb py_iter rbind]. rewrite (all_no_row_dicts _ Hd).
    cbn [rbind]. now destruct (forallb rowless (item :: more)).
Qed.

Lemma is_empty_response_on_objects_witness :
  is_empty_response
    (JDict [("QWGJK", JList [JDict [("head", JList [])]; JDict [("row", JList [])]])]) =
  Ok true.
Proof.
  exact (proj2 (proj2 (is_empty_response_on_objects
                         [("QWGJK", JList [JDict [("head", JList [])]; JDict [("row", JList [])]])]))
           _ eq_refl eq_refl).
Defined.

(** ** The last day of a month *)

(** X24. [get_last_day_of_month] returns, for a year between 1 and 9999
    and a month between 1 and 12, the date of that year and month whose
    day is 31, 30, 28 or, in February of a leap year, 29; the day after it
    is the first of the next month (of January of
    the next year after December; [OverflowError] after 31 December 9999).
    For a month outside 1..12, and for a year outside 1..9999, it raises
    [ValueError]. *)
Theorem last_day_of_month_spec (year month : Z) :
  ((1 <= year <= 9999)%Z -> (1 <= month <= 12)%Z ->
   exists d,
     get_last_day_of_month year month = Ok d /\
     year_of d = year /\ month_of d = month /\
     day_of d =
     (if (month =? 2)%Z then (if isleap year then 29 else 28)
      else if ((month =? 4) || (month =? 6) || (month =? 9) || (month =? 11))%Z then 30
      else 31)%Z /\
     next_day d =
     (if (month <? 12)%Z then Ok {| year_of := year; month_of := month + 1; day_of := 1 |}
      else if (year <? 9999)%Z then Ok {| year_of := year + 1; month_of := 1; day_of := 1 |}
      else Raise OverflowError)) /\
  (~ (1 <= month <= 12)%Z -> get_last_day_of_month year month = Raise ValueError) /\
  (~ (1 <= year <= 9999)%Z -> get_last_day_of_month year month = Raise ValueError).
Proof.
  split; [| split].
  - intros Hy Hm.
    destruct (month_end_ok year month Hy Hm) as (dim & Hdim & Hb & Hend & _).
    exists {| year_of := year; month_of := month; day_of := dim |}.
    split; [exact Hend |]. cbn [year_of month_of day_of].
    split; [reflexivity |]. split; [reflexivity |]. split.
    + unfold monthrange_days in Hdim.
      replace ((1 <=? month) && (month <=? 12))%Z with true in Hdim
        by (symmetry; apply andb_true_iff; split; apply Z.leb_le; lia).
      assert (Hcases : (month = 1 \/ month = 2 \/ month = 3 \/ month = 4 \/ month = 5 \/
                        month = 6 \/ month = 7 \/ month = 8 \/ month = 9 \/ month = 10 \/
                        month = 11 \/ month = 12)%Z) by lia.
      destruct (isleap year);
        repeat (destruct Hcases as [-> | Hcases];
                [vm_compute in Hdim; vm_compute; congruence |]);
        subst; vm_compute in Hdim; vm_compute; congruence.
    + unfold next_day. cbn [year_of month_of day_of]. rewrite Hdim. cbn [rbind].
      now rewrite Z.ltb_irrefl.
  - intros Hm. unfold get_last_day_of_month, monthrange_days.
    replace ((1 <=? month) && (month <=? 12))%Z with false; [reflexivity |].
    symmetry. apply andb_false_iff.
    destruct (Z_le_gt_dec 1 month); [right; apply Z.leb_gt; lia | left; apply Z.leb_gt; lia].
  - intros Hy. unfold get_last_day_of_month.
    destruct (monthrange_days year month) as [dim | e] eqn:Hdim; cbn [rbind].
    + unfold datetime.
      replace ((1 <=? year) && (year <=? 9999))%Z with false; [reflexivity |].
      symmetry. apply andb_false_iff.
      destruct (Z_le_gt_dec 1 year); [right; apply Z.leb_gt; lia | left; apply Z.leb_gt; lia].
    + unfold monthrange_days in Hdim.
      destruct ((1 <=? month) && (month <=? 12))%Z; congruence.
Qed.

Lemma last_day_of_month_spec_witness :
  exists d,
    get_last_day_of_month 2024 2 = Ok d /\ day_of d = 29%Z /\
    next_day d = Ok {| year_of := 2024; month_of := 3; day_of := 1 |}.
Proof.
  destruct (proj1 (last_day_of_month_spec 2024 2) ltac:(lia) ltac:(lia))
    as (d & H1 & _ & _ & H4 & H5).
  exists d. split; [exact H1 |]. split; [exact H4 | exact H5].
Defined.

(** ** The names of the files of a range scan *)

Lemma append_empty (s : string) : (s ++ EmptyString)%string = s.
Proof. induction s as [| a s IH]; cbn; [reflexivity | now rewrite IH]. Qed.

Lemma append_assoc (a b c : string) : ((a ++ b) ++ c)%string = (a ++ (b ++ c))%string.
Proof. induction a as [| x a IH]; cbn; [reflexivity | now rewrite IH]. Qed.

(** X22. In a scan whose month bounds lie between 1 and 12, the snapshot
    of a year is always given a name, and it and the summary of the year
    are named after the months scanned in that year: "yearly_<year>" and
    "data/collection_summary_<year>.json" for a whole year, and otherwise
    both with the same suffix "_<first month>-<last month>", two digits
    each. The three branches of the code for a part of a year agree with
    this one rule. *)
Theorem names_of_a_year (year start_year end_year start_month end_month : Z) :
  (1 <= start_month <= 12)%Z ->
  (1 <= end_month <= 12)%Z ->
  let month_start := month_start_of year start_year start_month in
  let month_end := month_end_of year end_year end_month in
  yearly_name year start_year end_year start_month end_month =
  Some ("yearly_" ++ str year ++ months_suffix month_start month_end)%string /\
  summary_name year start_year end_year start_month end_month =
  ("data/collection_summary_" ++ str year ++ months_suffix month_start month_end ++
   ".json")%string.
Proof.
  intros Hsm Hem. cbv zeta.
  unfold yearly_name, summary_name, months_suffix, month_start_of, month_end_of.
  assert (Hs : (start_month = 1 /\ (1 <? start_month) = false /\ (start_month =? 1) = true \/
                (1 <? start_month) = true /\ (start_month =? 1) = false)%Z).
  { destruct (Z.eq_dec start_month 1) as [-> | Hne]; [left; auto | right].
    split; [apply Z.ltb_lt | apply Z.eqb_neq]; lia. }
  assert (He : (end_month = 12 /\ (end_month <? 12) = false /\ (end_month =? 12) = true \/
                (end_month <? 12) = true /\ (end_month =? 12) = false)%Z).
  { destruct (Z.eq_dec end_month 12) as [-> | Hne]; [left; auto | right].
    split; [apply Z.ltb_lt | apply Z.eqb_neq]; lia. }
  destruct (year =? start_year)%Z, (year =? end_year)%Z;
    destruct Hs as [(-> & Hs1 & Hs2) | (Hs1 & Hs2)];
    destruct He as [(-> & He1 & He2) | (He1 & He2)];
    rewrite ?Hs1, ?Hs2, ?He1, ?He2;
    cbn [andb orb Z.ltb Z.eqb Z.compare Pos.compare Pos.compare_cont Pos.eqb];
    change (two_digits 12) with "12"; change (two_digits 1) with "01";
    repeat (rewrite ?append_assoc; cbn [append]);
    rewrite ?append_empty; split; reflexivity.
Qed.

Lemma names_of_a_year_witness :
  yearly_name 2023 2023 2024 3 6 = Some "yearly_2023_03-12" /\
  summary_name 2023 2023 2024 3 6 = "data/collection_summary_2023_03-12.json".
Proof.
  exact (names_of_a_year 2023 2023 2024 3 6 ltac:(lia) ltac:(lia)).
Defined.

(** X23. The overall summary of a range scan is named after the month
    bounds as they are after the loop over the years, those of the last
    year. For a scan over more than one year its name therefore never
    shows [start_month]: it is
    "data/collection_summary_<start_year>-<end_year>.json" when
    [end_month] is 12 and
    "data/collection_summary_<start_year>_01-<end_year>_<end_month>.json"
    otherwise, so that two scans that differ in their start month only
    write the same file. For a scan of one year the name shows both
    bounds, unless they are 1 and 12. *)
Theorem overall_summary_ignores_start_month
  (start_year end_year start_month end_month : Z) :
  ((start_year < end_year)%Z ->
   overall_summary_name start_year end_year start_month end_month =
   Ok (if (end_month =? 12)%Z
       then ("data/collection_summary_" ++ str start_year ++ "-" ++ str end_year ++
             ".json")%string
       else ("data/collection_summary_" ++ str start_year ++ "_01-" ++ str end_year ++
             "_" ++ two_digits end_month ++ ".json")%string) /\
   overall_summary_name start_year end_year start_month end_month =
   overall_summary_name start_year end_year 1 end_month) /\
  (start_year = end_year ->
   overall_summary_name start_year end_year start_month end_month =
   Ok ("data/collection_summary_" ++ str start_year ++
       months_suffix start_month end_month ++ ".json")%string).
Proof.
  unfold overall_summary_name, collection_range, months_suffix, month_start_of, month_end_of.
  rewrite Z.eqb_refl. split.
  - intros Hlt.
    replace (start_year <=? end_year)%Z with true by (symmetry; apply Z.leb_le; lia).
    replace (end_year =? start_year)%Z with false by (symmetry; apply Z.eqb_neq; lia).
    replace (start_year =? end_year)%Z with false by (symmetry; apply Z.eqb_neq; lia).
    cbn [Z.eqb Pos.eqb andb]. change (two_digits 1) with "01".
    split; [| reflexivity].
    destruct (end_month =? 12)%Z;
      repeat (rewrite ?append_assoc; cbn [append]); reflexivity.
  - intros <-. rewrite Z.leb_refl, Z.eqb_refl.
    destruct ((start_month =? 1) && (end_month =? 12))%Z;
      repeat (rewrite ?append_assoc; cbn [append]); rewrite ?append_empty; reflexivity.
Qed.

Lemma overall_summary_ignores_start_month_witness :
  overall_summary_name 2020 2021 6 12 = Ok "data/collection_summary_2020-2021.json" /\
  overall_summary_name 2020 2021 6 12 = overall_summary_name 2020 2021 1 12.
Proof.
  exact (proj1 (overall_summary_ignores_start_month 2020 2021 6 12) ltac:(lia)).
Defined.
